(** * Master Control Agent: task queue, subagent deployer and scheduler tick

    A shallow embedding of the orchestration core of the Master Control
    Agent example:

    - [TaskQueue]          (core/task-queue.ts): the SQL-backed priority queue
      with retry and dead-letter handling;
    - [SubagentDeployer]   (subagents/deployer.ts): the pool of subagents;
    - [StateManager]       (core/state-manager.ts): the metrics aggregate;
    - [MasterControlAgent] (core/master-agent.ts): [executeCommand] and the
      autonomous loop [processAutonomousTasks];
    - [RequestSecurity]    (core/master-agent.ts): [validateSecurity] and the
      rate limiter [checkRateLimit];
    - [DecisionEngine]     (core/decision-engine.ts): [validate];
    - [AuditLogger]        (audit/logger.ts): the log buffer of [log] and
      [flush];
    - [StateStore]         (core/state-manager.ts): the subagent list of the
      state and its persistence.

    Conventions of the embedding.
    - A JavaScript [number] that holds a count, a priority or a timestamp is
      a [Z]; a [string] is a [string]; a value of type [any] (payload,
      result) is the string of its JSON text.
    - An optional property ([startedAt?: number]) is an [option].
    - [Date.now()], [nanoid()] and [crypto.randomUUID()] read the outside
      world: every operation receives the values they return as arguments
      ([now], [nano], [uuid]); the reads of the clock within one call see
      one value.
    - An [async] method that can throw is a computation in the monad [M]
      below: the store is threaded and survives an exception, as the writes
      made before a [throw] do in the source. *)

From Stdlib Require Import ZArith Lia List Sorted Permutation.
From stdpp Require Import base strings pretty list gmap.

Local Open Scope Z_scope.

(** ** Exceptions and state *)

Inductive outcome (A : Type) : Type :=
| Returns (a : A)
| Throws (msg : string).
Arguments Returns {A} a.
Arguments Throws {A} msg.

Definition M (S A : Type) : Type := S -> outcome A * S.

Definition ret {S A} (a : A) : M S A := fun s => (Returns a, s).

Definition throw {S A} (msg : string) : M S A := fun s => (Throws msg, s).

Definition bind {S A B} (c : M S A) (k : A -> M S B) : M S B :=
  fun s =>
    match c s with
    | (Returns a, s') => k a s'
    | (Throws msg, s') => (Throws msg, s')
    end.

(** [try { c } catch (error) { h error.message }] *)
Definition try_catch {S A} (c : M S A) (h : string -> M S A) : M S A :=
  fun s =>
    match c s with
    | (Returns a, s') => (Returns a, s')
    | (Throws msg, s') => h msg s'
    end.

(** [try { c } finally { f }]: [f] runs whatever [c] did, and an exception
    of [f] takes the place of the outcome of [c]. *)
Definition try_finally {S A} (c : M S A) (f : M S unit) : M S A :=
  fun s =>
    match c s with
    | (r, s') =>
        match f s' with
        | (Returns _, s'') => (r, s'')
        | (Throws msg, s'') => (Throws msg, s'')
        end
    end.

Definition get_state {S} : M S S := fun s => (Returns s, s).

Definition modify {S} (f : S -> S) : M S unit := fun s => (Returns tt, f s).

(** Run a computation on one component of a larger state. *)
Definition zoom {S T A} (proj : T -> S) (upd : S -> T -> T) (c : M S A) : M T A :=
  fun t =>
    match c (proj t) with
    | (r, s') => (r, upd s' t)
    end.

Definition exec {S A} (c : M S A) (s : S) : S := snd (c s).

Definition result_of {S A} (c : M S A) (s : S) : outcome A := fst (c s).

Notation "'let*' x ':=' c 'in' k" := (bind c (fun x => k))
  (at level 10, x pattern, c at level 100, k at level 200).
Notation "c ';;' k" := (bind c (fun _ => k))
  (at level 100, k at level 200, right associativity).

(** [for (const x of xs) { body x }] *)
Fixpoint for_of {S A} (xs : list A) (body : A -> M S unit) : M S unit :=
  match xs with
  | [] => ret tt
  | x :: rest => body x ;; for_of rest body
  end.

(** ** Sorting for [ORDER BY] *)

(** A stable insertion sort: [x] is placed before the first element it
    sorts no later than, so elements that tie keep their order. *)
Fixpoint insert_by {A} (leb : A -> A -> bool) (x : A) (l : list A) : list A :=
  match l with
  | [] => [x]
  | y :: rest => if leb x y then x :: y :: rest else y :: insert_by leb x rest
  end.

Definition sort_by {A} (leb : A -> A -> bool) (l : list A) : list A :=
  foldr (insert_by leb) [] l.

(** ** TaskQueue *)

Module TaskQueue.

Inductive TaskStatus : Type := pending | in_progress | completed | failed.

#[global] Instance TaskStatus_eq_dec : EqDecision TaskStatus.
Proof. solve_decision. Defined.

Record Task : Type := mkTask {
  id : string;
  type : string;
  description : string;
  priority : Z;
  payload : string;
  status : TaskStatus;
  createdAt : Z;
  startedAt : option Z;
  completedAt : option Z;
  result : option string;
  error : option string;
  retryCount : Z;
  maxRetries : Z;
  dependencies : option (list string)
}.

(** [Omit<Task, "id" | "status" | "createdAt" | "retryCount">].  The type
    makes [maxRetries] mandatory, but [handleCommand] calls [enqueue]
    without it, so the property may be absent at run time. *)
Record TaskData : Type := mkTaskData {
  td_type : string;
  td_description : string;
  td_priority : Z;
  td_payload : string;
  td_startedAt : option Z;
  td_completedAt : option Z;
  td_result : option string;
  td_error : option string;
  td_maxRetries : option Z;
  td_dependencies : option (list string)
}.

(** [Partial<Task>]: [None] is a property the patch does not carry. *)
Record TaskPatch : Type := mkTaskPatch {
  p_id : option string;
  p_type : option string;
  p_description : option string;
  p_priority : option Z;
  p_payload : option string;
  p_status : option TaskStatus;
  p_createdAt : option Z;
  p_startedAt : option Z;
  p_completedAt : option Z;
  p_result : option string;
  p_error : option string;
  p_retryCount : option Z;
  p_maxRetries : option Z;
  p_dependencies : option (list string)
}.

(** The object literals [{ result }] and [{ error }]. *)
Definition patch_result (r : string) : TaskPatch :=
  mkTaskPatch None None None None None None None None None (Some r) None None None None.

Definition patch_error (e : string) : TaskPatch :=
  mkTaskPatch None None None None None None None None None None (Some e) None None None.

(** One row of [cf_agents_queues].  The [payload] column holds
    [JSON.stringify(task)] and is only ever read back through
    [JSON.parse]; the embedding keeps the task itself. *)
Record Row : Type := mkRow {
  row_id : string;
  row_type : string;
  row_priority : Z;
  row_payload : Task;
  row_status : TaskStatus;
  row_created_at : Z
}.

Record DLQEntry : Type := mkDLQEntry {
  taskId : string;
  task : Task;
  dlq_error : string;
  timestamp : Z
}.

(** [ctx.storage] as the queue uses it: the SQL table, rows in rowid
    (insertion) order, and the key-value entries written under "dlq:". *)
Record Storage : Type := mkStorage {
  cf_agents_queues : list Row;
  kv : gmap string DLQEntry
}.

Definition empty_storage : Storage := mkStorage [] ∅.

Definition set_table (q : list Row) (st : Storage) : Storage :=
  mkStorage q (kv st).

Definition set_kv (m : gmap string DLQEntry) (st : Storage) : Storage :=
  mkStorage (cf_agents_queues st) m.

(** *** JavaScript helpers *)

(** [x || d] on an optional number: [undefined] and [0] are falsy. *)
Definition js_or (x : option Z) (d : Z) : Z :=
  match x with
  | None => d
  | Some v => if v =? 0 then d else v
  end.

(** [!x] on an optional number. *)
Definition js_not (x : option Z) : bool :=
  match x with
  | None => true
  | Some v => v =? 0
  end.

Definition or_else {A} (o : option A) (d : A) : A :=
  match o with Some v => v | None => d end.

Definition or_keep {A} (o old : option A) : option A :=
  match o with Some v => Some v | None => old end.

(** [Object.assign(task, data)] *)
Definition assign (t : Task) (p : TaskPatch) : Task :=
  {| id := or_else (p_id p) (id t);
     type := or_else (p_type p) (type t);
     description := or_else (p_description p) (description t);
     priority := or_else (p_priority p) (priority t);
     payload := or_else (p_payload p) (payload t);
     status := or_else (p_status p) (status t);
     createdAt := or_else (p_createdAt p) (createdAt t);
     startedAt := or_keep (p_startedAt p) (startedAt t);
     completedAt := or_keep (p_completedAt p) (completedAt t);
     result := or_keep (p_result p) (result t);
     error := or_keep (p_error p) (error t);
     retryCount := or_else (p_retryCount p) (retryCount t);
     maxRetries := or_else (p_maxRetries p) (maxRetries t);
     dependencies := or_keep (p_dependencies p) (dependencies t) |}.

Definition set_status (s : TaskStatus) (t : Task) : Task :=
  mkTask (id t) (type t) (description t) (priority t) (payload t) s
         (createdAt t) (startedAt t) (completedAt t) (result t) (error t)
         (retryCount t) (maxRetries t) (dependencies t).

Definition set_startedAt (v : Z) (t : Task) : Task :=
  mkTask (id t) (type t) (description t) (priority t) (payload t) (status t)
         (createdAt t) (Some v) (completedAt t) (result t) (error t)
         (retryCount t) (maxRetries t) (dependencies t).

Definition set_completedAt (v : Z) (t : Task) : Task :=
  mkTask (id t) (type t) (description t) (priority t) (payload t) (status t)
         (createdAt t) (startedAt t) (Some v) (result t) (error t)
         (retryCount t) (maxRetries t) (dependencies t).

Definition set_error (e : string) (t : Task) : Task :=
  mkTask (id t) (type t) (description t) (priority t) (payload t) (status t)
         (createdAt t) (startedAt t) (completedAt t) (result t) (Some e)
         (retryCount t) (maxRetries t) (dependencies t).

Definition set_retryCount (n : Z) (t : Task) : Task :=
  mkTask (id t) (type t) (description t) (priority t) (payload t) (status t)
         (createdAt t) (startedAt t) (completedAt t) (result t) (error t)
         n (maxRetries t) (dependencies t).

(** *** The SQL statements *)

Definition is_pending (r : Row) : bool := bool_decide (row_status r = pending).

Definition has_id (i : string) (r : Row) : bool := bool_decide (row_id r = i).

(** [ORDER BY priority DESC, created_at ASC]: does [a] sort no later
    than [b]? *)
Definition row_leb (a b : Row) : bool :=
  (row_priority b <? row_priority a)
  || ((row_priority a =? row_priority b) && (row_created_at a <=? row_created_at b)).

(** Rows that tie on both keys keep their rowid order, as the scan of
    [idx_status_priority] delivers them: a stable insertion sort. *)
Fixpoint insert_row (r : Row) (l : list Row) : list Row :=
  match l with
  | [] => [r]
  | x :: rest => if row_leb r x then r :: x :: rest else x :: insert_row r rest
  end.

Definition order_by_priority_created (l : list Row) : list Row :=
  foldr insert_row [] l.

(** [INSERT INTO cf_agents_queues ...]; [id] is the primary key. *)
Definition sql_insert (r : Row) : M Storage unit :=
  fun st =>
    if existsb (has_id (row_id r)) (cf_agents_queues st)
    then (Throws "UNIQUE constraint failed: cf_agents_queues.id", st)
    else (Returns tt, set_table (cf_agents_queues st ++ [r]) st).

(** [UPDATE cf_agents_queues SET payload = ?, status = ? WHERE id = ?] *)
Definition sql_update (i : string) (t : Task) (s : TaskStatus) : M Storage unit :=
  modify (fun st =>
    set_table
      (map (fun r => if has_id i r
                     then mkRow (row_id r) (row_type r) (row_priority r) t s (row_created_at r)
                     else r)
           (cf_agents_queues st))
      st).

(** [SELECT payload ... WHERE status = 'pending' ORDER BY priority DESC,
    created_at ASC LIMIT ?].  The bound parameter is a row count, a natural
    number; what the SQL engine makes of a negative or fractional bound is
    outside the embedding. *)
Definition sql_select_pending (limit : nat) (st : Storage) : list Row :=
  take limit (order_by_priority_created (filter (fun r => is_pending r = true) (cf_agents_queues st))).

(** [SELECT payload FROM cf_agents_queues WHERE id = ?] *)
Definition sql_select_by_id (i : string) (st : Storage) : list Row :=
  filter (fun r => has_id i r = true) (cf_agents_queues st).

Definition is_finished (r : Row) : bool :=
  bool_decide (row_status r = completed) || bool_decide (row_status r = failed).

(** *** The methods *)

(** The object literal that [enqueue] builds. *)
Definition new_task (taskData : TaskData) (nano : string) (now : Z) : Task :=
  {| id := nano;
     type := td_type taskData;
     description := td_description taskData;
     priority := td_priority taskData;
     payload := td_payload taskData;
     status := pending;
     createdAt := now;
     startedAt := td_startedAt taskData;
     completedAt := td_completedAt taskData;
     result := td_result taskData;
     error := td_error taskData;
     retryCount := 0;
     maxRetries := js_or (td_maxRetries taskData) 3;
     dependencies := td_dependencies taskData |}.

Definition enqueue (taskData : TaskData) (nano : string) (now : Z) : M Storage Task :=
  let task := new_task taskData nano now in
  sql_insert (mkRow (id task) (type task) (priority task) task (status task) (createdAt task)) ;;
  ret task.

Definition getPending (limit : nat) : M Storage (list Task) :=
  let* st := get_state in
  ret (map row_payload (sql_select_pending limit st)).

Definition getTask (i : string) : M Storage (option Task) :=
  let* st := get_state in
  match sql_select_by_id i st with
  | r :: _ => ret (Some (row_payload r))
  | [] => ret None
  end.

Definition updateStatus (i : string) (s : TaskStatus) (data : option TaskPatch) (now : Z)
  : M Storage unit :=
  let* found := getTask i in
  match found with
  | None => throw ("Task not found: " +:+ i)
  | Some task =>
      let task := set_status s task in
      let task :=
        if bool_decide (s = in_progress) && js_not (startedAt task)
        then set_startedAt now task
        else if (bool_decide (s = completed) || bool_decide (s = failed))
                && js_not (completedAt task)
        then set_completedAt now task
        else task in
      let task :=
        match data with
        | Some d => assign task d
        | None => task
        end in
      sql_update i task s
  end.

Definition complete (i : string) (res : string) (now : Z) : M Storage unit :=
  updateStatus i completed (Some (patch_result res)) now.

Definition moveToDLQ (t : Task) (err : string) (now : Z) : M Storage unit :=
  let dlqEntry := mkDLQEntry (id t) t err now in
  modify (fun st => set_kv (<[ "dlq:" +:+ id t := dlqEntry ]> (kv st)) st).

Definition fail (i : string) (err : string) (now : Z) : M Storage unit :=
  let* found := getTask i in
  match found with
  | None => ret tt
  | Some task =>
      if retryCount task <? maxRetries task
      then
        let task := set_retryCount (retryCount task + 1) task in
        let task := set_status pending task in
        let task := set_error err task in
        sql_update i task pending
      else
        updateStatus i failed (Some (patch_error err)) now ;;
        moveToDLQ task err now
  end.

Fixpoint deps_loop (deps : list string) : M Storage bool :=
  match deps with
  | [] => ret true
  | depId :: rest =>
      let* depTask := getTask depId in
      match depTask with
      | None => ret false
      | Some d => if bool_decide (status d = completed) then deps_loop rest else ret false
      end
  end.

Definition areDependenciesSatisfied (t : Task) : M Storage bool :=
  match dependencies t with
  | None => ret true
  | Some [] => ret true
  | Some deps => deps_loop deps
  end.

Definition cleanup (daysToKeep : Z) (now : Z) : M Storage nat :=
  let cutoff := now - daysToKeep * 24 * 60 * 60 * 1000 in
  let* st := get_state in
  let doomed r := is_finished r && (row_created_at r <? cutoff) in
  modify (set_table (filter (fun r => doomed r = false) (cf_agents_queues st))) ;;
  ret (length (filter (fun r => doomed r = true) (cf_agents_queues st))).

(** [ORDER BY created_at DESC]: does [a] sort no later than [b]? *)
Definition recent_leb (a b : Row) : bool := row_created_at b <=? row_created_at a.

(** [SELECT payload FROM cf_agents_queues ORDER BY created_at DESC LIMIT ?].
    The engine answers from the index [idx_created_at], read backwards:
    rows of equal [created_at] come out in the reverse of their rowid
    order, which is how the stable sort leaves them on the reversed
    table. *)
Definition sql_select_recent (limit : nat) (st : Storage) : list Row :=
  take limit (sort_by recent_leb (rev (cf_agents_queues st))).

Definition getRecent (limit : nat) : M Storage (list Task) :=
  let* st := get_state in
  ret (map row_payload (sql_select_recent limit st)).

End TaskQueue.

(** ** SubagentDeployer *)

Module SubagentDeployer.

Inductive SubagentType : Type := worker | specialist | integration | monitor.

Inductive SubagentStatus : Type := active | idle | error.

#[global] Instance SubagentStatus_eq_dec : EqDecision SubagentStatus.
Proof. solve_decision. Defined.

Record SubagentInfo : Type := mkSubagentInfo {
  id : string;
  type : SubagentType;
  name : string;
  status : SubagentStatus;
  currentTask : option string;
  deployedAt : Z;
  lastHeartbeat : Z
}.

Record SubagentConfig : Type := mkSubagentConfig {
  cfg_type : SubagentType;
  cfg_name : string
}.

(** [Map<string, SubagentInfo>]: entries in insertion order, which is the
    order [values()] and [entries()] iterate in. *)
Definition SubagentMap : Type := list (string * SubagentInfo).

Record Deployer : Type := mkDeployer {
  maxSubagents : Z;                               (* this.config.maxSubagents *)
  activeSubagents : SubagentMap;
  stored : option (list SubagentInfo)             (* ctx.storage key 'subagents' *)
}.

Definition new_deployer (limit : Z) : Deployer := mkDeployer limit [] None.

Definition set_active (m : SubagentMap) (d : Deployer) : Deployer :=
  mkDeployer (maxSubagents d) m (stored d).

(** *** Map operations *)

Fixpoint map_get (k : string) (m : SubagentMap) : option SubagentInfo :=
  match m with
  | [] => None
  | (k', v) :: rest => if bool_decide (k' = k) then Some v else map_get k rest
  end.

(** [Map.set]: an existing key keeps its position. *)
Fixpoint map_set (k : string) (v : SubagentInfo) (m : SubagentMap) : SubagentMap :=
  match m with
  | [] => [(k, v)]
  | (k', v') :: rest =>
      if bool_decide (k' = k) then (k, v) :: rest else (k', v') :: map_set k v rest
  end.

Definition map_delete (k : string) (m : SubagentMap) : SubagentMap :=
  filter (fun e => fst e ≠ k) m.

(** Mutation of the object that [Map.get] returned. *)
Fixpoint map_mutate (k : string) (f : SubagentInfo -> SubagentInfo) (m : SubagentMap)
  : SubagentMap :=
  match m with
  | [] => []
  | (k', v) :: rest =>
      if bool_decide (k' = k) then (k', f v) :: rest else (k', v) :: map_mutate k f rest
  end.

Definition map_values (m : SubagentMap) : list SubagentInfo := map snd m.

Definition map_size (m : SubagentMap) : Z := Z.of_nat (length m).

Definition set_status (s : SubagentStatus) (a : SubagentInfo) : SubagentInfo :=
  mkSubagentInfo (id a) (type a) (name a) s (currentTask a) (deployedAt a) (lastHeartbeat a).

Definition set_currentTask (t : option string) (a : SubagentInfo) : SubagentInfo :=
  mkSubagentInfo (id a) (type a) (name a) (status a) t (deployedAt a) (lastHeartbeat a).

Definition set_lastHeartbeat (h : Z) (a : SubagentInfo) : SubagentInfo :=
  mkSubagentInfo (id a) (type a) (name a) (status a) (currentTask a) (deployedAt a) h.

(** *** The methods *)

Definition persist : M Deployer unit :=
  modify (fun d => mkDeployer (maxSubagents d) (activeSubagents d)
                              (Some (map_values (activeSubagents d)))).

Definition load : M Deployer unit :=
  modify (fun d =>
    match stored d with
    | Some l => set_active (foldl (fun m s => map_set (id s) s m) (activeSubagents d) l) d
    | None => d
    end).

Definition create (config : SubagentConfig) (uuid : string) (now : Z) : M Deployer SubagentInfo :=
  let subagent := mkSubagentInfo uuid (cfg_type config) (cfg_name config) active None now now in
  modify (fun d => set_active (map_set (id subagent) subagent (activeSubagents d)) d) ;;
  persist ;;
  ret subagent.

(** The [for ... of this.activeSubagents.values()] loop of [allocate]: the
    first idle subagent, in iteration order, is mutated in place. *)
Fixpoint claim_idle (taskId : string) (m : SubagentMap) : option (SubagentInfo * SubagentMap) :=
  match m with
  | [] => None
  | (k, subagent) :: rest =>
      if bool_decide (status subagent = idle)
      then
        let subagent := set_currentTask (Some taskId) (set_status active subagent) in
        Some (subagent, (k, subagent) :: rest)
      else
        match claim_idle taskId rest with
        | Some (found, rest') => Some (found, (k, subagent) :: rest')
        | None => None
        end
  end.

Definition allocate (t : TaskQueue.Task) (uuid : string) (now : Z) : M Deployer SubagentInfo :=
  let* d := get_state in
  match claim_idle (TaskQueue.id t) (activeSubagents d) with
  | Some (subagent, m') =>
      modify (set_active m') ;;
      persist ;;
      ret subagent
  | None =>
      if map_size (activeSubagents d) <? maxSubagents d
      then create (mkSubagentConfig worker ("worker-" +:+ pretty now)) uuid now
      else throw "No available subagents and at capacity"
  end.

Definition release (subagentId : string) : M Deployer unit :=
  let* d := get_state in
  match map_get subagentId (activeSubagents d) with
  | Some _ =>
      modify (set_active
                (map_mutate subagentId
                   (fun s => set_currentTask None (set_status idle s))
                   (activeSubagents d))) ;;
      persist
  | None => ret tt
  end.

Definition remove (subagentId : string) : M Deployer unit :=
  modify (fun d => set_active (map_delete subagentId (activeSubagents d)) d) ;;
  persist.

Definition list_subagents : M Deployer (list SubagentInfo) :=
  let* d := get_state in
  ret (map_values (activeSubagents d)).

Definition timeout : Z := 5 * 60 * 1000.

Definition check_one (now : Z) (subagent : SubagentInfo) : SubagentInfo :=
  if timeout <? now - lastHeartbeat subagent
  then set_status error subagent
  else subagent.

Definition healthCheck (now : Z) : M Deployer unit :=
  modify (fun d => set_active (map (fun e => (fst e, check_one now (snd e))) (activeSubagents d)) d) ;;
  persist.

Definition beat (now : Z) (subagent : SubagentInfo) : SubagentInfo :=
  let subagent := set_lastHeartbeat now subagent in
  if bool_decide (status subagent = error)
  then set_status active subagent
  else subagent.

Definition heartbeat (subagentId : string) (now : Z) : M Deployer unit :=
  let* d := get_state in
  match map_get subagentId (activeSubagents d) with
  | Some _ =>
      modify (set_active (map_mutate subagentId (beat now) (activeSubagents d))) ;;
      persist
  | None => ret tt
  end.

End SubagentDeployer.

(** ** StateManager *)

Module StateManager.

Record Metrics : Type := mkMetrics {
  tasksCompleted : Z;
  tasksFailed : Z;
  tasksActive : Z;
  subagentsActive : Z;
  lastHealthCheck : Z
}.

(** The part of [AgentState] the scheduler reads. *)
Record AgentState : Type := mkAgentState {
  metrics : Metrics
}.

Definition createDefaultState (now : Z) : AgentState :=
  mkAgentState (mkMetrics 0 0 0 0 now).

Definition getState : M AgentState AgentState := get_state.

Definition incrementCompleted : M AgentState unit :=
  modify (fun s =>
    let m := metrics s in
    mkAgentState (mkMetrics (tasksCompleted m + 1) (tasksFailed m) (tasksActive m)
                            (subagentsActive m) (lastHealthCheck m))).

Definition incrementFailed : M AgentState unit :=
  modify (fun s =>
    let m := metrics s in
    mkAgentState (mkMetrics (tasksCompleted m) (tasksFailed m + 1) (tasksActive m)
                            (subagentsActive m) (lastHealthCheck m))).


End StateManager.

(** ** MasterControlAgent *)

Module MasterControlAgent.

Import TaskQueue.

Record MasterAgentConfig : Type := mkConfig {
  autonomousMode : bool;
  maxConcurrentTasks : Z;
  maxSubagents : Z
}.

Inductive Category : Type :=
| cloudflare | docker | subagent | mcp | domain | knowledge | system | general.

Record Decision : Type := mkDecision {
  category : Category;
  action : string;
  requiresApproval : bool
}.

(** What [allocateResources] returns: [{ subagent }] or [{ direct: true }]. *)
Inductive Resources : Type :=
| with_subagent (s : SubagentDeployer.SubagentInfo)
| direct.

(** Calls that leave the agent: the audit log, the client connection, the
    knowledge base, and the (empty) body of [executeTask]. *)
Inductive Event : Type :=
| AuditInfo (what : string)
| AuditError (what : string)
| Sent (kind : string) (taskId : string)
| Learned (success : bool)
| ExecuteTask (t : Task) (r : Resources).

Record Agent : Type := mkAgent {
  config : MasterAgentConfig;
  taskQueue : Storage;
  stateManager : StateManager.AgentState;
  subagentDeployer : SubagentDeployer.Deployer;
  events : list Event
}.

(** The collaborators outside the core, as the results their calls
    produce: the decision engine, the category handlers, the connection
    and the knowledge base. *)
Record World : Type := mkWorld {
  analyze : string -> outcome Decision;
  handle : Category -> Decision -> outcome string;
  send : string -> outcome unit;
  learn : bool -> outcome unit;
  randomUUID : Task -> string
}.

Definition on_queue {A} (c : M Storage A) : M Agent A :=
  zoom taskQueue
       (fun q a => mkAgent (config a) q (stateManager a) (subagentDeployer a) (events a))
       c.


Definition on_deployer {A} (c : M SubagentDeployer.Deployer A) : M Agent A :=
  zoom subagentDeployer
       (fun d a => mkAgent (config a) (taskQueue a) (stateManager a) d (events a))
       c.

Definition emit (e : Event) : M Agent unit :=
  modify (fun a => mkAgent (config a) (taskQueue a) (stateManager a) (subagentDeployer a)
                           (events a ++ [e])).

Definition external {A} (r : outcome A) : M Agent A := fun a => (r, a).

Definition connection_send (w : World) (kind taskId : string) : M Agent unit :=
  external (send w kind) ;; emit (Sent kind taskId).

Definition knowledge_learn (w : World) (success : bool) : M Agent unit :=
  external (learn w success) ;; emit (Learned success).

(** [span.end()], for a span that [this.tracer.startSpan] returned.  The
    tracer is an [OTELTracer]: its [startSpan] files a plain record in the
    tracer's own table, which nothing here reads, and returns it.  The
    record has no method [end] (the tracer ends a span with [endSpan]), so
    the call is a [TypeError]. *)
Definition span_end_error : string := "span.end is not a function".

Definition span_end : M Agent unit := throw span_end_error.

(** [executeCommand], up to its first wait on the decision engine. *)
Definition executeCommand_start (t : Task) (now : Z) : M Agent unit :=
  on_queue (updateStatus (id t) in_progress None now).

(** [executeCommand], from the call of [decisionEngine.analyze] to the end
    of the [try] block.  The [switch] on [decision.category] selects one
    collaborator; [handle w] stands for all eight branches. *)
Definition executeCommand_rest (w : World) (t : Task) (now : Z) : M Agent unit :=
  let* decision := external (analyze w (payload t)) in
  emit (AuditInfo "Command analyzed") ;;
  let* res := external (handle w (category decision) decision) in
  on_queue (complete (id t) res now) ;;
  connection_send w "task_completed" (id t) ;;
  knowledge_learn w true.

Definition executeCommand (w : World) (t : Task) (now : Z) : M Agent unit :=
  try_finally
    (try_catch
       (executeCommand_start t now ;;
        executeCommand_rest w t now)
       (fun message =>
          emit (AuditError "Command execution failed") ;;
          on_queue (fail (id t) message now) ;;
          connection_send w "task_failed" (id t) ;;
          knowledge_learn w false))
    span_end.


Definition canProcessTask (t : Task) : M Agent bool :=
  let* a := get_state in
  let state := stateManager a in
  if maxConcurrentTasks (config a) <=? StateManager.tasksActive (StateManager.metrics state)
  then ret false
  else ret true.

Definition allocateResources (w : World) (t : Task) (now : Z) : M Agent Resources :=
  let needsSubagent := bool_decide (type t = "complex") || (7 <? priority t) in
  if needsSubagent
  then
    let* s := on_deployer (SubagentDeployer.allocate t (randomUUID w t) now) in
    ret (with_subagent s)
  else ret direct.

Definition executeTask (t : Task) (r : Resources) : M Agent unit :=
  emit (ExecuteTask t r).

Definition performHealthCheck : M Agent unit :=
  emit (AuditInfo "Health check completed").

(** [this.taskQueue.getPending(n)] for a number [n] of the configuration.
    The number goes into [LIMIT ?] as it is, and SQLite reads a negative
    [LIMIT] as no limit: every pending task is returned then, which is
    [getPending] with a limit as large as the table. *)
Definition getPending_number (n : Z) : M Storage (list Task) :=
  if n <? 0
  then
    let* st := get_state in
    getPending (length (cf_agents_queues st))
  else getPending (Z.to_nat n).

Definition processAutonomousTasks (w : World) (now : Z) : M Agent unit :=
  try_finally
    (try_catch
       (let* a := get_state in
        let* pendingTasks :=
          on_queue (getPending_number (maxConcurrentTasks (config a))) in
        for_of pendingTasks (fun t =>
          let* canProcess := canProcessTask t in
          if negb canProcess
          then ret tt
          else
            let* resources := allocateResources w t now in
            executeTask t resources) ;;
        performHealthCheck)
       (fun _ => emit (AuditError "Autonomous loop error")))
    span_end.

(** The tasks handed to [executeTask], in order. *)
Definition dispatched (es : list Event) : list Task :=
  omap (fun e => match e with ExecuteTask t _ => Some t | _ => None end) es.


End MasterControlAgent.

(** ** MasterControlAgent: request security *)

Module RequestSecurity.

(** [ctx.storage] as the rate limiter uses it: a number per key.  The
    storage of a Durable Object knows no [expirationTtl]: [put] ignores the
    option, and a counter, once written, stays until it is overwritten. *)
Definition Store : Type := gmap string Z.

Definition storage_get (key : string) (store : Store) : option Z :=
  store !! key.

(** [put(key, value, { expirationTtl })] *)
Definition storage_put (key : string) (value expirationTtl : Z) (store : Store) : Store :=
  <[key := value]> store.

Definition checkRateLimit (connectionId : string) : M Store bool :=
  let key := "rate-limit:" +:+ connectionId in
  let* store := get_state in
  let count := TaskQueue.js_or (storage_get key store) 0 in
  if 100 <? count
  then ret false
  else modify (storage_put key (count + 1) 60) ;; ret true.

Record SecurityCheck : Type := mkSecurityCheck {
  valid : bool;
  reason : option string
}.

(** [authResult] is the [valid] field of what [zeroTrust.validate] answers
    for the connection; that method catches its own errors and always
    answers. *)
Definition validateSecurity (zeroTrustEnabled authResult : bool)
           (connectionId : string) : M Store SecurityCheck :=
  if zeroTrustEnabled && negb authResult
  then ret (mkSecurityCheck false (Some "Zero Trust authentication failed"))
  else
    let* rateLimitOk := checkRateLimit connectionId in
    if negb rateLimitOk
    then ret (mkSecurityCheck false (Some "Rate limit exceeded"))
    else ret (mkSecurityCheck true None).

End RequestSecurity.

(** ** DecisionEngine *)

Module DecisionEngine.

Import MasterControlAgent.

(** The members of the [category] enumeration, as the strings they are. *)
Definition category_name (c : Category) : string :=
  match c with
  | cloudflare => "cloudflare"
  | docker => "docker"
  | subagent => "subagent"
  | mcp => "mcp"
  | domain => "domain"
  | knowledge => "knowledge"
  | system => "system"
  | general => "general"
  end.

(** [String.prototype.toLowerCase] on the letters A to Z; the three words
    [validate] looks for are made of letters no other character lowers to. *)
Definition lower_ascii (c : Ascii.ascii) : Ascii.ascii :=
  let n := Ascii.nat_of_ascii c in
  if ((65 <=? n) && (n <=? 90))%nat then Ascii.ascii_of_nat (n + 32) else c.

Fixpoint toLowerCase (s : string) : string :=
  match s with
  | EmptyString => EmptyString
  | String c rest => String (lower_ascii c) (toLowerCase rest)
  end.

(** [String.prototype.includes] *)
Fixpoint includes (needle hay : string) : bool :=
  String.prefix needle hay
  || match hay with
     | EmptyString => false
     | String _ rest => includes needle rest
     end.

(** [Array.prototype.includes] on strings *)
Definition array_includes (x : string) (l : list string) : bool :=
  existsb (String.eqb x) l.

Record Validation : Type := mkValidation {
  valid : bool;
  reasons : option (list string)
}.

Definition high_risk (r : string) : bool :=
  includes "delete" (toLowerCase r)
  || includes "destroy" (toLowerCase r)
  || includes "remove" (toLowerCase r).

(** [risks] is the optional [risks] property of the decision. *)
Definition validate (decision : Decision) (risks : option (list string))
           (capabilities : list string) : Validation :=
  if negb (array_includes (category_name (category decision) +:+ "_operations") capabilities)
  then mkValidation false
         (Some ["Capability not available: " +:+ category_name (category decision)])
  else
    match risks with
    | Some (r :: rs) =>
        let highRisk := existsb high_risk (r :: rs) in
        if highRisk && negb (requiresApproval decision)
        then mkValidation false (Some ["High-risk operation requires approval"])
        else mkValidation true None
    | _ => mkValidation true None
    end.

End DecisionEngine.

(** [MasterControlAgent.listCapabilities] *)
Definition listCapabilities : list string :=
  [ "deploy_worker"; "manage_durable_objects"; "configure_domains"; "manage_dns";
    "manage_kv_storage"; "manage_r2_storage"; "configure_ai_gateway";
    "manage_containers"; "pull_push_images"; "manage_networks"; "manage_volumes";
    "docker_compose";
    "deploy_mcp_server"; "call_mcp_tool"; "access_mcp_resource";
    "create_subagent"; "deploy_subagent"; "manage_subagent";
    "query_knowledge_base"; "add_knowledge"; "backup_knowledge";
    "health_check"; "view_metrics"; "view_audit_log"; "configure_system" ].

(** ** AuditLogger: the log buffer *)

Module AuditLogger.

Inductive LogLevel : Type := debug | info | warn | error | critical.

#[global] Instance LogLevel_eq_dec : EqDecision LogLevel.
Proof. solve_decision. Defined.

Record LogEntry : Type := mkLogEntry {
  id : string;
  level : LogLevel;
  message : string;
  data : option string;
  timestamp : Z;
  source : string;
  traceId : option string
}.

(** [flushed] lists the batches that [flush] has taken out of the buffer to
    write them out, oldest first.  [flush] replaces the buffer before its
    first [await], so a batch is taken within the call of [log] that
    triggers it; the writes themselves (SQL, Analytics Engine, R2) are not
    part of this model. *)
Record Logger : Type := mkLogger {
  logBuffer : list LogEntry;
  flushed : list (list LogEntry)
}.

Definition new_logger : Logger := mkLogger [] [].

Definition flush : M Logger unit :=
  let* l := get_state in
  if (Z.of_nat (length (logBuffer l)) =? 0)
  then ret tt
  else
    let entries := logBuffer l in
    modify (fun l => mkLogger [] (flushed l ++ [entries])).

(** [getTraceId] returns [undefined]. *)
Definition getTraceId : option string := None.

Definition log (lvl : LogLevel) (msg : string) (dat : option string)
           (uuid : string) (now : Z) : M Logger unit :=
  let entry := mkLogEntry uuid lvl msg dat now "master-control-agent" getTraceId in
  modify (fun l => mkLogger (logBuffer l ++ [entry]) (flushed l)) ;;
  (let* l := get_state in
   if 100 <=? Z.of_nat (length (logBuffer l)) then flush else ret tt) ;;
  if bool_decide (lvl = critical) then flush else ret tt.

End AuditLogger.

(** ** StateManager: the subagent list and its persistence *)

Module StateStore.

Import SubagentDeployer.
Import StateManager.

(** The part of [AgentState] that the subagent methods read and write. *)
Record State : Type := mkState {
  subagents : list SubagentInfo;
  st_metrics : Metrics
}.

(** [this.state] and the value under the key "agent_state" of
    [ctx.storage]. *)
Record Manager : Type := mkManager {
  state : option State;
  storage : option State
}.

Definition defaultState (now : Z) : State :=
  mkState [] (mkMetrics 0 0 0 0 now).

Definition persist : M Manager unit :=
  modify (fun m =>
    match state m with
    | None => m
    | Some s => mkManager (Some s) (Some s)
    end).

Definition load (now : Z) : M Manager State :=
  let* m := get_state in
  match state m with
  | Some s => ret s
  | None =>
      match storage m with
      | Some stored =>
          modify (fun m => mkManager (Some stored) (storage m)) ;;
          ret stored
      | None =>
          modify (fun m => mkManager (Some (defaultState now)) (storage m)) ;;
          persist ;;
          ret (defaultState now)
      end
  end.

Definition getState (now : Z) : M Manager State :=
  let* m := get_state in
  match state m with
  | None => load now
  | Some s => ret s
  end.

(** [if (!this.state) { await this.load(); }] *)
Definition ensure_loaded (now : Z) : M Manager unit :=
  let* m := get_state in
  match state m with
  | None => load now ;; ret tt
  | Some _ => ret tt
  end.

(** [this.state!]: a property read on [null] is a [TypeError]. *)
Definition the_state : M Manager State :=
  let* m := get_state in
  match state m with
  | Some s => ret s
  | None => throw "TypeError: Cannot read properties of null"
  end.

Definition set_the_state (s : State) : M Manager unit :=
  modify (fun m => mkManager (Some s) (storage m)).

Definition count_active (subs : list SubagentInfo) : Z :=
  Z.of_nat (length (filter (fun s => status s = active) subs)).

Definition set_subagentsActive (n : Z) (m : Metrics) : Metrics :=
  mkMetrics (tasksCompleted m) (tasksFailed m) (tasksActive m) n (lastHealthCheck m).

(** Write the list back and recount the active subagents. *)
Definition put_subagents (subs : list SubagentInfo) : M Manager unit :=
  let* s := the_state in
  set_the_state (mkState subs (st_metrics s)) ;;
  let* s := the_state in
  set_the_state (mkState (subagents s)
                         (set_subagentsActive (count_active (subagents s)) (st_metrics s))).

Definition addSubagent (subagent : SubagentInfo) (now : Z) : M Manager unit :=
  ensure_loaded now ;;
  let* s := the_state in
  put_subagents (subagents s ++ [subagent]) ;;
  persist.

(** [Partial<SubagentInfo>]: the properties that are present. *)
Record SubagentPatch : Type := mkSubagentPatch {
  p_id : option string;
  p_type : option SubagentType;
  p_name : option string;
  p_status : option SubagentStatus;
  p_currentTask : option (option string);
  p_deployedAt : option Z;
  p_lastHeartbeat : option Z
}.

(** [{ ...s, ...updates }] *)
Definition spread (s : SubagentInfo) (updates : SubagentPatch) : SubagentInfo :=
  mkSubagentInfo
    (TaskQueue.or_else (p_id updates) (id s))
    (TaskQueue.or_else (p_type updates) (type s))
    (TaskQueue.or_else (p_name updates) (name s))
    (TaskQueue.or_else (p_status updates) (status s))
    (TaskQueue.or_else (p_currentTask updates) (currentTask s))
    (TaskQueue.or_else (p_deployedAt updates) (deployedAt s))
    (TaskQueue.or_else (p_lastHeartbeat updates) (lastHeartbeat s)).

(** [findIndex(s => s.id === id)], [None] for -1. *)
Fixpoint findIndex (i : string) (subs : list SubagentInfo) : option nat :=
  match subs with
  | [] => None
  | s :: rest =>
      if bool_decide (id s = i) then Some O
      else S <$> findIndex i rest
  end.

Definition updateSubagent (i : string) (updates : SubagentPatch) (now : Z) : M Manager unit :=
  ensure_loaded now ;;
  let* s := the_state in
  match findIndex i (subagents s) with
  | None => throw ("Subagent not found: " +:+ i)
  | Some index =>
      put_subagents (alter (fun old => spread old updates) index (subagents s)) ;;
      persist
  end.

Definition removeSubagent (i : string) (now : Z) : M Manager unit :=
  ensure_loaded now ;;
  let* s := the_state in
  put_subagents (filter (fun x => id x ≠ i) (subagents s)) ;;
  persist.

End StateStore.

(** * Vocabulary of the statements *)

Import TaskQueue.

Module SD := SubagentDeployer.

Module MCA := MasterControlAgent.

(** ** Proof automation *)

Ltac run_m :=
  unfold exec, result_of, bind, ret, throw, get_state, modify, try_catch, try_finally, zoom;
  simpl.

Ltac by_computation := apply (bool_decide_unpack _); vm_compute; exact I.

(** ** The queue *)

(** The columns of a row mirror the task stored in its payload. *)
Definition wf_row (r : Row) : Prop :=
  row_id r = id (row_payload r)
  /\ row_priority r = priority (row_payload r)
  /\ row_status r = status (row_payload r)
  /\ row_created_at r = createdAt (row_payload r).

Definition known_ids (st : Storage) : list string :=
  map row_id (cf_agents_queues st).

(** A well-formed table: consistent rows, and [id] is a key. *)
Definition wf_storage (st : Storage) : Prop :=
  Forall wf_row (cf_agents_queues st) /\ NoDup (known_ids st).


Definition pending_tasks (st : Storage) : list Task :=
  map row_payload (filter (fun r => is_pending r = true) (cf_agents_queues st)).

(** The task a lookup by id delivers. *)
Definition task_of (i : string) (st : Storage) : option Task :=
  row_payload <$> head (sql_select_by_id i st).

Definition dead_letter (i : string) (st : Storage) : option DLQEntry :=
  kv st !! ("dlq:" +:+ i).

(** The table holds a task under the id [depId], and the status of that
    task is [completed]. *)
Definition stored_completed (st : Storage) (depId : string) : Prop :=
  exists r, r ∈ cf_agents_queues st /\ row_id r = depId
            /\ status (row_payload r) = completed.


(** The row that [enqueue] inserts for a task. *)
Definition row_of (t : Task) : Row :=
  mkRow (id t) (type t) (priority t) t (status t) (createdAt t).

(** The calls the agent makes on its queue: [enqueue] (handleCommand),
    [updateStatus(id, "in_progress")], [complete] and [fail]
    (executeCommand), and [cleanup] (the daily maintenance job). *)
Inductive QueueOp : Type :=
| Enqueue (taskData : TaskData) (nano : string) (now : Z)
| Start (i : string) (now : Z)
| Complete (i : string) (res : string) (now : Z)
| Fail (i : string) (err : string) (now : Z)
| Cleanup (daysToKeep : Z) (now : Z).

Definition apply_op (op : QueueOp) (st : Storage) : Storage :=
  match op with
  | Enqueue taskData nano now => exec (enqueue taskData nano now) st
  | Start i now => exec (updateStatus i in_progress None now) st
  | Complete i res now => exec (complete i res now) st
  | Fail i err now => exec (fail i err now) st
  | Cleanup daysToKeep now => exec (cleanup daysToKeep now) st
  end.

Definition apply_ops (ops : list QueueOp) (st : Storage) : Storage :=
  foldl (fun s op => apply_op op s) st ops.

(** How one call changes the row of the task it addresses: [r] before,
    [r'] after.  The id and [maxRetries] never change; [retryCount] grows
    by one exactly when a failure re-queues the task. *)
Definition row_step (op : QueueOp) (r r' : Row) : Prop :=
  row_id r' = row_id r
  /\ maxRetries (row_payload r') = maxRetries (row_payload r)
  /\ match op with
     | Start i _ =>
         row_id r = i /\ row_status r' = in_progress
         /\ retryCount (row_payload r') = retryCount (row_payload r)
     | Complete i _ _ =>
         row_id r = i /\ row_status r' = completed
         /\ retryCount (row_payload r') = retryCount (row_payload r)
     | Fail i _ _ =>
         row_id r = i
         /\ ((retryCount (row_payload r) < maxRetries (row_payload r)
              /\ row_status r' = pending
              /\ retryCount (row_payload r') = retryCount (row_payload r) + 1)
             \/ (~ retryCount (row_payload r) < maxRetries (row_payload r)
                 /\ row_status r' = failed
                 /\ retryCount (row_payload r') = retryCount (row_payload r)))
     | Enqueue _ _ _ | Cleanup _ _ => False
     end.

(** The calls of [ops] that address task [i] are failures only. *)
Definition only_fails (i : string) (ops : list QueueOp) : Prop :=
  Forall (fun op => match op with
                    | Start j _ | Complete j _ _ => j <> i
                    | _ => True
                    end) ops.

(** [nanoid()] does not hand out the id [i] again. *)
Definition never_reissues (i : string) (ops : list QueueOp) : Prop :=
  Forall (fun op => match op with Enqueue _ nano _ => nano <> i | _ => True end) ops.

(** The retry budget of task [i] is used up and [i] is not pending. *)
Definition exhausted (i : string) (st : Storage) : Prop :=
  forall r, r ∈ cf_agents_queues st -> row_id r = i ->
            row_status r <> pending
            /\ ~ retryCount (row_payload r) < maxRetries (row_payload r).

(** Task [i], if still stored, is failed with its budget used up. *)
Definition dead (i : string) (st : Storage) : Prop :=
  forall r, r ∈ cf_agents_queues st -> row_id r = i ->
            row_status r = failed
            /\ ~ retryCount (row_payload r) < maxRetries (row_payload r).

(** ** The pool *)

(** Every entry is filed under its own id, and keys are unique. *)
Definition wf_pool (m : SD.SubagentMap) : Prop :=
  Forall (fun e => SD.id (snd e) = fst e) m /\ NoDup (map fst m).

Definition none_idle (m : SD.SubagentMap) : Prop :=
  Forall (fun e => SD.status (snd e) <> SD.idle) m.

(** No entry filed under [i] is idle. *)
Definition held (i : string) (m : SD.SubagentMap) : Prop :=
  forall e, e ∈ m -> fst e = i -> SD.status (snd e) <> SD.idle.

(** The subagent that [allocate] hands out when it claims [s] for a task. *)
Definition claimed (taskId : string) (s : SD.SubagentInfo) : SD.SubagentInfo :=
  SD.set_currentTask (Some taskId) (SD.set_status SD.active s).

(** The subagent that [allocate] creates. *)
Definition fresh_worker (uuid : string) (now : Z) : SD.SubagentInfo :=
  SD.mkSubagentInfo uuid SD.worker ("worker-" +:+ pretty now) SD.active None now now.

Inductive DeployerOp : Type :=
| DCreate (config : SD.SubagentConfig) (uuid : string) (now : Z)
| DAllocate (t : Task) (uuid : string) (now : Z)
| DRelease (subagentId : string)
| DRemove (subagentId : string)
| DHealthCheck (now : Z)
| DHeartbeat (subagentId : string) (now : Z).

Definition apply_dop (op : DeployerOp) (d : SD.Deployer) : SD.Deployer :=
  match op with
  | DCreate config uuid now => exec (SD.create config uuid now) d
  | DAllocate t uuid now => exec (SD.allocate t uuid now) d
  | DRelease i => exec (SD.release i) d
  | DRemove i => exec (SD.remove i) d
  | DHealthCheck now => exec (SD.healthCheck now) d
  | DHeartbeat i now => exec (SD.heartbeat i now) d
  end.

Definition apply_dops (ops : list DeployerOp) (d : SD.Deployer) : SD.Deployer :=
  foldl (fun s op => apply_dop op s) d ops.

(** Subagent [i] is not released in [ops], and [randomUUID] does not hand
    out [i] again. *)
Definition still_held (i : string) (ops : list DeployerOp) : Prop :=
  Forall (fun op => match op with
                    | DRelease j => j <> i
                    | DCreate _ uuid _ | DAllocate _ uuid _ => uuid <> i
                    | _ => True
                    end) ops.

(** Consecutive [allocate] calls, one per (task, uuid, now). *)
Fixpoint allocate_each (calls : list (Task * string * Z)) (d : SD.Deployer)
  : list (outcome SD.SubagentInfo) * SD.Deployer :=
  match calls with
  | [] => ([], d)
  | (t, uuid, now) :: rest =>
      let (r, d') := SD.allocate t uuid now d in
      let (rs, d'') := allocate_each rest d' in
      (r :: rs, d'')
  end.

Definition call_uuid (c : Task * string * Z) : string := snd (fst c).

Definition call_worker (c : Task * string * Z) : SD.SubagentInfo :=
  fresh_worker (snd (fst c)) (snd c).

(** ** The scheduler *)

(** The body of the [for] loop of [processAutonomousTasks]. *)
Definition tick_body (w : MCA.World) (now : Z) (t : Task) : M MCA.Agent unit :=
  let* canProcess := MCA.canProcessTask t in
  if negb canProcess
  then ret tt
  else
    let* resources := MCA.allocateResources w t now in
    MCA.executeTask t resources.

Definition at_capacity (a : MCA.Agent) : bool :=
  MCA.maxConcurrentTasks (MCA.config a)
  <=? StateManager.tasksActive (StateManager.metrics (MCA.stateManager a)).


(** ** Concrete inputs *)

(** A specification with priority 11 and [maxRetries] -1. *)
Definition spec_out_of_range : TaskData :=
  mkTaskData "command" "restart everything" 11 "{}" None None None None (Some (-1)) None.

(** A queue holding one command with [maxRetries = 2]. *)
Definition retry_queue : Storage :=
  exec (enqueue (mkTaskData "command" "sync" 5 "sync" None None None None (Some 2) None) "r1" 1)
       empty_storage.

Definition retry_task : Task :=
  new_task (mkTaskData "command" "sync" 5 "sync" None None None None (Some 2) None) "r1" 1.

Definition urgent_spec : TaskData :=
  mkTaskData "command" "restore service" 9 "{}" None None None None None None.

Definition routine_spec : TaskData :=
  mkTaskData "command" "rotate logs" 3 "{}" None None None None None None.

Definition zero_retries_spec : TaskData :=
  mkTaskData "command" "one shot" 5 "{}" None None None None (Some 0) None.

(** A pool with one subagent that was created, released, and then left
    alone: idle, last heartbeat at time 0. *)
Definition idle_pool : SD.Deployer :=
  exec (SD.release "a1")
       (exec (SD.create (SD.mkSubagentConfig SD.worker "w") "a1" 0) (SD.new_deployer 50)).

Definition idle_worker : SD.SubagentInfo :=
  SD.mkSubagentInfo "a1" SD.worker "w" SD.idle None 0 0.

(** Fifty [allocate] calls with the uuids "uuid-0" ... "uuid-49". *)
Definition fifty_calls : list (Task * string * Z) :=
  map (fun n : nat => (retry_task, "uuid-" +:+ pretty n, Z.of_nat n)) (seq 0 50).

(** A world in which every collaborator answers. *)
Definition calm_world : MCA.World :=
  MCA.mkWorld (fun _ => Returns (MCA.mkDecision MCA.general "reply" false))
              (fun _ _ => Returns "done")
              (fun _ => Returns tt)
              (fun _ => Returns tt)
              (fun t => "sub-" +:+ id t).

(** The same world with the decision engine unreachable. *)
Definition oracle_down : MCA.World :=
  MCA.mkWorld (fun _ => Throws "OracleUnavailable")
              (fun _ _ => Returns "done")
              (fun _ => Returns tt)
              (fun _ => Returns tt)
              (fun t => "sub-" +:+ id t).

Definition new_agent (maxTasks : Z) : MCA.Agent :=
  MCA.mkAgent (MCA.mkConfig true maxTasks 50) empty_storage
              (StateManager.createDefaultState 0) (SD.new_deployer 50) [].

Definition command_task (command nano : string) (now : Z) : Task :=
  new_task (mkTaskData "command" command 5 command None None None None None None) nano now.

Definition waiting_agent : MCA.Agent :=
  exec (MCA.on_queue (enqueue (mkTaskData "command" "deploy worker" 5 "deploy worker"
                                          None None None None None None) "t1" 10))
       (new_agent 10).



(** Task "a" is pending, and task "b" lists "a" as a dependency. *)
Definition blocked_agent : MCA.Agent :=
  exec (MCA.on_queue (enqueue (mkTaskData "command" "second" 5 "second"
                                          None None None None None (Some ["a"])) "b" 20))
       (exec (MCA.on_queue (enqueue (mkTaskData "command" "first" 5 "first"
                                                None None None None None None) "a" 10))
             (new_agent 10)).

(** ** The queue, call by call *)

(** The timestamp step of [updateStatus]. *)
Definition stamp (s : TaskStatus) (now : Z) (t : Task) : Task :=
  let t := set_status s t in
  if bool_decide (s = in_progress) && js_not (startedAt t)
  then set_startedAt now t
  else if (bool_decide (s = completed) || bool_decide (s = failed)) && js_not (completedAt t)
  then set_completedAt now t
  else t.

(** The task that [fail] writes back when it re-queues [t]. *)
Definition requeued (err : string) (t : Task) : Task :=
  set_error err (set_status pending (set_retryCount (retryCount t + 1) t)).

(** The task a call writes back in place of the task [t] it addresses. *)
Definition next_task (op : QueueOp) (t : Task) : Task :=
  match op with
  | Start _ now => stamp in_progress now t
  | Complete _ res now => assign (stamp completed now t) (patch_result res)
  | Fail _ err now =>
      if retryCount t <? maxRetries t
      then requeued err t
      else assign (stamp failed now t) (patch_error err)
  | Enqueue _ _ _ | Cleanup _ _ => t
  end.

Definition addressed (op : QueueOp) : option string :=
  match op with
  | Start i _ | Complete i _ _ | Fail i _ _ => Some i
  | Enqueue _ _ _ | Cleanup _ _ => None
  end.

(** The test of [cleanup]'s [DELETE], on the task's own fields. *)
Definition expired (cutoff : Z) (t : Task) : bool :=
  (bool_decide (status t = completed) || bool_decide (status t = failed))
  && (createdAt t <? cutoff).

Definition cleanup_cutoff (daysToKeep now : Z) : Z :=
  now - daysToKeep * 24 * 60 * 60 * 1000.

(** No call of [ops] is a failure of task [i]. *)
Definition never_fails (i : string) (ops : list QueueOp) : Prop :=
  Forall (fun op => match op with Fail j _ _ => j <> i | _ => True end) ops.

(** ** The pool, across a restart *)

(** A new deployer instance over the storage that [d] left behind. *)
Definition restarted (d : SD.Deployer) : SD.Deployer :=
  SD.mkDeployer (SD.maxSubagents d) [] (SD.stored d).

(** What [persist] last wrote is what the map holds. *)
Definition synced (d : SD.Deployer) : Prop :=
  (SD.stored d = None /\ SD.activeSubagents d = [])
  \/ SD.stored d = Some (SD.map_values (SD.activeSubagents d)).

(** ** The scheduler's resource test *)

(** [needsSubagent] of [allocateResources]. *)
Definition needs_subagent (t : Task) : bool :=
  bool_decide (type t = "complex") || (7 <? priority t).

(** ** Requests of one connection *)

Module RS := RequestSecurity.

Definition rate_key (connectionId : string) : string := "rate-limit:" +:+ connectionId.

(** The answers of [checkRateLimit] to [n] calls, one after the other. *)
Fixpoint rate_answers (c : string) (n : nat) (store : RS.Store) : list bool :=
  match n with
  | O => []
  | S m =>
      match RS.checkRateLimit c store with
      | (Returns b, store') => b :: rate_answers c m store'
      | (Throws _, _) => []
      end
  end.

(** The value [checkRateLimit] reads as [count]. *)
Definition stored_count (c : string) (store : RS.Store) : Z :=
  js_or (RS.storage_get (rate_key c) store) 0.

(** The store holds the count [k] for the connection: no entry for none,
    the number itself otherwise. *)
Definition counts (c : string) (k : nat) (store : RS.Store) : Prop :=
  (k = 0%nat /\ store !! rate_key c = None)
  \/ (store !! rate_key c = Some (Z.of_nat k) /\ (1 <= k)%nat).

(** ** Calls of the audit logger *)

Module AL := AuditLogger.

(** The arguments of one call of [log], with the identifier and the time
    that the call draws. *)
Record LogCall : Type := mkLogCall {
  lc_level : AL.LogLevel;
  lc_message : string;
  lc_data : option string;
  lc_uuid : string;
  lc_now : Z
}.

Definition entry_of (c : LogCall) : AL.LogEntry :=
  AL.mkLogEntry (lc_uuid c) (lc_level c) (lc_message c) (lc_data c) (lc_now c)
                "master-control-agent" None.

Definition log_all (calls : list LogCall) : M AL.Logger unit :=
  for_of calls (fun c => AL.log (lc_level c) (lc_message c) (lc_data c) (lc_uuid c) (lc_now c)).

(** A batch is full, or it was cut short by a critical entry, its last. *)
Definition batch_ok (b : list AL.LogEntry) : Prop :=
  length b = 100%nat
  \/ ((length b < 100)%nat
      /\ exists pre e, b = pre ++ [e] /\ AL.level e = AL.critical).

Definition buffer_ok (l : AL.Logger) : Prop :=
  (length (AL.logBuffer l) < 100)%nat
  /\ Forall (fun e => AL.level e <> AL.critical) (AL.logBuffer l)
  /\ Forall batch_ok (AL.flushed l).

(** ** Calls of the state manager *)

Module SS := StateStore.

Inductive StoreOp : Type :=
| SAdd (s : SD.SubagentInfo) (now : Z)
| SUpdate (i : string) (updates : SS.SubagentPatch) (now : Z)
| SRemove (i : string) (now : Z).

Definition run_store_op (op : StoreOp) : M SS.Manager unit :=
  match op with
  | SAdd s now => SS.addSubagent s now
  | SUpdate i updates now => SS.updateSubagent i updates now
  | SRemove i now => SS.removeSubagent i now
  end.

(** The manager holds a state, the storage holds the same one, and the
    metric counts the active subagents of the list. *)
Definition mirrored (m : SS.Manager) : Prop :=
  exists s,
    SS.state m = Some s /\ SS.storage m = Some s
    /\ StateManager.subagentsActive (SS.st_metrics s) = SS.count_active (SS.subagents s).

(** A manager created anew over the storage that [m] leaves behind. *)
Definition reopened (m : SS.Manager) : SS.Manager := SS.mkManager None (SS.storage m).

Definition no_patch : SS.SubagentPatch :=
  SS.mkSubagentPatch None None None None None None None.

Definition unloaded : SS.Manager := SS.mkManager None None.

Ltac run_store :=
  unfold SS.addSubagent, SS.updateSubagent, SS.removeSubagent, SS.ensure_loaded, SS.load,
    SS.getState, SS.put_subagents, SS.the_state, SS.set_the_state, SS.persist;
  unfold exec, result_of, bind, ret, throw, get_state, modify; simpl.

(** ** Further concrete inputs *)

(** [retry_queue] after its task has been started at time 5. *)
Definition started_queue : Storage :=
  apply_op (Start "r1" 5) retry_queue.

(** [retry_queue] after two failures: the task has used both retries. *)
Definition spent_queue : Storage :=
  apply_ops [Fail "r1" "first" 2; Fail "r1" "second" 3] retry_queue.

(** [spent_queue] after a third failure: the task is dead-lettered. *)
Definition dead_queue : Storage :=
  apply_op (Fail "r1" "third" 4) spent_queue.

(** Task "d1" is completed and task "d2" is pending. *)
Definition deps_queue : Storage :=
  apply_ops [Enqueue routine_spec "d1" 1; Enqueue routine_spec "d2" 2;
             Start "d1" 3; Complete "d1" "ok" 4] empty_storage.

(** A task that lists the given dependencies. *)
Definition waiting_on (deps : list string) : Task :=
  new_task (mkTaskData "command" "after" 5 "{}" None None None None None (Some deps)) "d3" 5.

(** Three tasks, created at times 1, 2 and 3. *)
Definition recent_queue : Storage :=
  apply_ops [Enqueue routine_spec "o1" 1; Enqueue urgent_spec "o2" 2;
             Enqueue routine_spec "o3" 3] empty_storage.

(** Three pending tasks, the second of type "complex", on an agent whose
    pool admits no subagent. *)
Definition crowded_agent : MCA.Agent :=
  MCA.mkAgent (MCA.mkConfig true 10 0)
              (apply_ops [Enqueue (mkTaskData "command" "a" 5 "a" None None None None None None) "k1" 1;
                          Enqueue (mkTaskData "complex" "b" 3 "b" None None None None None None) "k2" 2;
                          Enqueue (mkTaskData "command" "c" 1 "c" None None None None None None) "k3" 3]
                         empty_storage)
              (StateManager.createDefaultState 0) (SD.new_deployer 0) [].

(** A world in which neither the decision engine nor the client answers. *)
Definition silent_world : MCA.World :=
  MCA.mkWorld (fun _ => Throws "OracleUnavailable")
              (fun _ _ => Returns "done")
              (fun _ => Throws "ConnectionClosed")
              (fun _ => Returns tt)
              (fun t => "sub-" +:+ id t).

(** A loaded manager whose list holds the same subagent twice. *)
Definition twin_manager : SS.Manager :=
  SS.mkManager (Some (SS.mkState [idle_worker; idle_worker]
                                 (StateManager.mkMetrics 0 0 0 0 0)))
               None.

Definition activate : SS.SubagentPatch :=
  SS.mkSubagentPatch None None None (Some SD.active) None None None.

(** * Properties *)

(** ** Lists with a key *)

Lemma unique_by_key {A B : Type} (f : A -> B) (l : list A) (x y : A) :
  NoDup (map f l) -> x ∈ l -> y ∈ l -> f x = f y -> x = y.
Proof.
  induction l as [|a l IH]; intros Hnd Hx Hy Heq.
  - inversion Hx.
  - simpl in Hnd. apply NoDup_cons in Hnd as [Hnotin Hnd].
    apply elem_of_cons in Hx as [->|Hx]; apply elem_of_cons in Hy as [->|Hy].
    + reflexivity.
    + exfalso. apply Hnotin. rewrite Heq. apply list_elem_of_In, in_map, list_elem_of_In, Hy.
    + exfalso. apply Hnotin. rewrite <- Heq. apply list_elem_of_In, in_map, list_elem_of_In, Hx.
    + apply IH; assumption.
Qed.

Lemma NoDup_map_filter {A B : Type} (f : A -> B) (P : A -> Prop) `{forall x, Decision (P x)}
      (l : list A) :
  NoDup (map f l) -> NoDup (map f (filter P l)).
Proof.
  induction l as [|x l IH]; intros Hnd; [constructor|].
  simpl in Hnd. apply NoDup_cons in Hnd as [Hnotin Hnd].
  rewrite filter_cons. destruct (decide (P x)); [|apply IH, Hnd].
  simpl. apply NoDup_cons. split; [|apply IH, Hnd].
  intros Hin. apply Hnotin.
  apply list_elem_of_In, in_map_iff in Hin as (y & Hy & Hin).
  apply list_elem_of_In, list_elem_of_filter in Hin as [_ Hin].
  rewrite <- Hy. apply list_elem_of_In, in_map, list_elem_of_In, Hin.
Qed.

(** ** The queue: lookups and updates *)

Lemma getTask_eq (i : string) (st : Storage) :
  getTask i st = (Returns (task_of i st), st).
Proof.
  unfold getTask, task_of. run_m.
  destruct (sql_select_by_id i st); reflexivity.
Qed.

Lemma getPending_eq (limit : nat) (st : Storage) :
  getPending limit st = (Returns (map row_payload (sql_select_pending limit st)), st).
Proof. reflexivity. Qed.

Lemma has_id_true (i : string) (r : Row) : has_id i r = true <-> row_id r = i.
Proof. unfold has_id. apply bool_decide_eq_true. Qed.

Lemma select_by_id_map (f : Row -> Row) (j : string) (q : list Row) (m : gmap string DLQEntry) :
  (forall r, row_id (f r) = row_id r) ->
  sql_select_by_id j (mkStorage (map f q) m) = map f (sql_select_by_id j (mkStorage q m)).
Proof.
  intros Hid. unfold sql_select_by_id. simpl.
  induction q as [|r q IH]; [reflexivity|].
  simpl. rewrite !filter_cons.
  assert (Heq : has_id j (f r) = has_id j r) by (unfold has_id; rewrite Hid; reflexivity).
  rewrite Heq.
  destruct (decide (has_id j r = true)); simpl; rewrite IH; reflexivity.
Qed.

Lemma task_of_update (i j : string) (t : Task) (s : TaskStatus) (st : Storage) :
  task_of j (exec (sql_update i t s) st)
  = if bool_decide (j = i) then (fun _ => t) <$> task_of j st else task_of j st.
Proof.
  unfold task_of, sql_update. run_m. unfold set_table.
  rewrite select_by_id_map by (intros r; destruct (has_id i r); reflexivity).
  destruct st as [q m]. simpl.
  unfold sql_select_by_id. simpl.
  destruct (filter (fun r => has_id j r = true) q) as [|r rest] eqn:Hf; simpl.
  - destruct (bool_decide (j = i)); reflexivity.
  - assert (Hr : has_id j r = true).
    { assert (Hin : r ∈ filter (fun r => has_id j r = true) q) by (rewrite Hf; left).
      apply list_elem_of_filter in Hin. tauto. }
    apply has_id_true in Hr.
    destruct (bool_decide (j = i)) eqn:Hji.
    + apply bool_decide_eq_true in Hji. subst i.
      assert (Hh : has_id j r = true) by (apply has_id_true; exact Hr).
      rewrite Hh. reflexivity.
    + apply bool_decide_eq_false in Hji.
      assert (Hh : has_id i r = false).
      { unfold has_id. apply bool_decide_eq_false. congruence. }
      rewrite Hh. reflexivity.
Qed.

Lemma kv_update (i : string) (t : Task) (s : TaskStatus) (st : Storage) :
  kv (exec (sql_update i t s) st) = kv st.
Proof. reflexivity. Qed.

(** The task that [updateStatus] writes back. *)
Lemma updateStatus_found (i : string) (s : TaskStatus) (data : option TaskPatch) (now : Z)
      (st : Storage) (t : Task) :
  task_of i st = Some t ->
  exists t',
    updateStatus i s data now st = (Returns tt, exec (sql_update i t' s) st)
    /\ (forall e, data = Some (patch_error e) ->
          status t' = s /\ error t' = Some e /\ id t' = id t /\ priority t' = priority t
          /\ createdAt t' = createdAt t /\ retryCount t' = retryCount t
          /\ maxRetries t' = maxRetries t)
    /\ (forall r, data = Some (patch_result r) ->
          status t' = s /\ result t' = Some r /\ id t' = id t /\ priority t' = priority t
          /\ createdAt t' = createdAt t /\ retryCount t' = retryCount t
          /\ maxRetries t' = maxRetries t)
    /\ (data = None ->
          status t' = s /\ id t' = id t /\ priority t' = priority t
          /\ createdAt t' = createdAt t /\ retryCount t' = retryCount t
          /\ maxRetries t' = maxRetries t).
Proof.
  intros Hget. unfold updateStatus, bind at 1. rewrite getTask_eq, Hget.
  eexists. split; [reflexivity|].
  repeat split; intros; subst data;
    repeat match goal with
           | |- context [if ?b then _ else _] => destruct b
           end; reflexivity.
Qed.

Lemma updateStatus_missing (i : string) (s : TaskStatus) (data : option TaskPatch) (now : Z)
      (st : Storage) :
  task_of i st = None ->
  updateStatus i s data now st = (Throws ("Task not found: " +:+ i), st).
Proof.
  intros Hget. unfold updateStatus, bind at 1. rewrite getTask_eq, Hget. reflexivity.
Qed.

(** ** Dependencies *)

Lemma lookup_completed (st : Storage) (depId : string) :
  wf_storage st ->
  (exists d, task_of depId st = Some d /\ status d = completed) <-> stored_completed st depId.
Proof.
  intros Hwf. split.
  - intros (d & Hget & Hs).
    unfold task_of, sql_select_by_id in Hget.
    destruct (filter (fun r => has_id depId r = true) (cf_agents_queues st)) as [|r rest] eqn:Hf;
      [discriminate|].
    simpl in Hget. injection Hget as <-.
    assert (Hin : r ∈ filter (fun r => has_id depId r = true) (cf_agents_queues st))
      by (rewrite Hf; left).
    apply list_elem_of_filter in Hin as [Hid Hin]. apply has_id_true in Hid.
    exists r. repeat split; assumption.
  - intros (r & Hin & Hid & Hs). exists (row_payload r). split; [|exact Hs].
    destruct Hwf as [_ Hnd].
    unfold task_of, sql_select_by_id.
    destruct (filter (fun r0 => has_id depId r0 = true) (cf_agents_queues st))
      as [|r0 rest] eqn:Hf.
    + exfalso.
      assert (Hr : r ∈ filter (fun r0 => has_id depId r0 = true) (cf_agents_queues st))
        by (apply list_elem_of_filter; split; [apply has_id_true, Hid | exact Hin]).
      rewrite Hf in Hr. inversion Hr.
    + simpl. f_equal. f_equal.
      assert (Hr0 : r0 ∈ filter (fun r0 => has_id depId r0 = true) (cf_agents_queues st))
        by (rewrite Hf; left).
      apply list_elem_of_filter in Hr0 as [Hid0 Hin0]. apply has_id_true in Hid0.
      apply (unique_by_key row_id (cf_agents_queues st) r0 r Hnd Hin0 Hin). congruence.
Qed.

Lemma deps_loop_spec (deps : list string) (st : Storage) :
  wf_storage st ->
  exists b, deps_loop deps st = (Returns b, st)
            /\ (b = true <-> Forall (stored_completed st) deps).
Proof.
  intros Hwf. induction deps as [|depId rest IH].
  - exists true. split; [reflexivity|]. split; [constructor | reflexivity].
  - simpl. unfold bind at 1. rewrite getTask_eq.
    destruct (task_of depId st) as [d|] eqn:Hd.
    + destruct (bool_decide (status d = completed)) eqn:Hs.
      * apply bool_decide_eq_true in Hs.
        destruct IH as (b & Hrun & Hb). exists b. split; [exact Hrun|].
        rewrite Hb. split.
        -- intros Hall. constructor; [|exact Hall].
           apply (lookup_completed st depId Hwf). exists d. split; assumption.
        -- intros Hall. inversion Hall; assumption.
      * apply bool_decide_eq_false in Hs.
        exists false. split; [reflexivity|]. split; [discriminate|].
        intros Hall. inversion Hall as [|? ? Hdep _]; subst.
        apply (lookup_completed st depId Hwf) in Hdep as (d' & Hget & Hc). congruence.
    + exists false. split; [reflexivity|]. split; [discriminate|].
      intros Hall. inversion Hall as [|? ? Hdep _]; subst.
      apply (lookup_completed st depId Hwf) in Hdep as (d' & Hget & Hc). congruence.
Qed.

(** C9. On a well-formed queue, [areDependenciesSatisfied(task)] returns
    without changing the store, and its answer is [true] if and only if
    for every id in the task's dependency list the table holds a task
    under that id whose status is [completed].  A dependency id that no
    row of the table carries makes the answer [false], and a task whose
    dependency list is absent or empty yields [true]. *)
Theorem C9_areDependenciesSatisfied (t : Task) (st : Storage) (Hwf : wf_storage st) :
  exists b,
    areDependenciesSatisfied t st = (Returns b, st)
    /\ (b = true <-> Forall (stored_completed st) (default [] (dependencies t)))
    /\ (forall depId, depId ∈ default [] (dependencies t) ->
                      depId ∉ known_ids st -> b = false)
    /\ (dependencies t = None \/ dependencies t = Some [] -> b = true).
Proof.
  assert (Hmain : exists b, areDependenciesSatisfied t st = (Returns b, st)
            /\ (b = true <-> Forall (stored_completed st) (default [] (dependencies t)))).
  { unfold areDependenciesSatisfied.
    destruct (dependencies t) as [[|depId rest]|]; simpl.
    - exists true. split; [reflexivity|]. split; [constructor | reflexivity].
    - apply (deps_loop_spec (depId :: rest) st Hwf).
    - exists true. split; [reflexivity|]. split; [constructor | reflexivity]. }
  destruct Hmain as (b & Hrun & Hiff). exists b.
  split; [exact Hrun|]. split; [exact Hiff|]. split.
  - intros depId Hin Hunknown.
    destruct b; [|reflexivity].
    assert (Hall : Forall (stored_completed st) (default [] (dependencies t)))
      by (apply Hiff; reflexivity).
    rewrite Forall_forall in Hall.
    destruct (Hall depId Hin) as (r & Hr & Hid & _).
    exfalso. apply Hunknown. unfold known_ids. rewrite <- Hid.
    apply list_elem_of_In, in_map, list_elem_of_In, Hr.
  - intros Hempty. apply Hiff.
    destruct Hempty as [He|He]; rewrite He; constructor.
Qed.

(** ** Ordering of [getPending] *)



Lemma insert_row_perm (r : Row) (l : list Row) : insert_row r l ≡ₚ r :: l.
Proof.
  induction l as [|x rest IH]; simpl; [reflexivity|].
  destruct (row_leb r x); [reflexivity|].
  rewrite IH. apply perm_swap.
Qed.

Lemma order_by_perm (l : list Row) : order_by_priority_created l ≡ₚ l.
Proof.
  induction l as [|x rest IH]; simpl; [reflexivity|].
  rewrite insert_row_perm, IH. reflexivity.
Qed.





Lemma enqueue_fresh (taskData : TaskData) (nano : string) (now : Z) (st : Storage) :
  nano ∉ known_ids st ->
  enqueue taskData nano now st
  = (Returns (new_task taskData nano now),
     set_table (cf_agents_queues st ++ [row_of (new_task taskData nano now)]) st).
Proof.
  intros Hfresh. unfold enqueue, sql_insert. run_m.
  destruct (existsb (has_id nano) (cf_agents_queues st)) eqn:Hex; [|reflexivity].
  exfalso. apply Hfresh.
  apply existsb_exists in Hex as (r & Hin & Hr).
  apply has_id_true in Hr. subst nano.
  unfold known_ids. apply list_elem_of_In, in_map, Hin.
Qed.

Lemma enqueue_taken (taskData : TaskData) (nano : string) (now : Z) (st : Storage) :
  nano ∈ known_ids st ->
  enqueue taskData nano now st
  = (Throws "UNIQUE constraint failed: cf_agents_queues.id", st).
Proof.
  intros Htaken. unfold enqueue, sql_insert. run_m.
  destruct (existsb (has_id nano) (cf_agents_queues st)) eqn:Hex; [reflexivity|].
  exfalso.
  unfold known_ids in Htaken. apply list_elem_of_In, in_map_iff in Htaken as (r & Hr & Hin).
  assert (Ht : existsb (has_id nano) (cf_agents_queues st) = true).
  { apply existsb_exists. exists r. split; [exact Hin|]. apply has_id_true, Hr. }
  congruence.
Qed.



(** ** Retry policy and dead letters *)

Lemma result_getTask (i : string) (st : Storage) :
  result_of (getTask i) st = Returns (task_of i st).
Proof. unfold result_of. rewrite getTask_eq. reflexivity. Qed.

Lemma task_of_row (i : string) (st : Storage) (t : Task) :
  task_of i st = Some t ->
  exists r, r ∈ cf_agents_queues st /\ row_id r = i /\ row_payload r = t.
Proof.
  unfold task_of, sql_select_by_id. intros H.
  destruct (filter (fun r => has_id i r = true) (cf_agents_queues st)) as [|r rest] eqn:Hf;
    [discriminate|].
  simpl in H. injection H as <-.
  assert (Hin : r ∈ filter (fun r => has_id i r = true) (cf_agents_queues st))
    by (rewrite Hf; left).
  apply list_elem_of_filter in Hin as [Hid Hin].
  exists r. split; [exact Hin|]. split; [apply has_id_true, Hid | reflexivity].
Qed.

Lemma row_task_of (st : Storage) (r : Row) :
  wf_storage st -> r ∈ cf_agents_queues st -> task_of (row_id r) st = Some (row_payload r).
Proof.
  intros [_ Hnd] Hr.
  destruct (task_of (row_id r) st) as [t|] eqn:Ht.
  - apply task_of_row in Ht as (r0 & Hr0 & Hid & <-).
    rewrite (unique_by_key row_id _ r r0 Hnd Hr Hr0); [reflexivity | congruence].
  - exfalso. unfold task_of, sql_select_by_id in Ht.
    destruct (filter (fun r0 => has_id (row_id r) r0 = true) (cf_agents_queues st)) eqn:Hf;
      [|discriminate].
    assert (Hin : r ∈ filter (fun r0 => has_id (row_id r) r0 = true) (cf_agents_queues st)).
    { apply list_elem_of_filter. split; [apply has_id_true; reflexivity | exact Hr]. }
    rewrite Hf in Hin. inversion Hin.
Qed.

Lemma sql_update_shape (st : Storage) (j : string) (t t' : Task) (s : TaskStatus) :
  wf_storage st -> task_of j st = Some t ->
  id t' = id t -> priority t' = priority t -> createdAt t' = createdAt t -> status t' = s ->
  wf_storage (exec (sql_update j t' s) st)
  /\ forall r', r' ∈ cf_agents_queues (exec (sql_update j t' s) st) ->
       r' ∈ cf_agents_queues st
       \/ exists r, r ∈ cf_agents_queues st /\ row_id r = j /\ row_payload r = t
                    /\ row_id r' = j /\ row_payload r' = t' /\ row_status r' = s.
Proof.
  intros Hwf Hget Hid Hprio Hcreated Hstatus.
  destruct (task_of_row _ _ _ Hget) as (r0 & Hr0 & Hj & Ht0).
  destruct Hwf as [Hrows Hnd].
  rewrite Forall_forall in Hrows.
  assert (Hsame : forall r, r ∈ cf_agents_queues st -> has_id j r = true -> r = r0).
  { intros r Hr Hh. apply has_id_true in Hh.
    apply (unique_by_key row_id _ r r0 Hnd Hr Hr0). congruence. }
  unfold sql_update. run_m. split; [split|].
  - apply Forall_forall. intros r' Hr'.
    change (r' ∈ (fun r => if has_id j r
                           then mkRow (row_id r) (row_type r) (row_priority r) t' s (row_created_at r)
                           else r) <$> cf_agents_queues st) in Hr'.
    apply list_elem_of_fmap in Hr' as (r & -> & Hr).
    destruct (has_id j r) eqn:Hh; [|apply Hrows, Hr].
    rewrite (Hsame r Hr Hh).
    destruct (Hrows r0 Hr0) as (H1 & H2 & H3 & H4).
    unfold wf_row. simpl. rewrite Ht0 in *. repeat split; congruence.
  - unfold known_ids. simpl. rewrite map_map.
    erewrite map_ext; [exact Hnd|].
    intros r. destruct (has_id j r); reflexivity.
  - intros r' Hr'.
    change (r' ∈ (fun r => if has_id j r
                           then mkRow (row_id r) (row_type r) (row_priority r) t' s (row_created_at r)
                           else r) <$> cf_agents_queues st) in Hr'.
    apply list_elem_of_fmap in Hr' as (r & -> & Hr).
    destruct (has_id j r) eqn:Hh; [|left; exact Hr].
    right. exists r0. rewrite (Hsame r Hr Hh). simpl. repeat split; assumption.
Qed.

Lemma fail_missing (i err : string) (now : Z) (st : Storage) :
  task_of i st = None -> fail i err now st = (Returns tt, st).
Proof.
  intros Hget. unfold fail, bind at 1. rewrite getTask_eq, Hget. reflexivity.
Qed.

Lemma fail_retry (i err : string) (now : Z) (st : Storage) (t : Task) :
  task_of i st = Some t -> retryCount t < maxRetries t ->
  fail i err now st
  = (Returns tt,
     exec (sql_update i (set_error err (set_status pending (set_retryCount (retryCount t + 1) t)))
                      pending) st).
Proof.
  intros Hget Hlt. unfold fail, bind at 1. rewrite getTask_eq, Hget.
  apply Z.ltb_lt in Hlt. rewrite Hlt. reflexivity.
Qed.

Lemma fail_terminal (i err : string) (now : Z) (st : Storage) (t : Task) :
  task_of i st = Some t -> ~ retryCount t < maxRetries t ->
  exists t',
    fail i err now st
    = (Returns tt,
       set_kv (<[ "dlq:" +:+ id t := mkDLQEntry (id t) t err now ]> (kv st))
              (exec (sql_update i t' failed) st))
    /\ status t' = failed /\ error t' = Some err /\ id t' = id t
    /\ priority t' = priority t /\ createdAt t' = createdAt t
    /\ retryCount t' = retryCount t /\ maxRetries t' = maxRetries t.
Proof.
  intros Hget Hge.
  destruct (updateStatus_found i failed (Some (patch_error err)) now st t Hget)
    as (t' & Hrun & Herr & _ & _).
  exists t'. split; [|apply (Herr err); reflexivity].
  unfold fail, bind at 1. rewrite getTask_eq, Hget.
  apply Z.ltb_nlt in Hge. rewrite Hge.
  unfold bind. rewrite Hrun. reflexivity.
Qed.

(** Every call keeps the table well formed, and every row of the new table
    is an old row, the new state of the addressed row, or the row of a
    freshly enqueued task. *)
Lemma apply_op_shape (op : QueueOp) (st : Storage) :
  wf_storage st ->
  wf_storage (apply_op op st)
  /\ forall r', r' ∈ cf_agents_queues (apply_op op st) ->
       r' ∈ cf_agents_queues st
       \/ (exists r, r ∈ cf_agents_queues st /\ row_step op r r')
       \/ (exists taskData nano now, op = Enqueue taskData nano now /\ row_id r' = nano).
Proof.
  intros Hwf. destruct op as [td nano now|j now|j res now|j err now|days now]; simpl.
  - destruct (decide (nano ∈ known_ids st)) as [Hin|Hfresh].
    + unfold exec. rewrite enqueue_taken by exact Hin. simpl. split; [exact Hwf | auto].
    + unfold exec. rewrite enqueue_fresh by exact Hfresh. simpl.
      destruct Hwf as [Hrows Hnd]. split; [split|].
      * simpl. apply Forall_app. split; [exact Hrows|].
        constructor; [|constructor]. repeat split.
      * unfold known_ids. simpl. rewrite map_app. simpl.
        apply NoDup_app. split; [exact Hnd|]. split; [|apply NoDup_singleton].
        intros x Hx Hx'. apply list_elem_of_singleton in Hx'. subst x. exact (Hfresh Hx).
      * intros r' Hr'. apply elem_of_app in Hr' as [Hr'|Hr']; [left; exact Hr'|].
        apply list_elem_of_singleton in Hr'. subst r'.
        right. right. exists td, nano, now. split; reflexivity.
  - destruct (task_of j st) as [t|] eqn:Hget.
    + destruct (updateStatus_found j in_progress None now st t Hget)
        as (t' & Hrun & _ & _ & Hnone).
      destruct (Hnone eq_refl) as (Hs & Hid & Hp & Hc & Hr & Hm).
      unfold exec. rewrite Hrun. cbn [snd].
      destruct (sql_update_shape st j t t' in_progress Hwf Hget Hid Hp Hc Hs) as [Hwf' Hrows'].
      split; [exact Hwf'|]. intros r' Hr'.
      destruct (Hrows' r' Hr') as [Hold|(r & Hin & Hj & Ht & Hj' & Ht' & Hs')]; [left; exact Hold|].
      right. left. exists r. split; [exact Hin|].
      unfold row_step. rewrite Ht, Ht'. repeat split; congruence.
    + unfold exec. rewrite updateStatus_missing by exact Hget. simpl. split; [exact Hwf | auto].
  - unfold complete. destruct (task_of j st) as [t|] eqn:Hget.
    + destruct (updateStatus_found j completed (Some (patch_result res)) now st t Hget)
        as (t' & Hrun & _ & Hres & _).
      destruct (Hres res eq_refl) as (Hs & _ & Hid & Hp & Hc & Hr & Hm).
      unfold exec. rewrite Hrun. cbn [snd].
      destruct (sql_update_shape st j t t' completed Hwf Hget Hid Hp Hc Hs) as [Hwf' Hrows'].
      split; [exact Hwf'|]. intros r' Hr'.
      destruct (Hrows' r' Hr') as [Hold|(r & Hin & Hj & Ht & Hj' & Ht' & Hs')]; [left; exact Hold|].
      right. left. exists r. split; [exact Hin|].
      unfold row_step. rewrite Ht, Ht'. repeat split; congruence.
    + unfold exec. rewrite updateStatus_missing by exact Hget. simpl. split; [exact Hwf | auto].
  - destruct (task_of j st) as [t|] eqn:Hget.
    + destruct (decide (retryCount t < maxRetries t)) as [Hlt|Hge].
      * unfold exec. rewrite (fail_retry j err now st t Hget Hlt). cbn [snd].
        destruct (sql_update_shape st j t
                    (set_error err (set_status pending (set_retryCount (retryCount t + 1) t)))
                    pending Hwf Hget eq_refl eq_refl eq_refl eq_refl) as [Hwf' Hrows'].
        split; [exact Hwf'|]. intros r' Hr'.
        destruct (Hrows' r' Hr') as [Hold|(r & Hin & Hj & Ht & Hj' & Ht' & Hs')];
          [left; exact Hold|].
        right. left. exists r. split; [exact Hin|].
        unfold row_step. rewrite Ht, Ht'. simpl.
        split; [congruence|]. split; [reflexivity|]. split; [exact Hj|].
        left. repeat split; assumption.
      * destruct (fail_terminal j err now st t Hget Hge)
          as (t' & Hrun & Hs & _ & Hid & Hp & Hc & Hr & Hm).
        unfold exec. rewrite Hrun. cbn [snd].
        destruct (sql_update_shape st j t t' failed Hwf Hget Hid Hp Hc Hs) as [Hwf' Hrows'].
        split; [exact Hwf'|]. intros r' Hr'.
        destruct (Hrows' r' Hr') as [Hold|(r & Hin & Hj & Ht & Hj' & Ht' & Hs')];
          [left; exact Hold|].
        right. left. exists r. split; [exact Hin|].
        unfold row_step. rewrite Ht, Ht'.
        split; [congruence|]. split; [exact Hm|]. split; [exact Hj|].
        right. repeat split; assumption.
    + unfold exec. rewrite fail_missing by exact Hget. simpl. split; [exact Hwf | auto].
  - unfold cleanup. run_m. destruct Hwf as [Hrows Hnd]. split; [split|].
    + simpl. apply List.Forall_forall. intros r Hr.
      apply list_elem_of_In, list_elem_of_filter in Hr as [_ Hr].
      rewrite Forall_forall in Hrows. apply Hrows, Hr.
    + unfold known_ids. simpl. apply NoDup_map_filter, Hnd.
    + intros r' Hr'. left. apply list_elem_of_filter in Hr' as [_ Hr']. exact Hr'.
Qed.

Lemma exhausted_step (i : string) (op : QueueOp) (st : Storage) :
  wf_storage st -> exhausted i st ->
  match op with Enqueue _ nano _ => nano <> i | _ => True end ->
  exhausted i (apply_op op st).
Proof.
  intros Hwf Hex Hop r' Hr' Hid.
  destruct (apply_op_shape op st Hwf) as [_ Hshape].
  destruct (Hshape r' Hr') as [Hold|[(r & Hr & Hstep)|(td & nano & now & -> & Hnano)]].
  - apply Hex; assumption.
  - destruct Hstep as (Hsame & Hmax & Hcase).
    destruct (Hex r Hr) as [Hnp Hge]; [congruence|].
    rewrite Hmax.
    destruct op as [| | |j err now|]; try contradiction.
    + destruct Hcase as (_ & Hs & Hrc). rewrite Hs, Hrc. split; [discriminate | exact Hge].
    + destruct Hcase as (_ & Hs & Hrc). rewrite Hs, Hrc. split; [discriminate | exact Hge].
    + destruct Hcase as (_ & [(Hlt & _)|(_ & Hs & Hrc)]); [contradiction|].
      rewrite Hs, Hrc. split; [discriminate | exact Hge].
  - congruence.
Qed.

Lemma dead_step (i : string) (op : QueueOp) (st : Storage) :
  wf_storage st -> dead i st ->
  match op with Enqueue _ nano _ => nano <> i | _ => True end ->
  match op with Start j _ | Complete j _ _ => j <> i | _ => True end ->
  dead i (apply_op op st).
Proof.
  intros Hwf Hdead Hop Hop' r' Hr' Hid.
  destruct (apply_op_shape op st Hwf) as [_ Hshape].
  destruct (Hshape r' Hr') as [Hold|[(r & Hr & Hstep)|(td & nano & now & -> & Hnano)]].
  - apply Hdead; assumption.
  - destruct Hstep as (Hsame & Hmax & Hcase).
    destruct (Hdead r Hr) as [Hf Hge]; [congruence|].
    rewrite Hmax.
    destruct op as [| | |j err now|]; try contradiction.
    + destruct Hcase as (Hj & _). congruence.
    + destruct Hcase as (Hj & _). congruence.
    + destruct Hcase as (_ & [(Hlt & _)|(_ & Hs & Hrc)]); [contradiction|].
      rewrite Hs, Hrc. split; [reflexivity | exact Hge].
  - congruence.
Qed.

Lemma apply_ops_wf (ops : list QueueOp) (st : Storage) :
  wf_storage st -> wf_storage (apply_ops ops st).
Proof.
  revert st. induction ops as [|op ops IH]; intros st Hwf; [exact Hwf|].
  apply IH, apply_op_shape, Hwf.
Qed.

(** Every queue the agent's calls can build from the empty table is well
    formed. *)
Lemma reachable_wf (ops : list QueueOp) : wf_storage (apply_ops ops empty_storage).
Proof.
  apply apply_ops_wf. split; [constructor | apply NoDup_nil_2].
Qed.

Lemma exhausted_steps (i : string) (ops : list QueueOp) (st : Storage) :
  wf_storage st -> exhausted i st -> never_reissues i ops ->
  exhausted i (apply_ops ops st).
Proof.
  revert st. induction ops as [|op ops IH]; intros st Hwf Hex Hops; [exact Hex|].
  inversion Hops as [|? ? Hop Hrest]; subst.
  apply IH; [apply apply_op_shape, Hwf | apply exhausted_step; assumption | exact Hrest].
Qed.

Lemma dead_steps (i : string) (ops : list QueueOp) (st : Storage) :
  wf_storage st -> dead i st -> never_reissues i ops -> only_fails i ops ->
  dead i (apply_ops ops st).
Proof.
  revert st. induction ops as [|op ops IH]; intros st Hwf Hdead Hops Hfails; [exact Hdead|].
  inversion Hops as [|? ? Hop Hrest]; subst.
  inversion Hfails as [|? ? Hop' Hrest']; subst.
  apply IH; [apply apply_op_shape, Hwf | apply dead_step; assumption | exact Hrest | exact Hrest'].
Qed.

Lemma exhausted_not_pending (i : string) (st : Storage) (limit : nat) :
  wf_storage st -> exhausted i st ->
  Forall (fun x => id x <> i) (map row_payload (sql_select_pending limit st)).
Proof.
  intros [Hrows _] Hex. rewrite Forall_forall in Hrows.
  apply Forall_forall. intros x Hx.
  change (x ∈ row_payload <$> sql_select_pending limit st) in Hx.
  apply list_elem_of_fmap in Hx as (r & -> & Hr).
  unfold sql_select_pending in Hr.
  assert (Hr' : r ∈ order_by_priority_created
                      (filter (fun r => is_pending r = true) (cf_agents_queues st))).
  { rewrite <- (take_drop limit). apply elem_of_app. left. exact Hr. }
  rewrite order_by_perm in Hr'. apply list_elem_of_filter in Hr' as [Hp Hin].
  unfold is_pending in Hp. apply bool_decide_eq_true in Hp.
  intros Hid. destruct (Hrows r Hin) as (Hrid & _).
  destruct (Hex r Hin) as [Hnp _]; [congruence|]. contradiction.
Qed.

Lemma fail_retry_spec (st : Storage) (i : string) (t : Task) (err : string) (now : Z) :
  wf_storage st -> task_of i st = Some t -> retryCount t < maxRetries t ->
  wf_storage (exec (fail i err now) st)
  /\ result_of (fail i err now) st = Returns tt
  /\ task_of i (exec (fail i err now) st)
     = Some (set_error err (set_status pending (set_retryCount (retryCount t + 1) t)))
  /\ kv (exec (fail i err now) st) = kv st.
Proof.
  intros Hwf Hget Hlt. unfold exec, result_of.
  rewrite (fail_retry i err now st t Hget Hlt). cbn [fst snd].
  split; [|split; [reflexivity|split; [|reflexivity]]].
  - apply (sql_update_shape st i t); try assumption; reflexivity.
  - rewrite task_of_update, Hget.
    rewrite bool_decide_eq_true_2 by reflexivity. reflexivity.
Qed.

Lemma fail_terminal_spec (st : Storage) (i : string) (t : Task) (err : string) (now : Z) :
  wf_storage st -> task_of i st = Some t -> ~ retryCount t < maxRetries t ->
  wf_storage (exec (fail i err now) st)
  /\ result_of (fail i err now) st = Returns tt
  /\ (exists t', task_of i (exec (fail i err now) st) = Some t'
                 /\ status t' = failed /\ error t' = Some err
                 /\ retryCount t' = retryCount t /\ maxRetries t' = maxRetries t)
  /\ dead_letter i (exec (fail i err now) st) = Some (mkDLQEntry i t err now)
  /\ dead i (exec (fail i err now) st).
Proof.
  intros Hwf Hget Hge.
  destruct (fail_terminal i err now st t Hget Hge)
    as (t' & Hrun & Hs & He & Hid & Hp & Hc & Hr & Hm).
  destruct (sql_update_shape st i t t' failed Hwf Hget Hid Hp Hc Hs) as [Hwf' Hrows'].
  assert (Hti : id t = i).
  { destruct (task_of_row _ _ _ Hget) as (r & Hin & Hrid & Hrt).
    destruct Hwf as [Hrows _]. rewrite Forall_forall in Hrows.
    destruct (Hrows r Hin) as (H1 & _). congruence. }
  unfold exec, result_of. rewrite Hrun. cbn [fst snd].
  split; [exact Hwf'|]. split; [reflexivity|]. split; [|split].
  - exists t'. split; [|repeat split; assumption].
    change (task_of i (exec (sql_update i t' failed) st) = Some t').
    rewrite task_of_update, Hget.
    rewrite bool_decide_eq_true_2 by reflexivity. reflexivity.
  - unfold dead_letter, set_kv. simpl. rewrite Hti. apply lookup_insert_eq.
  - intros r' Hr' Hrid.
    change (r' ∈ cf_agents_queues (exec (sql_update i t' failed) st)) in Hr'.
    destruct (Hrows' r' Hr') as [Hold|(r & Hin & Hj & Ht & Hj' & Ht' & Hs')].
    + (* a row that kept its place carries the updated task all the same *)
      pose proof (row_task_of _ r' Hwf' Hr') as Hsame.
      rewrite Hrid, task_of_update, Hget in Hsame.
      rewrite bool_decide_eq_true_2 in Hsame by reflexivity. simpl in Hsame.
      injection Hsame as Hsame.
      destruct Hwf' as [Hrows2 _]. rewrite Forall_forall in Hrows2.
      destruct (Hrows2 r' Hr') as (_ & _ & H3' & _).
      rewrite <- Hsame in *. split; [congruence|]. rewrite Hr, Hm. exact Hge.
    + rewrite Hs', Ht'. split; [reflexivity|]. rewrite Hr, Hm. exact Hge.
Qed.

Lemma dead_exhausted (i : string) (st : Storage) : dead i st -> exhausted i st.
Proof.
  intros Hdead r Hr Hid. destruct (Hdead r Hr Hid) as [Hs Hge].
  split; [rewrite Hs; discriminate | exact Hge].
Qed.

Lemma pending_task_listed (i : string) (st : Storage) (t : Task) :
  wf_storage st -> task_of i st = Some t -> status t = pending -> t ∈ pending_tasks st.
Proof.
  intros [Hrows _] Hget Hs. rewrite Forall_forall in Hrows.
  destruct (task_of_row _ _ _ Hget) as (r & Hin & _ & <-).
  unfold pending_tasks.
  change (row_payload r ∈ row_payload <$> filter (fun r => is_pending r = true) (cf_agents_queues st)).
  apply list_elem_of_fmap. exists r. split; [reflexivity|].
  apply list_elem_of_filter. split; [|exact Hin].
  unfold is_pending. apply bool_decide_eq_true.
  destruct (Hrows r Hin) as (_ & _ & H3 & _). congruence.
Qed.

(** C1. Let [t] be the task stored under id [i] in a well-formed queue.
    - While [retryCount t < maxRetries t], [fail(i, err)] returns and leaves
      the task with [retryCount] increased by exactly 1, status [pending]
      (it is among the pending tasks again) and no new dead-letter entry.
    - Once [retryCount t] has reached [maxRetries t], [fail(i, err)] sets the
      status to [failed] and writes the dead-letter entry ["dlq:" + i], which
      carries the failure reason [err].  From then on, whatever calls the
      agent makes on the queue ([nanoid] not handing out [i] again), no task
      with id [i] is returned by [getPending]; and as long as those calls
      address [i] with failures only, the task stays [failed].
    - In particular, with [maxRetries = 2] and [retryCount = 0]: failures 1
      and 2 leave the task [pending] with [retryCount] 1 and 2, and failure
      3 leaves it [failed] with a dead-letter entry. *)
Theorem C1_fail_retry_policy (st : Storage) (i : string) (t : Task)
        (Hwf : wf_storage st)
        (Hget : result_of (getTask i) st = Returns (Some t)) :
  (forall err now, retryCount t < maxRetries t ->
     result_of (fail i err now) st = Returns tt
     /\ exists t',
          result_of (getTask i) (exec (fail i err now) st) = Returns (Some t')
          /\ retryCount t' = retryCount t + 1
          /\ status t' = pending
          /\ maxRetries t' = maxRetries t
          /\ t' ∈ pending_tasks (exec (fail i err now) st)
          /\ kv (exec (fail i err now) st) = kv st)
  /\ (forall err now, ~ retryCount t < maxRetries t ->
        result_of (fail i err now) st = Returns tt
        /\ (exists t',
               result_of (getTask i) (exec (fail i err now) st) = Returns (Some t')
               /\ status t' = failed
               /\ retryCount t' = retryCount t)
        /\ (exists e,
               dead_letter i (exec (fail i err now) st) = Some e
               /\ taskId e = i /\ dlq_error e = err)
        /\ (forall ops limit, never_reissues i ops ->
               exists l,
                 result_of (getPending limit) (apply_ops ops (exec (fail i err now) st))
                 = Returns l
                 /\ Forall (fun x => id x <> i) l)
        /\ (forall ops t', never_reissues i ops -> only_fails i ops ->
               result_of (getTask i) (apply_ops ops (exec (fail i err now) st))
               = Returns (Some t') ->
               status t' = failed))
  /\ (maxRetries t = 2 -> retryCount t = 0 ->
      forall e1 e2 e3 n1 n2 n3,
        let st1 := exec (fail i e1 n1) st in
        let st2 := exec (fail i e2 n2) st1 in
        let st3 := exec (fail i e3 n3) st2 in
        (exists t1, result_of (getTask i) st1 = Returns (Some t1)
                    /\ status t1 = pending /\ retryCount t1 = 1)
        /\ (exists t2, result_of (getTask i) st2 = Returns (Some t2)
                       /\ status t2 = pending /\ retryCount t2 = 2)
        /\ (exists t3, result_of (getTask i) st3 = Returns (Some t3)
                       /\ status t3 = failed /\ retryCount t3 = 2)
        /\ (exists e, dead_letter i st3 = Some e /\ dlq_error e = e3)
        /\ (forall limit, exists l, result_of (getPending limit) st3 = Returns l
                                    /\ Forall (fun x => id x <> i) l)).
Proof.
  rewrite result_getTask in Hget. injection Hget as Hget.
  split; [|split].
  - intros err now Hlt.
    destruct (fail_retry_spec st i t err now Hwf Hget Hlt) as (Hwf' & Hres & Htask & Hkv).
    split; [exact Hres|].
    eexists. rewrite result_getTask, Htask.
    split; [reflexivity|]. split; [reflexivity|]. split; [reflexivity|].
    split; [reflexivity|]. split; [|exact Hkv].
    apply (pending_task_listed i); [exact Hwf' | exact Htask | reflexivity].
  - intros err now Hge.
    destruct (fail_terminal_spec st i t err now Hwf Hget Hge)
      as (Hwf' & Hres & (t' & Htask & Hs & _ & Hr & _) & Hdlq & Hdead).
    split; [exact Hres|]. split; [|split; [|split]].
    + exists t'. rewrite result_getTask, Htask. repeat split; assumption.
    + eexists. split; [exact Hdlq|]. split; reflexivity.
    + intros ops limit Hops. eexists. split; [reflexivity|].
      apply exhausted_not_pending; [apply apply_ops_wf, Hwf'|].
      apply exhausted_steps; [exact Hwf' | apply dead_exhausted, Hdead | exact Hops].
    + intros ops t'' Hops Hfails Hlookup.
      rewrite result_getTask in Hlookup. injection Hlookup as Hlookup.
      pose proof (apply_ops_wf ops _ Hwf') as Hwf''.
      destruct (task_of_row _ _ _ Hlookup) as (r & Hin & Hid & Hpay).
      destruct (dead_steps i ops _ Hwf' Hdead Hops Hfails r Hin Hid) as [Hfailed _].
      destruct Hwf'' as [Hrows _]. rewrite Forall_forall in Hrows.
      destruct (Hrows r Hin) as (_ & _ & H3 & _). congruence.
  - intros Hmax Hzero e1 e2 e3 n1 n2 n3 st1 st2 st3.
    destruct (fail_retry_spec st i t e1 n1 Hwf Hget ltac:(lia)) as (Hwf1 & _ & Ht1 & _).
    fold st1 in Hwf1, Ht1.
    set (t1 := set_error e1 (set_status pending (set_retryCount (retryCount t + 1) t))) in *.
    assert (Hr1 : retryCount t1 = 1) by (simpl; lia).
    assert (Hm1 : maxRetries t1 = 2) by exact Hmax.
    destruct (fail_retry_spec st1 i t1 e2 n2 Hwf1 Ht1 ltac:(lia)) as (Hwf2 & _ & Ht2 & _).
    fold st2 in Hwf2, Ht2.
    set (t2 := set_error e2 (set_status pending (set_retryCount (retryCount t1 + 1) t1))) in *.
    assert (Hr2 : retryCount t2 = 2) by (simpl; lia).
    assert (Hm2 : maxRetries t2 = 2) by exact Hmax.
    destruct (fail_terminal_spec st2 i t2 e3 n3 Hwf2 Ht2 ltac:(lia))
      as (Hwf3 & _ & (t3 & Ht3 & Hs3 & _ & Hr3 & _) & Hdlq & Hdead).
    fold st3 in Hwf3, Ht3, Hdlq, Hdead.
    split; [|split; [|split; [|split]]].
    + exists t1. rewrite result_getTask, Ht1. repeat split. exact Hr1.
    + exists t2. rewrite result_getTask, Ht2. repeat split. exact Hr2.
    + exists t3. rewrite result_getTask, Ht3. repeat split; [exact Hs3 | congruence].
    + eexists. split; [exact Hdlq | reflexivity].
    + intros limit. eexists. split; [reflexivity|].
      apply exhausted_not_pending; [exact Hwf3 | apply dead_exhausted, Hdead].
Qed.

(** ** [enqueue] *)

Lemma enqueue_result (taskData : TaskData) (nano : string) (now : Z) (st : Storage) (t : Task) :
  result_of (enqueue taskData nano now) st = Returns t ->
  (nano ∉ known_ids st) /\ t = new_task taskData nano now.
Proof.
  intros Hres. destruct (decide (nano ∈ known_ids st)) as [Hin|Hfresh].
  - unfold result_of in Hres. rewrite enqueue_taken in Hres by exact Hin. discriminate.
  - split; [exact Hfresh|].
    unfold result_of in Hres. rewrite enqueue_fresh in Hres by exact Hfresh.
    simpl in Hres. congruence.
Qed.

Lemma enqueue_stored (taskData : TaskData) (nano : string) (now : Z) (st : Storage) :
  wf_storage st -> nano ∉ known_ids st ->
  wf_storage (exec (enqueue taskData nano now) st)
  /\ task_of nano (exec (enqueue taskData nano now) st) = Some (new_task taskData nano now).
Proof.
  intros Hwf Hfresh.
  pose proof (apply_op_shape (Enqueue taskData nano now) st Hwf) as [Hwf' _].
  simpl in Hwf'. split; [exact Hwf'|].
  apply (row_task_of _ (row_of (new_task taskData nano now)) Hwf').
  unfold exec. rewrite enqueue_fresh by exact Hfresh. simpl.
  apply elem_of_app. right. left.
Qed.

(** C8, counterexample.  [enqueue] accepts a specification with priority 11
    and [maxRetries] -1: it returns the new task, stored with exactly these
    values, and the table holds it afterwards. *)
Lemma C8_enqueue_accepts_out_of_range :
  exists t,
    result_of (enqueue spec_out_of_range "V1StGXR8" 1700000000000) empty_storage = Returns t
    /\ priority t = 11
    /\ maxRetries t = -1
    /\ known_ids (exec (enqueue spec_out_of_range "V1StGXR8" 1700000000000) empty_storage)
       = ["V1StGXR8"].
Proof. eexists. repeat split. Qed.

(** C8, as the code has it.  [enqueue] validates neither [maxRetries] nor
    [priority].  Whatever the specification, when the id drawn from
    [nanoid] is not yet a key of the table, [enqueue] returns the new task
    and appends exactly its row: the task has the drawn id (new to the
    table), status [pending], [createdAt = now], [retryCount = 0], the
    priority as given, and [maxRetries] as given except that an absent or
    zero value becomes 3.  The only rejection is the primary-key collision
    of the drawn id, which adds no task. *)
Theorem C8_enqueue_no_validation (taskData : TaskData) (nano : string) (now : Z) (st : Storage) :
  (nano ∉ known_ids st ->
   exists t,
     enqueue taskData nano now st
     = (Returns t, set_table (cf_agents_queues st ++ [row_of t]) st)
     /\ id t = nano
     /\ (id t ∉ known_ids st)
     /\ status t = pending
     /\ createdAt t = now
     /\ retryCount t = 0
     /\ priority t = td_priority taskData
     /\ maxRetries t = js_or (td_maxRetries taskData) 3)
  /\ (nano ∈ known_ids st ->
      exists msg, enqueue taskData nano now st = (Throws msg, st)).
Proof.
  split.
  - intros Hfresh. exists (new_task taskData nano now).
    split; [apply enqueue_fresh, Hfresh|]. repeat split. exact Hfresh.
  - intros Htaken. eexists. apply enqueue_taken, Htaken.
Qed.

(** C10. When [enqueue] accepts a specification whose [maxRetries] is an
    explicit 0, the task it returns and stores has [maxRetries = 3]: the
    zero is falsy and [taskData.maxRetries || 3] replaces it.  Such a task
    does not fail terminally on its first failure: failures 1, 2 and 3 each
    leave it [pending] with [retryCount] 1, 2 and 3 and write no dead
    letter, and only failure 4 leaves it [failed] with a dead-letter
    entry. *)
Theorem C10_explicit_zero_maxRetries
        (taskData : TaskData) (nano : string) (now : Z) (st : Storage) (t : Task)
        (Hwf : wf_storage st)
        (Hzero : td_maxRetries taskData = Some 0)
        (Haccepted : result_of (enqueue taskData nano now) st = Returns t) :
  maxRetries t = 3
  /\ result_of (getTask nano) (exec (enqueue taskData nano now) st) = Returns (Some t)
  /\ forall e1 e2 e3 e4 n1 n2 n3 n4,
       let st0 := exec (enqueue taskData nano now) st in
       let st1 := exec (fail nano e1 n1) st0 in
       let st2 := exec (fail nano e2 n2) st1 in
       let st3 := exec (fail nano e3 n3) st2 in
       let st4 := exec (fail nano e4 n4) st3 in
       (exists t1, result_of (getTask nano) st1 = Returns (Some t1)
                   /\ status t1 = pending /\ retryCount t1 = 1 /\ kv st1 = kv st)
       /\ (exists t2, result_of (getTask nano) st2 = Returns (Some t2)
                      /\ status t2 = pending /\ retryCount t2 = 2 /\ kv st2 = kv st)
       /\ (exists t3, result_of (getTask nano) st3 = Returns (Some t3)
                      /\ status t3 = pending /\ retryCount t3 = 3 /\ kv st3 = kv st)
       /\ (exists t4, result_of (getTask nano) st4 = Returns (Some t4)
                      /\ status t4 = failed /\ retryCount t4 = 3)
       /\ (exists e, dead_letter nano st4 = Some e /\ dlq_error e = e4).
Proof.
  destruct (enqueue_result _ _ _ _ _ Haccepted) as [Hfresh ->].
  destruct (enqueue_stored taskData nano now st Hwf Hfresh) as [Hwf0 Ht0].
  assert (Hmax : maxRetries (new_task taskData nano now) = 3)
    by (simpl; rewrite Hzero; reflexivity).
  split; [exact Hmax|]. split; [rewrite result_getTask, Ht0; reflexivity|].
  intros e1 e2 e3 e4 n1 n2 n3 n4 st0 st1 st2 st3 st4.
  fold st0 in Hwf0, Ht0.
  assert (Hkv0 : kv st0 = kv st).
  { unfold st0, exec. rewrite enqueue_fresh by exact Hfresh. reflexivity. }
  set (t0 := new_task taskData nano now) in *.
  assert (Hr0 : retryCount t0 = 0) by reflexivity.
  destruct (fail_retry_spec st0 nano t0 e1 n1 Hwf0 Ht0 ltac:(lia)) as (Hwf1 & _ & Ht1 & Hkv1).
  fold st1 in Hwf1, Ht1, Hkv1.
  set (t1 := set_error e1 (set_status pending (set_retryCount (retryCount t0 + 1) t0))) in *.
  assert (Hr1 : retryCount t1 = 1) by reflexivity.
  assert (Hm1 : maxRetries t1 = 3) by exact Hmax.
  destruct (fail_retry_spec st1 nano t1 e2 n2 Hwf1 Ht1 ltac:(lia)) as (Hwf2 & _ & Ht2 & Hkv2).
  fold st2 in Hwf2, Ht2, Hkv2.
  set (t2 := set_error e2 (set_status pending (set_retryCount (retryCount t1 + 1) t1))) in *.
  assert (Hr2 : retryCount t2 = 2) by reflexivity.
  assert (Hm2 : maxRetries t2 = 3) by exact Hmax.
  destruct (fail_retry_spec st2 nano t2 e3 n3 Hwf2 Ht2 ltac:(lia)) as (Hwf3 & _ & Ht3 & Hkv3).
  fold st3 in Hwf3, Ht3, Hkv3.
  set (t3 := set_error e3 (set_status pending (set_retryCount (retryCount t2 + 1) t2))) in *.
  assert (Hr3 : retryCount t3 = 3) by reflexivity.
  assert (Hm3 : maxRetries t3 = 3) by exact Hmax.
  destruct (fail_terminal_spec st3 nano t3 e4 n4 Hwf3 Ht3 ltac:(lia))
    as (Hwf4 & _ & (t4 & Ht4 & Hs4 & _ & Hr4 & _) & Hdlq & _).
  fold st4 in Hwf4, Ht4, Hdlq.
  split; [|split; [|split; [|split]]].
  - exists t1. rewrite result_getTask, Ht1. repeat split. congruence.
  - exists t2. rewrite result_getTask, Ht2. repeat split. congruence.
  - exists t3. rewrite result_getTask, Ht3. repeat split. congruence.
  - exists t4. rewrite result_getTask, Ht4. repeat split; [exact Hs4 | congruence].
  - eexists. split; [exact Hdlq | reflexivity].
Qed.

(** ** The subagent pool *)

Lemma map_get_map (f : SD.SubagentInfo -> SD.SubagentInfo) (k : string) (m : SD.SubagentMap) :
  SD.map_get k (map (fun e => (fst e, f (snd e))) m) = f <$> SD.map_get k m.
Proof.
  induction m as [|[k' v] m IH]; [reflexivity|].
  simpl. destruct (bool_decide (k' = k)); [reflexivity | exact IH].
Qed.

Lemma map_get_mutate (f : SD.SubagentInfo -> SD.SubagentInfo) (k j : string) (m : SD.SubagentMap) :
  SD.map_get j (SD.map_mutate k f m)
  = if bool_decide (j = k) then f <$> SD.map_get j m else SD.map_get j m.
Proof.
  induction m as [|[k' v] m IH]; simpl.
  - destruct (bool_decide (j = k)); reflexivity.
  - destruct (bool_decide (k' = k)) eqn:Hk; simpl.
    + apply bool_decide_eq_true in Hk. subst k'.
      destruct (bool_decide (k = j)) eqn:Hj.
      * apply bool_decide_eq_true in Hj. subst j.
        rewrite bool_decide_eq_true_2 by reflexivity. reflexivity.
      * apply bool_decide_eq_false in Hj.
        rewrite (bool_decide_eq_false_2 (j = k)) by congruence. reflexivity.
    + destruct (bool_decide (k' = j)) eqn:Hj; [|exact IH].
      apply bool_decide_eq_true in Hj. subst j.
      apply bool_decide_eq_false in Hk.
      rewrite (bool_decide_eq_false_2 (k' = k)) by congruence. reflexivity.
Qed.

Lemma keys_mutate (f : SD.SubagentInfo -> SD.SubagentInfo) (k : string) (m : SD.SubagentMap) :
  map fst (SD.map_mutate k f m) = map fst m.
Proof.
  induction m as [|[k' v] m IH]; [reflexivity|].
  simpl. destruct (bool_decide (k' = k)); simpl; [reflexivity | rewrite IH; reflexivity].
Qed.

Lemma keys_map (f : SD.SubagentInfo -> SD.SubagentInfo) (m : SD.SubagentMap) :
  map fst (map (fun e => (fst e, f (snd e))) m) = map fst m.
Proof. rewrite map_map. reflexivity. Qed.

(** C6, counterexample.  The only subagent of [idle_pool] is idle; a
    [healthCheck] at time 300001, more than five minutes after its last
    heartbeat, marks it [error] all the same. *)
Lemma C6_idle_subagent_marked_error :
  SD.status <$> SD.map_get "a1" (SD.activeSubagents idle_pool) = Some SD.idle
  /\ SD.status <$> SD.map_get "a1" (SD.activeSubagents (exec (SD.healthCheck 300001) idle_pool))
     = Some SD.error.
Proof. split; reflexivity. Qed.

(** C6, as the code has it.  For a subagent [s] filed under [sid]:
    [healthCheck] sets its status to [error] exactly when
    [now - lastHeartbeat] exceeds 300000 ms (five minutes), whatever its
    status was, [idle] included, and leaves it untouched otherwise; it
    neither removes nor releases any subagent.  A later [heartbeat(sid)] on
    a subagent whose status is [error] sets [lastHeartbeat] to the current
    time and the status to [active], leaving [currentTask] and the set of
    subagents as they were. *)
Theorem C6_healthCheck_heartbeat
        (d : SD.Deployer) (sid : string) (s : SD.SubagentInfo) (now : Z)
        (Hget : SD.map_get sid (SD.activeSubagents d) = Some s) :
  result_of (SD.healthCheck now) d = Returns tt
  /\ (300000 < now - SD.lastHeartbeat s ->
      SD.map_get sid (SD.activeSubagents (exec (SD.healthCheck now) d))
      = Some (SD.set_status SD.error s))
  /\ (~ 300000 < now - SD.lastHeartbeat s ->
      SD.map_get sid (SD.activeSubagents (exec (SD.healthCheck now) d)) = Some s)
  /\ map fst (SD.activeSubagents (exec (SD.healthCheck now) d)) = map fst (SD.activeSubagents d)
  /\ (SD.status s = SD.error ->
      forall later,
        result_of (SD.heartbeat sid later) d = Returns tt
        /\ SD.map_get sid (SD.activeSubagents (exec (SD.heartbeat sid later) d))
           = Some (SD.mkSubagentInfo (SD.id s) (SD.type s) (SD.name s) SD.active
                                     (SD.currentTask s) (SD.deployedAt s) later)
        /\ map fst (SD.activeSubagents (exec (SD.heartbeat sid later) d))
           = map fst (SD.activeSubagents d)).
Proof.
  split; [reflexivity|].
  assert (Hhc : SD.map_get sid (SD.activeSubagents (exec (SD.healthCheck now) d))
                = Some (SD.check_one now s)).
  { unfold SD.healthCheck. run_m. rewrite map_get_map, Hget. reflexivity. }
  split; [|split; [|split]].
  - intros Hstale. rewrite Hhc. unfold SD.check_one.
    change SD.timeout with 300000.
    apply Z.ltb_lt in Hstale. rewrite Hstale. reflexivity.
  - intros Hfresh. rewrite Hhc. unfold SD.check_one.
    change SD.timeout with 300000.
    apply Z.ltb_nlt in Hfresh. rewrite Hfresh. reflexivity.
  - unfold SD.healthCheck. run_m. apply keys_map.
  - intros Herr later. unfold SD.heartbeat, result_of, exec. run_m. rewrite Hget. simpl.
    split; [reflexivity|]. split; [|apply keys_mutate].
    rewrite map_get_mutate, Hget.
    rewrite bool_decide_eq_true_2 by reflexivity. simpl.
    unfold SD.beat. simpl. rewrite Herr. reflexivity.
Qed.

(** *** Claiming and creating *)

Lemma claim_idle_none (taskId : string) (m : SD.SubagentMap) :
  none_idle m -> SD.claim_idle taskId m = None.
Proof.
  induction m as [|[k s] m IH]; intros Hnone; [reflexivity|].
  inversion Hnone as [|? ? Hs Hrest]; subst. simpl in Hs.
  simpl. rewrite bool_decide_eq_false_2 by exact Hs.
  rewrite IH by exact Hrest. reflexivity.
Qed.

Lemma claim_idle_first (taskId : string) (pre post : SD.SubagentMap)
      (k : string) (s : SD.SubagentInfo) :
  none_idle pre -> SD.status s = SD.idle ->
  SD.claim_idle taskId (pre ++ (k, s) :: post)
  = Some (claimed taskId s, pre ++ (k, claimed taskId s) :: post).
Proof.
  intros Hpre Hs. induction pre as [|[k' s'] pre IH]; simpl.
  - rewrite bool_decide_eq_true_2 by exact Hs. reflexivity.
  - inversion Hpre as [|? ? Hs' Hrest]; subst. simpl in Hs'.
    rewrite bool_decide_eq_false_2 by exact Hs'.
    rewrite IH by exact Hrest. reflexivity.
Qed.

Lemma idle_split (m : SD.SubagentMap) :
  none_idle m
  \/ exists pre k s post,
       m = pre ++ (k, s) :: post /\ none_idle pre /\ SD.status s = SD.idle.
Proof.
  induction m as [|[k s] m IH]; [left; constructor|].
  destruct (decide (SD.status s = SD.idle)) as [Hs|Hs].
  - right. exists [], k, s, m. split; [reflexivity|]. split; [constructor | exact Hs].
  - destruct IH as [Hnone|(pre & k' & s' & post & -> & Hpre & Hs')].
    + left. constructor; assumption.
    + right. exists ((k, s) :: pre), k', s', post.
      split; [reflexivity|]. split; [constructor; assumption | exact Hs'].
Qed.

Lemma map_set_fresh (k : string) (v : SD.SubagentInfo) (m : SD.SubagentMap) :
  k ∉ map fst m -> SD.map_set k v m = m ++ [(k, v)].
Proof.
  induction m as [|[k' v'] m IH]; intros Hfresh; [reflexivity|].
  simpl in *. apply not_elem_of_cons in Hfresh as [Hne Hfresh].
  rewrite bool_decide_eq_false_2 by congruence.
  rewrite IH by exact Hfresh. reflexivity.
Qed.

Lemma map_set_elem (k : string) (v : SD.SubagentInfo) (m : SD.SubagentMap) (e : string * SD.SubagentInfo) :
  e ∈ SD.map_set k v m -> e = (k, v) \/ e ∈ m.
Proof.
  induction m as [|[k' v'] m IH]; simpl; intros He.
  - apply list_elem_of_singleton in He. left. exact He.
  - destruct (bool_decide (k' = k)).
    + apply elem_of_cons in He as [->|He]; [left; reflexivity | right; right; exact He].
    + apply elem_of_cons in He as [->|He]; [right; left|].
      destruct (IH He) as [->|Hin]; [left; reflexivity | right; right; exact Hin].
Qed.

Lemma map_set_has (k : string) (v : SD.SubagentInfo) (m : SD.SubagentMap) :
  (k, v) ∈ SD.map_set k v m.
Proof.
  induction m as [|[k' v'] m IH]; simpl; [left|].
  destruct (bool_decide (k' = k)); [left | right; exact IH].
Qed.

Lemma map_set_keys (k : string) (v : SD.SubagentInfo) (m : SD.SubagentMap) :
  NoDup (map fst m) -> NoDup (map fst (SD.map_set k v m)).
Proof.
  induction m as [|[k' v'] m IH]; simpl; intros Hnd.
  - apply NoDup_singleton.
  - apply NoDup_cons in Hnd as [Hnotin Hnd].
    destruct (bool_decide (k' = k)) eqn:Hk; simpl.
    + apply bool_decide_eq_true in Hk. subst k'. apply NoDup_cons. split; assumption.
    + apply bool_decide_eq_false in Hk. apply NoDup_cons. split; [|apply IH, Hnd].
      intros Hin. apply list_elem_of_In, in_map_iff in Hin as ([k2 v2] & Hk2 & Hin).
      simpl in Hk2. subst k2. apply list_elem_of_In, map_set_elem in Hin as [Heq|Hin].
      * congruence.
      * apply Hnotin. apply list_elem_of_In, in_map_iff. exists (k', v2).
        split; [reflexivity | apply list_elem_of_In, Hin].
Qed.

Lemma mutate_elem (k : string) (f : SD.SubagentInfo -> SD.SubagentInfo) (m : SD.SubagentMap)
      (e' : string * SD.SubagentInfo) :
  e' ∈ SD.map_mutate k f m ->
  e' ∈ m \/ exists e, e ∈ m /\ fst e = k /\ e' = (k, f (snd e)).
Proof.
  induction m as [|[k' v] m IH]; simpl; intros He; [inversion He|].
  destruct (bool_decide (k' = k)) eqn:Hk.
  - apply bool_decide_eq_true in Hk. subst k'.
    apply elem_of_cons in He as [->|He]; [|left; right; exact He].
    right. exists (k, v). split; [left|]. split; reflexivity.
  - apply elem_of_cons in He as [->|He]; [left; left|].
    destruct (IH He) as [Hin|(e & Hin & Hfst & ->)]; [left; right; exact Hin|].
    right. exists e. split; [right; exact Hin|]. split; [exact Hfst | reflexivity].
Qed.

Lemma allocate_at_capacity (d : SD.Deployer) (t : Task) (uuid : string) (now : Z) :
  none_idle (SD.activeSubagents d) ->
  SD.maxSubagents d <= SD.map_size (SD.activeSubagents d) ->
  SD.allocate t uuid now d = (Throws "No available subagents and at capacity", d).
Proof.
  intros Hnone Hfull. unfold SD.allocate. run_m.
  rewrite claim_idle_none by exact Hnone.
  apply Z.ltb_ge in Hfull. rewrite Hfull. reflexivity.
Qed.

Lemma allocate_creates (d : SD.Deployer) (t : Task) (uuid : string) (now : Z) :
  none_idle (SD.activeSubagents d) ->
  SD.map_size (SD.activeSubagents d) < SD.maxSubagents d ->
  SD.allocate t uuid now d
  = (Returns (fresh_worker uuid now),
     SD.mkDeployer (SD.maxSubagents d)
                   (SD.map_set uuid (fresh_worker uuid now) (SD.activeSubagents d))
                   (Some (SD.map_values
                            (SD.map_set uuid (fresh_worker uuid now) (SD.activeSubagents d))))).
Proof.
  intros Hnone Hroom. unfold SD.allocate. run_m.
  rewrite claim_idle_none by exact Hnone.
  apply Z.ltb_lt in Hroom. rewrite Hroom. reflexivity.
Qed.

Lemma allocate_claims (d : SD.Deployer) (t : Task) (uuid : string) (now : Z)
      (pre post : SD.SubagentMap) (k : string) (s : SD.SubagentInfo) :
  SD.activeSubagents d = pre ++ (k, s) :: post ->
  none_idle pre -> SD.status s = SD.idle ->
  SD.allocate t uuid now d
  = (Returns (claimed (id t) s),
     SD.mkDeployer (SD.maxSubagents d)
                   (pre ++ (k, claimed (id t) s) :: post)
                   (Some (SD.map_values (pre ++ (k, claimed (id t) s) :: post)))).
Proof.
  intros Hm Hpre Hs. unfold SD.allocate. run_m.
  rewrite Hm, claim_idle_first by assumption. reflexivity.
Qed.

(** *** Every operation on the pool *)

Lemma wf_pool_set (k : string) (v : SD.SubagentInfo) (m : SD.SubagentMap) :
  wf_pool m -> SD.id v = k -> wf_pool (SD.map_set k v m).
Proof.
  intros [Hids Hnd] Hv. split; [|apply map_set_keys, Hnd].
  rewrite Forall_forall in Hids. apply Forall_forall. intros e He.
  apply map_set_elem in He as [->|He]; [exact Hv | apply Hids, He].
Qed.

Lemma wf_pool_mutate (k : string) (f : SD.SubagentInfo -> SD.SubagentInfo) (m : SD.SubagentMap) :
  wf_pool m -> (forall s, SD.id (f s) = SD.id s) -> wf_pool (SD.map_mutate k f m).
Proof.
  intros [Hids Hnd] Hf. split; [|rewrite keys_mutate; exact Hnd].
  rewrite Forall_forall in Hids. apply Forall_forall. intros e' He'.
  apply mutate_elem in He' as [Hin|(e & Hin & Hfst & ->)]; [apply Hids, Hin|].
  simpl. rewrite Hf, <- Hfst. apply Hids, Hin.
Qed.

Lemma wf_pool_claim (pre post : SD.SubagentMap) (k taskId : string) (s : SD.SubagentInfo) :
  wf_pool (pre ++ (k, s) :: post) -> wf_pool (pre ++ (k, claimed taskId s) :: post).
Proof.
  intros [Hids Hnd]. split.
  - apply Forall_app in Hids as [Hpre Hrest].
    inversion Hrest as [|? ? Hs Hpost]; subst.
    apply Forall_app. split; [exact Hpre|]. constructor; [exact Hs | exact Hpost].
  - rewrite map_app in *. exact Hnd.
Qed.

(** Every entry of the pool after an operation descends from an entry with
    the same key, and has not turned idle, unless the operation released it
    or created it. *)
Lemma apply_dop_shape (op : DeployerOp) (d : SD.Deployer) :
  wf_pool (SD.activeSubagents d) ->
  wf_pool (SD.activeSubagents (apply_dop op d))
  /\ forall e', e' ∈ SD.activeSubagents (apply_dop op d) ->
       (exists e, e ∈ SD.activeSubagents d /\ fst e' = fst e
                  /\ (SD.status (snd e) <> SD.idle -> SD.status (snd e') <> SD.idle))
       \/ op = DRelease (fst e')
       \/ match op with
          | DCreate _ uuid _ | DAllocate _ uuid _ => fst e' = uuid
          | _ => False
          end.
Proof.
  intros Hwf.
  assert (Hkeep : forall e' : string * SD.SubagentInfo,
             e' ∈ SD.activeSubagents d ->
             exists e, e ∈ SD.activeSubagents d /\ fst e' = fst e
                       /\ (SD.status (snd e) <> SD.idle -> SD.status (snd e') <> SD.idle)).
  { intros e' He'. exists e'. split; [exact He'|]. split; [reflexivity | tauto]. }
  destruct op as [config uuid now|t uuid now|j|j|now|j now]; simpl.
  - unfold SD.create. run_m. split; [apply wf_pool_set; [exact Hwf | reflexivity]|].
    intros e' He'. apply map_set_elem in He' as [->|He']; [right; right; reflexivity|].
    left. apply Hkeep, He'.
  - destruct (idle_split (SD.activeSubagents d))
      as [Hnone|(pre & k & s & post & Hm & Hpre & Hs)].
    + destruct (decide (SD.map_size (SD.activeSubagents d) < SD.maxSubagents d)) as [Hroom|Hfull].
      * unfold exec. rewrite allocate_creates by assumption. simpl.
        split; [apply wf_pool_set; [exact Hwf | reflexivity]|].
        intros e' He'. apply map_set_elem in He' as [->|He']; [right; right; reflexivity|].
        left. apply Hkeep, He'.
      * unfold exec. rewrite allocate_at_capacity by (try assumption; lia). simpl.
        split; [exact Hwf|]. intros e' He'. left. apply Hkeep, He'.
    + unfold exec. rewrite (allocate_claims d t uuid now pre post k s Hm Hpre Hs). simpl.
      rewrite Hm in Hwf, Hkeep.
      split; [apply wf_pool_claim, Hwf|].
      intros e' He'. left. rewrite Hm.
      apply elem_of_app in He' as [He'|He'].
      * apply Hkeep. apply elem_of_app. left. exact He'.
      * apply elem_of_cons in He' as [->|He'].
        -- exists (k, s). split; [apply elem_of_app; right; left|].
           split; [reflexivity|]. intros _. simpl. discriminate.
        -- apply Hkeep. apply elem_of_app. right. right. exact He'.
  - unfold SD.release. run_m.
    destruct (SD.map_get j (SD.activeSubagents d)); simpl.
    + split; [apply wf_pool_mutate; [exact Hwf | reflexivity]|].
      intros e' He'. apply mutate_elem in He' as [Hin|(e & Hin & Hfst & ->)].
      * left. apply Hkeep, Hin.
      * right. left. reflexivity.
    + split; [exact Hwf|]. intros e' He'. left. apply Hkeep, He'.
  - unfold SD.remove. run_m. unfold SD.map_delete.
    destruct Hwf as [Hids Hnd]. split; [split|].
    + apply List.Forall_forall. intros e He.
      apply list_elem_of_In, list_elem_of_filter in He as [_ He].
      rewrite Forall_forall in Hids. apply Hids, He.
    + apply NoDup_map_filter, Hnd.
    + intros e' He'. apply list_elem_of_filter in He' as [_ He']. left. apply Hkeep, He'.
  - unfold SD.healthCheck. run_m. destruct Hwf as [Hids Hnd]. split; [split|].
    + rewrite Forall_forall in Hids. apply Forall_forall. intros e' He'.
      change (e' ∈ (fun e => (fst e, SD.check_one now (snd e))) <$> SD.activeSubagents d) in He'.
      apply list_elem_of_fmap in He' as (e & -> & He). simpl.
      rewrite <- (Hids e He). unfold SD.check_one.
      destruct (SD.timeout <? now - SD.lastHeartbeat (snd e)); reflexivity.
    + rewrite keys_map. exact Hnd.
    + intros e' He'.
      change (e' ∈ (fun e => (fst e, SD.check_one now (snd e))) <$> SD.activeSubagents d) in He'.
      apply list_elem_of_fmap in He' as (e & -> & He).
      left. exists e. split; [exact He|]. split; [reflexivity|].
      simpl. unfold SD.check_one.
      destruct (SD.timeout <? now - SD.lastHeartbeat (snd e)); simpl; [discriminate | tauto].
  - unfold SD.heartbeat. run_m.
    destruct (SD.map_get j (SD.activeSubagents d)); simpl.
    + split.
      * apply wf_pool_mutate; [exact Hwf|]. intros x. unfold SD.beat. simpl.
        destruct (bool_decide (SD.status x = SD.error)); reflexivity.
      * intros e' He'. apply mutate_elem in He' as [Hin|(e & Hin & Hfst & ->)].
        -- left. apply Hkeep, Hin.
        -- left. exists e. split; [exact Hin|]. split; [symmetry; exact Hfst|].
           simpl. unfold SD.beat. simpl.
           destruct (bool_decide (SD.status (snd e) = SD.error)); simpl; [discriminate | tauto].
    + split; [exact Hwf|]. intros e' He'. left. apply Hkeep, He'.
Qed.

Lemma held_step (i : string) (op : DeployerOp) (d : SD.Deployer) :
  wf_pool (SD.activeSubagents d) -> held i (SD.activeSubagents d) ->
  match op with
  | DRelease j => j <> i
  | DCreate _ uuid _ | DAllocate _ uuid _ => uuid <> i
  | _ => True
  end ->
  held i (SD.activeSubagents (apply_dop op d)).
Proof.
  intros Hwf Hheld Hop e' He' Hfst.
  destruct (apply_dop_shape op d Hwf) as [_ Hshape].
  destruct (Hshape e' He') as [(e & He & Hk & Hs)|[Hrel|Hnew]].
  - apply Hs, (Hheld e He). congruence.
  - subst op. congruence.
  - destruct op; try contradiction; congruence.
Qed.

Lemma held_steps (i : string) (ops : list DeployerOp) (d : SD.Deployer) :
  wf_pool (SD.activeSubagents d) -> held i (SD.activeSubagents d) -> still_held i ops ->
  wf_pool (SD.activeSubagents (apply_dops ops d))
  /\ held i (SD.activeSubagents (apply_dops ops d)).
Proof.
  revert d. induction ops as [|op ops IH]; intros d Hwf Hheld Hops; [split; assumption|].
  inversion Hops as [|? ? Hop Hrest]; subst.
  apply IH; [apply apply_dop_shape, Hwf | apply held_step; assumption | exact Hrest].
Qed.

(** *** Filling the pool *)

Lemma allocate_each_fresh (calls : list (Task * string * Z)) (d : SD.Deployer) :
  none_idle (SD.activeSubagents d) ->
  NoDup (map call_uuid calls) ->
  (forall c, c ∈ calls -> call_uuid c ∉ map fst (SD.activeSubagents d)) ->
  SD.map_size (SD.activeSubagents d) + Z.of_nat (length calls) <= SD.maxSubagents d ->
  exists d',
    allocate_each calls d = (map (fun c => Returns (call_worker c)) calls, d')
    /\ SD.activeSubagents d'
       = SD.activeSubagents d ++ map (fun c => (call_uuid c, call_worker c)) calls
    /\ SD.maxSubagents d' = SD.maxSubagents d.
Proof.
  revert d. induction calls as [|[[t uuid] now] calls IH]; intros d Hnone Hnd Hfresh Hroom.
  - exists d. simpl. rewrite app_nil_r. repeat split.
  - simpl in Hnd. apply NoDup_cons in Hnd as [Hnotin Hnd].
    simpl in Hroom.
    assert (Hu : uuid ∉ map fst (SD.activeSubagents d)) by (apply (Hfresh (t, uuid, now)); left).
    simpl. rewrite allocate_creates by (try assumption; lia).
    rewrite (map_set_fresh uuid _ _ Hu).
    destruct (IH (SD.mkDeployer (SD.maxSubagents d)
                    (SD.activeSubagents d ++ [(uuid, fresh_worker uuid now)])
                    (Some (SD.map_values (SD.activeSubagents d ++ [(uuid, fresh_worker uuid now)])))))
      as (d' & Hrun & Hactive & Hmax).
    + simpl. apply Forall_app. split; [exact Hnone|]. constructor; [discriminate | constructor].
    + exact Hnd.
    + intros c Hc. simpl. rewrite map_app. simpl. intros Hin.
      apply elem_of_app in Hin as [Hin|Hin].
      * apply (Hfresh c); [right; exact Hc | exact Hin].
      * apply list_elem_of_singleton in Hin. apply Hnotin.
        change (uuid ∈ map call_uuid calls). rewrite <- Hin.
        apply list_elem_of_In, in_map, list_elem_of_In, Hc.
    + simpl. unfold SD.map_size in *. rewrite length_app. simpl. lia.
    + exists d'. rewrite Hrun. simpl in Hactive, Hmax.
      split; [reflexivity|]. split; [|exact Hmax].
      rewrite Hactive, <- app_assoc. reflexivity.
Qed.

Lemma map_get_at (k : string) (v : SD.SubagentInfo) (pre post : SD.SubagentMap) :
  k ∉ map fst pre -> SD.map_get k (pre ++ (k, v) :: post) = Some v.
Proof.
  induction pre as [|[k' v'] pre IH]; simpl; intros Hk.
  - rewrite bool_decide_eq_true_2 by reflexivity. reflexivity.
  - apply not_elem_of_cons in Hk as [Hne Hk].
    rewrite bool_decide_eq_false_2 by congruence. apply IH, Hk.
Qed.

Lemma mutate_at (k : string) (f : SD.SubagentInfo -> SD.SubagentInfo) (v : SD.SubagentInfo)
      (pre post : SD.SubagentMap) :
  k ∉ map fst pre ->
  SD.map_mutate k f (pre ++ (k, v) :: post) = pre ++ (k, f v) :: post.
Proof.
  induction pre as [|[k' v'] pre IH]; simpl; intros Hk.
  - rewrite bool_decide_eq_true_2 by reflexivity. reflexivity.
  - apply not_elem_of_cons in Hk as [Hne Hk].
    rewrite bool_decide_eq_false_2 by congruence. rewrite IH by exact Hk. reflexivity.
Qed.

Lemma release_then_allocate (d : SD.Deployer) (pre post : SD.SubagentMap)
      (k : string) (v : SD.SubagentInfo) (t : Task) (uuid : string) (now : Z) :
  SD.activeSubagents d = pre ++ (k, v) :: post ->
  none_idle pre -> k ∉ map fst pre ->
  result_of (SD.allocate t uuid now) (exec (SD.release k) d)
  = Returns (SD.mkSubagentInfo (SD.id v) (SD.type v) (SD.name v) SD.active (Some (id t))
                               (SD.deployedAt v) (SD.lastHeartbeat v)).
Proof.
  intros Hm Hpre Hk.
  assert (Hrel : SD.activeSubagents (exec (SD.release k) d)
                 = pre ++ (k, SD.set_currentTask None (SD.set_status SD.idle v)) :: post).
  { unfold SD.release. run_m. rewrite Hm, map_get_at by exact Hk. simpl.
    rewrite (mutate_at k (fun s => SD.set_currentTask None (SD.set_status SD.idle s))
                       v pre post Hk).
    reflexivity. }
  unfold result_of.
  rewrite (allocate_claims _ t uuid now pre post k _ Hrel Hpre eq_refl). reflexivity.
Qed.

Lemma allocate_result_held (d : SD.Deployer) (t : Task) (uuid : string) (now : Z)
      (s : SD.SubagentInfo) :
  wf_pool (SD.activeSubagents d) ->
  result_of (SD.allocate t uuid now) d = Returns s ->
  held (SD.id s) (SD.activeSubagents (exec (SD.allocate t uuid now) d)).
Proof.
  intros Hwf Hres.
  pose proof (apply_dop_shape (DAllocate t uuid now) d Hwf) as [[_ Hnd'] _].
  simpl in Hnd'. revert Hres Hnd'. unfold result_of, exec.
  destruct (idle_split (SD.activeSubagents d))
    as [Hnone|(pre & k & s0 & post & Hm & Hpre & Hs)].
  - destruct (decide (SD.map_size (SD.activeSubagents d) < SD.maxSubagents d)) as [Hroom|Hfull].
    + rewrite allocate_creates by assumption. simpl. intros [= <-] Hnd' e He Hfst.
      rewrite (unique_by_key fst _ e (uuid, fresh_worker uuid now) Hnd' He
                 (map_set_has _ _ _) Hfst).
      discriminate.
    + rewrite allocate_at_capacity by (try assumption; lia). discriminate.
  - rewrite (allocate_claims d t uuid now pre post k s0 Hm Hpre Hs). simpl.
    intros [= <-] Hnd' e He Hfst.
    assert (Hk : SD.id s0 = k).
    { destruct Hwf as [Hids _]. rewrite Hm in Hids.
      apply Forall_app in Hids as [_ Hrest]. inversion Hrest; subst. assumption. }
    simpl in Hfst. rewrite Hk in Hfst.
    assert (Hhere : (k, claimed (id t) s0) ∈ pre ++ (k, claimed (id t) s0) :: post)
      by (apply elem_of_app; right; left).
    rewrite (unique_by_key fst _ e (k, claimed (id t) s0) Hnd' He Hhere Hfst).
    discriminate.
Qed.

Lemma allocate_other (d : SD.Deployer) (t : Task) (uuid : string) (now : Z)
      (s : SD.SubagentInfo) (i : string) :
  wf_pool (SD.activeSubagents d) -> held i (SD.activeSubagents d) -> uuid <> i ->
  result_of (SD.allocate t uuid now) d = Returns s ->
  SD.id s <> i.
Proof.
  intros Hwf Hheld Hne. unfold result_of.
  destruct (idle_split (SD.activeSubagents d))
    as [Hnone|(pre & k & s0 & post & Hm & Hpre & Hs)].
  - destruct (decide (SD.map_size (SD.activeSubagents d) < SD.maxSubagents d)) as [Hroom|Hfull].
    + rewrite allocate_creates by assumption. simpl. intros [= <-]. exact Hne.
    + rewrite allocate_at_capacity by (try assumption; lia). discriminate.
  - rewrite (allocate_claims d t uuid now pre post k s0 Hm Hpre Hs). simpl.
    intros [= <-]. simpl.
    assert (Hin : (k, s0) ∈ SD.activeSubagents d)
      by (rewrite Hm; apply elem_of_app; right; left).
    assert (Hk : SD.id s0 = k).
    { destruct Hwf as [Hids _]. rewrite Forall_forall in Hids. apply (Hids _ Hin). }
    intros Heq. apply (Hheld _ Hin); [simpl; congruence | exact Hs].
Qed.

(** C5. On a pool whose entries are filed under their own ids:
    - with no idle subagent and as many subagents as [maxSubagents],
      [allocate] throws the capacity error and leaves the deployer as it
      was;
    - with an idle subagent, [allocate] claims exactly one, the first idle
      one in iteration order: it returns it with status [active] and
      [currentTask] the task's id, and no other entry changes;
    - with none idle and fewer subagents than [maxSubagents], [allocate]
      creates a new active subagent under the drawn uuid and returns it;
    - a subagent handed out by [allocate] is not handed out by any later
      [allocate] as long as it is not released ([randomUUID] not drawing its
      id again), whatever else happens to the pool in between;
    - on a new deployer with [maxSubagents = 50], 50 consecutive [allocate]
      calls (with distinct uuids) each succeed with a newly created
      subagent, the 51st throws the capacity error, and after one
      [release] the next [allocate] succeeds again, with the released
      subagent. *)
Theorem C5_allocate (d : SD.Deployer) (t : Task) (uuid : string) (now : Z)
        (Hwf : wf_pool (SD.activeSubagents d)) :
  (none_idle (SD.activeSubagents d) ->
   SD.map_size (SD.activeSubagents d) = SD.maxSubagents d ->
   SD.allocate t uuid now d = (Throws "No available subagents and at capacity", d))
  /\ (Exists (fun e => SD.status (snd e) = SD.idle) (SD.activeSubagents d) ->
      exists pre k s post,
        SD.activeSubagents d = pre ++ (k, s) :: post
        /\ none_idle pre /\ SD.status s = SD.idle
        /\ result_of (SD.allocate t uuid now) d
           = Returns (SD.mkSubagentInfo (SD.id s) (SD.type s) (SD.name s) SD.active
                                        (Some (id t)) (SD.deployedAt s) (SD.lastHeartbeat s))
        /\ SD.activeSubagents (exec (SD.allocate t uuid now) d)
           = pre ++ (k, SD.mkSubagentInfo (SD.id s) (SD.type s) (SD.name s) SD.active
                                          (Some (id t)) (SD.deployedAt s) (SD.lastHeartbeat s))
                 :: post)
  /\ (none_idle (SD.activeSubagents d) ->
      SD.map_size (SD.activeSubagents d) < SD.maxSubagents d ->
      result_of (SD.allocate t uuid now) d = Returns (fresh_worker uuid now)
      /\ SD.activeSubagents (exec (SD.allocate t uuid now) d)
         = SD.map_set uuid (fresh_worker uuid now) (SD.activeSubagents d)
      /\ (uuid ∉ map fst (SD.activeSubagents d) ->
          SD.activeSubagents (exec (SD.allocate t uuid now) d)
          = SD.activeSubagents d ++ [(uuid, fresh_worker uuid now)]))
  /\ (forall s1 ops t2 uuid2 now2 s2,
         result_of (SD.allocate t uuid now) d = Returns s1 ->
         still_held (SD.id s1) ops -> uuid2 <> SD.id s1 ->
         result_of (SD.allocate t2 uuid2 now2)
                   (apply_dops ops (exec (SD.allocate t uuid now) d)) = Returns s2 ->
         SD.id s2 <> SD.id s1)
  /\ (forall calls t51 uuid51 now51,
         length calls = 50%nat -> NoDup (map call_uuid calls) ->
         exists d50,
           allocate_each calls (SD.new_deployer 50)
           = (map (fun c => Returns (call_worker c)) calls, d50)
           /\ SD.allocate t51 uuid51 now51 d50
              = (Throws "No available subagents and at capacity", d50)
           /\ forall c t' uuid' now',
                c ∈ calls ->
                exists s,
                  result_of (SD.allocate t' uuid' now') (exec (SD.release (call_uuid c)) d50)
                  = Returns s
                  /\ SD.id s = call_uuid c
                  /\ SD.currentTask s = Some (id t')
                  /\ SD.status s = SD.active).
Proof.
  split; [|split; [|split; [|split]]].
  - intros Hnone Hfull. apply allocate_at_capacity; [exact Hnone | lia].
  - intros Hidle.
    destruct (idle_split (SD.activeSubagents d))
      as [Hnone|(pre & k & s & post & Hm & Hpre & Hs)].
    + exfalso. revert Hidle. apply Forall_not_Exists.
      eapply List.Forall_impl; [|exact Hnone]. intros e He. exact He.
    + exists pre, k, s, post. unfold result_of, exec.
      rewrite (allocate_claims d t uuid now pre post k s Hm Hpre Hs).
      repeat split; assumption.
  - intros Hnone Hroom. unfold result_of, exec.
    rewrite allocate_creates by assumption. simpl.
    split; [reflexivity|]. split; [reflexivity|]. apply map_set_fresh.
  - intros s1 ops t2 uuid2 now2 s2 Hres Hops Hne Hres2.
    pose proof (allocate_result_held d t uuid now s1 Hwf Hres) as Hheld.
    pose proof (apply_dop_shape (DAllocate t uuid now) d Hwf) as [Hwf1 _].
    simpl in Hwf1.
    destruct (held_steps (SD.id s1) ops _ Hwf1 Hheld Hops) as [Hwf2 Hheld2].
    exact (allocate_other _ t2 uuid2 now2 s2 (SD.id s1) Hwf2 Hheld2 Hne Hres2).
  - intros calls t51 uuid51 now51 Hlen Hnd.
    destruct (allocate_each_fresh calls (SD.new_deployer 50)) as (d50 & Hrun & Hactive & Hmax).
    + constructor.
    + exact Hnd.
    + intros c _ Hin. simpl in Hin. inversion Hin.
    + simpl. unfold SD.map_size. simpl. lia.
    + simpl in Hactive, Hmax.
      assert (Hall : none_idle (SD.activeSubagents d50)).
      { rewrite Hactive. apply Forall_forall. intros e He.
        change (e ∈ (fun c => (call_uuid c, call_worker c)) <$> calls) in He.
        apply list_elem_of_fmap in He as (c & -> & _). simpl. discriminate. }
      exists d50. split; [exact Hrun|]. split.
      * apply allocate_at_capacity; [exact Hall|].
        rewrite Hmax, Hactive. unfold SD.map_size. rewrite length_map. lia.
      * intros c t' uuid' now' Hc.
        destruct (list_elem_of_split _ _ Hc) as (l1 & l2 & Hsplit).
        assert (Hm : SD.activeSubagents d50
                     = map (fun c => (call_uuid c, call_worker c)) l1
                       ++ (call_uuid c, call_worker c)
                       :: map (fun c => (call_uuid c, call_worker c)) l2).
        { rewrite Hactive, Hsplit, map_app. reflexivity. }
        eexists. split.
        -- apply (release_then_allocate d50 _ _ _ _ t' uuid' now' Hm).
           ++ apply Forall_forall. intros e He.
              change (e ∈ (fun c => (call_uuid c, call_worker c)) <$> l1) in He.
              apply list_elem_of_fmap in He as (c' & -> & _). simpl. discriminate.
           ++ rewrite map_map. simpl.
              rewrite Hsplit, map_app in Hnd. apply NoDup_app in Hnd as (_ & Hdisj & Hnd2).
              intros Hin. apply (Hdisj _ Hin). left.
        -- repeat split.
Qed.

(** ** The agent: commands *)

(** C4, counterexample.  A command is enqueued (retryCount 0) and
    [executeCommand] runs with the decision engine throwing: afterwards the
    task is pending with [retryCount] 1 and the oracle's message as its
    error, so the classification failure took the retry path and consumed
    one retry. *)
Lemma C4_oracle_failure_consumes_retry :
  let t := command_task "deploy worker" "t1" 10 in
  let a1 := exec (MCA.on_queue (enqueue (mkTaskData "command" "deploy worker" 5 "deploy worker"
                                                    None None None None None None) "t1" 10))
                 (new_agent 10) in
  let a2 := exec (MCA.executeCommand oracle_down t 20) a1 in
  task_of "t1" (MCA.taskQueue a1) = Some t
  /\ retryCount t = 0
  /\ (retryCount <$> task_of "t1" (MCA.taskQueue a2)) = Some 1
  /\ (status <$> task_of "t1" (MCA.taskQueue a2)) = Some pending
  /\ (error <$> task_of "t1" (MCA.taskQueue a2)) = Some (Some "OracleUnavailable").
Proof. repeat split. Qed.

Lemma start_spec (st : Storage) (i : string) (t0 : Task) (now : Z) :
  wf_storage st -> task_of i st = Some t0 ->
  result_of (updateStatus i in_progress None now) st = Returns tt
  /\ wf_storage (exec (updateStatus i in_progress None now) st)
  /\ kv (exec (updateStatus i in_progress None now) st) = kv st
  /\ exists t1,
       task_of i (exec (updateStatus i in_progress None now) st) = Some t1
       /\ status t1 = in_progress
       /\ retryCount t1 = retryCount t0 /\ maxRetries t1 = maxRetries t0.
Proof.
  intros Hwf Hget.
  destruct (updateStatus_found i in_progress None now st t0 Hget) as (t1 & Hrun & _ & _ & Hnone).
  destruct (Hnone eq_refl) as (Hs & Hid & Hp & Hc & Hr & Hm).
  unfold result_of, exec. rewrite Hrun. cbn [fst snd].
  split; [reflexivity|]. split; [|split; [reflexivity|]].
  - apply (sql_update_shape st i t0 t1 in_progress); assumption.
  - exists t1. rewrite task_of_update, Hget.
    rewrite bool_decide_eq_true_2 by reflexivity. repeat split; assumption.
Qed.

(** C4, as the code has it.  [executeCommand] has one [catch] for its whole
    [try] block, and it calls [TaskQueue.fail].  For a stored task, a throw
    of the decision engine and a throw of the category handler leave the
    queue in the very same state: the task was marked [in_progress] and
    then failed with the thrown message.  In that state, while
    [retryCount < maxRetries] held, the task is [pending] with [retryCount]
    increased by 1; otherwise it is [failed] with a dead-letter entry.  So
    a classification failure consumes retry budget exactly as a handler
    failure does; and so does a failure to notify the client after the
    handler succeeded. *)
Theorem C4_every_failure_takes_retry_path
        (w : MCA.World) (a : MCA.Agent) (t t0 : Task) (now : Z) (msg : string)
        (Hwf : wf_storage (MCA.taskQueue a))
        (Hstored : task_of (id t) (MCA.taskQueue a) = Some t0) :
  let started := exec (updateStatus (id t) in_progress None now) (MCA.taskQueue a) in
  let failed_q := exec (fail (id t) msg now) started in
  (MCA.analyze w (payload t) = Throws msg ->
   MCA.taskQueue (exec (MCA.executeCommand w t now) a) = failed_q)
  /\ (forall decision,
         MCA.analyze w (payload t) = Returns decision ->
         MCA.handle w (MCA.category decision) decision = Throws msg ->
         MCA.taskQueue (exec (MCA.executeCommand w t now) a) = failed_q)
  /\ (forall decision res,
         MCA.analyze w (payload t) = Returns decision ->
         MCA.handle w (MCA.category decision) decision = Returns res ->
         MCA.send w "task_completed" = Throws msg ->
         MCA.taskQueue (exec (MCA.executeCommand w t now) a)
         = exec (fail (id t) msg now) (exec (complete (id t) res now) started))
  /\ (retryCount t0 < maxRetries t0 ->
      exists t',
        result_of (getTask (id t)) failed_q = Returns (Some t')
        /\ status t' = pending
        /\ retryCount t' = retryCount t0 + 1
        /\ error t' = Some msg)
  /\ (~ retryCount t0 < maxRetries t0 ->
      (exists t',
          result_of (getTask (id t)) failed_q = Returns (Some t')
          /\ status t' = failed /\ error t' = Some msg)
      /\ exists e, dead_letter (id t) failed_q = Some e /\ dlq_error e = msg).
Proof.
  intros started failed_q.
  destruct (start_spec _ _ _ now Hwf Hstored) as (Hres & Hwf1 & Hkv1 & t1 & Ht1 & Hs1 & Hr1 & Hm1).
  fold started in Hwf1, Hkv1, Ht1.
  assert (Hstart : updateStatus (id t) in_progress None now (MCA.taskQueue a)
                   = (Returns tt, started)).
  { unfold result_of in Hres. unfold started, exec.
    destruct (updateStatus (id t) in_progress None now (MCA.taskQueue a)) as [r q'].
    simpl in *. congruence. }
  assert (Hfail : forall q, fail (id t) msg now q = (Returns tt, exec (fail (id t) msg now) q)).
  { intros q. unfold exec.
    destruct (task_of (id t) q) as [x|] eqn:Hx.
    - destruct (decide (retryCount x < maxRetries x)) as [Hlt|Hge].
      + rewrite (fail_retry _ _ _ _ _ Hx Hlt). reflexivity.
      + destruct (fail_terminal (id t) msg now q x Hx Hge) as (x' & Hrun & _).
        rewrite Hrun. reflexivity.
    - rewrite fail_missing by exact Hx. reflexivity. }
  split; [|split; [|split; [|split]]].
  - intros Hthrow.
    unfold MCA.executeCommand, MCA.executeCommand_start, MCA.executeCommand_rest,
      MCA.on_queue, MCA.connection_send, MCA.knowledge_learn, MCA.emit, MCA.external.
    run_m. rewrite Hstart. simpl. rewrite Hthrow. simpl.
    rewrite Hfail. simpl.
    destruct (MCA.send w "task_failed"); simpl; [|reflexivity].
    destruct (MCA.learn w false); reflexivity.
  - intros decision Hdec Hthrow.
    unfold MCA.executeCommand, MCA.executeCommand_start, MCA.executeCommand_rest,
      MCA.on_queue, MCA.connection_send, MCA.knowledge_learn, MCA.emit, MCA.external.
    run_m. rewrite Hstart. simpl. rewrite Hdec. simpl. rewrite Hthrow. simpl.
    rewrite Hfail. simpl.
    destruct (MCA.send w "task_failed"); simpl; [|reflexivity].
    destruct (MCA.learn w false); reflexivity.
  - intros decision res Hdec Hok Hsend.
    assert (Hcomplete : complete (id t) res now started
                        = (Returns tt, exec (complete (id t) res now) started)).
    { unfold complete, exec.
      destruct (updateStatus_found (id t) completed (Some (patch_result res)) now started t1 Ht1)
        as (t2 & Hrun & _).
      rewrite Hrun. reflexivity. }
    unfold MCA.executeCommand, MCA.executeCommand_start, MCA.executeCommand_rest,
      MCA.on_queue, MCA.connection_send, MCA.knowledge_learn, MCA.emit, MCA.external.
    run_m. rewrite Hstart. simpl. rewrite Hdec. simpl. rewrite Hok. simpl.
    rewrite Hcomplete. simpl. rewrite Hsend. simpl.
    rewrite Hfail. simpl.
    destruct (MCA.send w "task_failed"); simpl; [|reflexivity].
    destruct (MCA.learn w false); reflexivity.
  - intros Hlt.
    destruct (fail_retry_spec started (id t) t1 msg now Hwf1 Ht1 ltac:(lia))
      as (_ & _ & Ht' & _).
    fold failed_q in Ht'.
    eexists. rewrite result_getTask, Ht'. repeat split. simpl. lia.
  - intros Hge.
    destruct (fail_terminal_spec started (id t) t1 msg now Hwf1 Ht1 ltac:(lia))
      as (_ & _ & (t' & Ht' & Hs' & He' & _) & Hdlq & _).
    fold failed_q in Ht', Hdlq.
    split.
    + exists t'. rewrite result_getTask, Ht'. repeat split; assumption.
    + eexists. split; [exact Hdlq | reflexivity].
Qed.

(** ** The agent: the autonomous loop *)



Lemma getPending_number_eq (n : Z) (st : Storage) :
  MCA.getPending_number n st
  = (Returns (map row_payload
                  (sql_select_pending
                     (if n <? 0 then length (cf_agents_queues st) else Z.to_nat n) st)),
     st).
Proof.
  unfold MCA.getPending_number. destruct (n <? 0).
  - unfold bind, get_state. apply getPending_eq.
  - apply getPending_eq.
Qed.




(** C7, the code at the failing input.  [canProcessTask] looks at the
    active-task count only, never at the task.  In [blocked_agent], task
    "b" depends on "a", which is still pending, so
    [areDependenciesSatisfied] answers [false] for it; the tick passes "b"
    to [executeTask] all the same, right after "a". *)
Theorem C7_tick_dispatches_blocked_task :
  (forall t a, MCA.canProcessTask t a = (Returns (negb (at_capacity a)), a))
  /\ (exists b,
         task_of "b" (MCA.taskQueue blocked_agent) = Some b
         /\ dependencies b = Some ["a"]
         /\ (status <$> task_of "a" (MCA.taskQueue blocked_agent)) = Some pending
         /\ result_of (areDependenciesSatisfied b) (MCA.taskQueue blocked_agent) = Returns false
         /\ b ∈ MCA.dispatched
                  (MCA.events (exec (MCA.processAutonomousTasks calm_world 30) blocked_agent))).
Proof.
  split.
  - intros t a. unfold MCA.canProcessTask, at_capacity. run_m.
    destruct (MCA.maxConcurrentTasks (MCA.config a)
              <=? StateManager.tasksActive (StateManager.metrics (MCA.stateManager a)));
      reflexivity.
  - eexists. split; [reflexivity|]. split; [reflexivity|]. split; [reflexivity|].
    split; [reflexivity|]. right. left.
Qed.

(** ** The statements at concrete inputs *)

Lemma wf_retry_queue : wf_storage retry_queue.
Proof. unfold wf_storage, wf_row. by_computation. Defined.

(** C1 at [retry_queue]: the third failure of task "r1" dead-letters it. *)
Lemma C1_fail_retry_policy_witness :
  wf_storage retry_queue
  /\ result_of (getTask "r1") retry_queue = Returns (Some retry_task)
  /\ exists e,
       dead_letter "r1" (exec (fail "r1" "third" 4)
                              (exec (fail "r1" "second" 3)
                                    (exec (fail "r1" "first" 2) retry_queue))) = Some e
       /\ dlq_error e = "third".
Proof.
  split; [exact wf_retry_queue|]. split; [reflexivity|].
  destruct (C1_fail_retry_policy retry_queue "r1" retry_task wf_retry_queue eq_refl)
    as (_ & _ & Hscenario).
  destruct (Hscenario eq_refl eq_refl "first" "second" "third" 2 3 4) as (_ & _ & _ & Hdlq & _).
  exact Hdlq.
Defined.

Lemma wf_empty_storage : wf_storage empty_storage.
Proof. unfold wf_storage, wf_row. by_computation. Defined.


(** C8 at [spec_out_of_range] on the empty queue. *)
Lemma C8_enqueue_no_validation_witness :
  ("V1StGXR8" ∉ known_ids empty_storage)
  /\ exists t,
       enqueue spec_out_of_range "V1StGXR8" 1700000000000 empty_storage
       = (Returns t, set_table (cf_agents_queues empty_storage ++ [row_of t]) empty_storage)
       /\ priority t = 11 /\ maxRetries t = -1 /\ status t = pending.
Proof.
  split; [apply not_elem_of_nil|].
  destruct (C8_enqueue_no_validation spec_out_of_range "V1StGXR8" 1700000000000 empty_storage)
    as [Hfresh _].
  destruct (Hfresh (not_elem_of_nil _)) as (t & Hrun & _ & _ & Hs & _ & _ & Hp & Hm).
  exists t. split; [exact Hrun|]. split; [exact Hp|]. split; [exact Hm | exact Hs].
Defined.

(** C10 at [zero_retries_spec] on the empty queue. *)
Lemma C10_explicit_zero_maxRetries_witness :
  wf_storage empty_storage
  /\ td_maxRetries zero_retries_spec = Some 0
  /\ result_of (enqueue zero_retries_spec "z1" 1) empty_storage
     = Returns (new_task zero_retries_spec "z1" 1)
  /\ maxRetries (new_task zero_retries_spec "z1" 1) = 3.
Proof.
  split; [exact wf_empty_storage|]. split; [reflexivity|]. split; [reflexivity|].
  exact (proj1 (C10_explicit_zero_maxRetries zero_retries_spec "z1" 1 empty_storage
                  (new_task zero_retries_spec "z1" 1) wf_empty_storage eq_refl eq_refl)).
Defined.

Lemma wf_deps_queue : wf_storage deps_queue.
Proof. unfold wf_storage, wf_row. by_computation. Defined.

(** C9 at [deps_queue]: a task that waits for the completed "d1" is
    cleared; one that also waits for the pending "d2", or for an id the
    table does not hold, is not. *)
Lemma C9_areDependenciesSatisfied_witness :
  wf_storage deps_queue
  /\ stored_completed deps_queue "d1"
  /\ ~ stored_completed deps_queue "d2"
  /\ ("ghost" ∉ known_ids deps_queue)
  /\ areDependenciesSatisfied (waiting_on ["d1"]) deps_queue = (Returns true, deps_queue)
  /\ areDependenciesSatisfied (waiting_on ["d1"; "d2"]) deps_queue = (Returns false, deps_queue)
  /\ areDependenciesSatisfied (waiting_on ["d1"; "ghost"]) deps_queue
     = (Returns false, deps_queue).
Proof.
  assert (Hd1 : stored_completed deps_queue "d1").
  { apply (lookup_completed deps_queue "d1" wf_deps_queue). eexists. split; reflexivity. }
  assert (Hd2 : ~ stored_completed deps_queue "d2").
  { intros H. apply (lookup_completed deps_queue "d2" wf_deps_queue) in H as (d & Hget & Hs).
    cbv in Hget. injection Hget as <-. discriminate Hs. }
  assert (Hghost : "ghost" ∉ known_ids deps_queue) by by_computation.
  split; [exact wf_deps_queue|]. split; [exact Hd1|]. split; [exact Hd2|].
  split; [exact Hghost|]. split; [|split].
  - destruct (C9_areDependenciesSatisfied (waiting_on ["d1"]) deps_queue wf_deps_queue)
      as (b & Hrun & Hiff & _).
    rewrite Hrun. f_equal. f_equal. apply Hiff. repeat constructor. exact Hd1.
  - destruct (C9_areDependenciesSatisfied (waiting_on ["d1"; "d2"]) deps_queue wf_deps_queue)
      as (b & Hrun & Hiff & _).
    rewrite Hrun. f_equal. f_equal. destruct b; [|reflexivity].
    exfalso. apply Hd2.
    assert (Hall : Forall (stored_completed deps_queue) ["d1"; "d2"]) by (apply Hiff; reflexivity).
    inversion Hall as [|? ? _ Hrest]. inversion Hrest. assumption.
  - destruct (C9_areDependenciesSatisfied (waiting_on ["d1"; "ghost"]) deps_queue wf_deps_queue)
      as (b & Hrun & _ & Hunknown & _).
    rewrite Hrun. f_equal. f_equal. apply (Hunknown "ghost"); [|exact Hghost].
    right. left.
Defined.

(** C6 at [idle_pool], five minutes and one millisecond after the last
    heartbeat. *)
Lemma C6_healthCheck_heartbeat_witness :
  SD.map_get "a1" (SD.activeSubagents idle_pool) = Some idle_worker
  /\ SD.map_get "a1" (SD.activeSubagents (exec (SD.healthCheck 300001) idle_pool))
     = Some (SD.set_status SD.error idle_worker).
Proof.
  split; [reflexivity|].
  destruct (C6_healthCheck_heartbeat idle_pool "a1" idle_worker 300001 eq_refl)
    as (_ & Hstale & _).
  apply Hstale. reflexivity.
Defined.

Lemma wf_idle_pool : wf_pool (SD.activeSubagents idle_pool).
Proof. unfold wf_pool. by_computation. Defined.

Lemma fifty_calls_distinct : NoDup (map call_uuid fifty_calls).
Proof. by_computation. Defined.

(** C5 at [idle_pool], whose idle subagent is claimed, and at
    [fifty_calls], which fill a new deployer. *)
Lemma C5_allocate_witness :
  wf_pool (SD.activeSubagents idle_pool)
  /\ (exists pre k s post,
         SD.activeSubagents idle_pool = pre ++ (k, s) :: post
         /\ result_of (SD.allocate retry_task "u2" 400000) idle_pool
            = Returns (SD.mkSubagentInfo (SD.id s) (SD.type s) (SD.name s) SD.active
                                         (Some "r1") (SD.deployedAt s) (SD.lastHeartbeat s)))
  /\ length fifty_calls = 50%nat
  /\ NoDup (map call_uuid fifty_calls)
  /\ exists d50,
       allocate_each fifty_calls (SD.new_deployer 50)
       = (map (fun c => Returns (call_worker c)) fifty_calls, d50)
       /\ SD.allocate retry_task "uuid-50" 50 d50
          = (Throws "No available subagents and at capacity", d50).
Proof.
  split; [exact wf_idle_pool|].
  destruct (C5_allocate idle_pool retry_task "u2" 400000 wf_idle_pool)
    as (_ & Hclaim & _ & _ & Hfill).
  split; [|split; [reflexivity|split; [exact fifty_calls_distinct|]]].
  - destruct Hclaim as (pre & k & s & post & Hm & _ & _ & Hres & _).
    + left. reflexivity.
    + exists pre, k, s, post. split; [exact Hm | exact Hres].
  - destruct (Hfill fifty_calls retry_task "uuid-50" 50 eq_refl fifty_calls_distinct)
      as (d50 & Hrun & Hfull & _).
    exists d50. split; [exact Hrun | exact Hfull].
Defined.

Lemma wf_waiting_agent : wf_storage (MCA.taskQueue waiting_agent).
Proof. unfold wf_storage, wf_row. by_computation. Defined.

(** C4 at [waiting_agent] with the decision engine unreachable. *)
Lemma C4_every_failure_takes_retry_path_witness :
  wf_storage (MCA.taskQueue waiting_agent)
  /\ task_of "t1" (MCA.taskQueue waiting_agent) = Some (command_task "deploy worker" "t1" 10)
  /\ MCA.taskQueue (exec (MCA.executeCommand oracle_down
                                             (command_task "deploy worker" "t1" 10) 20)
                         waiting_agent)
     = exec (fail "t1" "OracleUnavailable" 20)
            (exec (updateStatus "t1" in_progress None 20) (MCA.taskQueue waiting_agent)).
Proof.
  split; [exact wf_waiting_agent|]. split; [reflexivity|].
  destruct (C4_every_failure_takes_retry_path
              oracle_down waiting_agent
              (command_task "deploy worker" "t1" 10) (command_task "deploy worker" "t1" 10)
              20 "OracleUnavailable" wf_waiting_agent eq_refl) as (Horacle & _).
  apply Horacle. reflexivity.
Defined.

(** * Further properties of the queue *)

(** ** What a call writes back *)

Lemma updateStatus_explicit (i : string) (s : TaskStatus) (data : option TaskPatch) (now : Z)
      (st : Storage) (t : Task) :
  task_of i st = Some t ->
  updateStatus i s data now st
  = (Returns tt,
     exec (sql_update i (match data with
                         | Some d => assign (stamp s now t) d
                         | None => stamp s now t
                         end) s) st).
Proof.
  intros Hget. unfold updateStatus, bind at 1. rewrite getTask_eq, Hget. reflexivity.
Qed.

Lemma task_of_set_kv (j : string) (m : gmap string DLQEntry) (st : Storage) :
  task_of j (set_kv m st) = task_of j st.
Proof. reflexivity. Qed.

Lemma fail_terminal_explicit (i err : string) (now : Z) (st : Storage) (t : Task) :
  task_of i st = Some t -> ~ retryCount t < maxRetries t ->
  fail i err now st
  = (Returns tt,
     set_kv (<[ "dlq:" +:+ id t := mkDLQEntry (id t) t err now ]> (kv st))
            (exec (sql_update i (assign (stamp failed now t) (patch_error err)) failed) st)).
Proof.
  intros Hget Hge. unfold fail, bind at 1. rewrite getTask_eq, Hget.
  apply Z.ltb_nlt in Hge. rewrite Hge.
  unfold bind. rewrite (updateStatus_explicit _ _ _ _ _ _ Hget). reflexivity.
Qed.

(** The lookup of any id after a call that addresses task [i]. *)
Lemma task_after_call (op : QueueOp) (i j : string) (st : Storage) :
  addressed op = Some i ->
  task_of j (apply_op op st)
  = if bool_decide (j = i) then next_task op <$> task_of j st else task_of j st.
Proof.
  intros Hop.
  assert (Hunchanged : (if bool_decide (j = i) then next_task op <$> task_of j st else task_of j st)
                       = task_of j st \/ task_of i st <> None).
  { destruct (task_of i st) eqn:Hi; [right; discriminate|]. left.
    destruct (bool_decide (j = i)) eqn:Hji; [|reflexivity].
    apply bool_decide_eq_true in Hji. subst j. rewrite Hi. reflexivity. }
  assert (Hwrite : forall t t' s,
             task_of i st = Some t -> t' = next_task op t ->
             task_of j (exec (sql_update i t' s) st)
             = if bool_decide (j = i) then next_task op <$> task_of j st else task_of j st).
  { intros t t' s Hi ->. rewrite task_of_update.
    destruct (bool_decide (j = i)) eqn:Hji; [|reflexivity].
    apply bool_decide_eq_true in Hji. subst j. rewrite Hi. reflexivity. }
  destruct op as [td nano now|i' now|i' res now|i' err now|days now];
    simpl in Hop; try discriminate; injection Hop as ->; simpl apply_op.
  - destruct (task_of i st) as [t|] eqn:Hi.
    + unfold exec at 1. rewrite (updateStatus_explicit _ _ _ _ _ _ Hi). cbn [snd].
      apply (Hwrite t); reflexivity.
    + unfold exec. rewrite updateStatus_missing by exact Hi. cbn [snd].
      destruct Hunchanged as [->|Hne]; [reflexivity | congruence].
  - unfold complete. destruct (task_of i st) as [t|] eqn:Hi.
    + unfold exec at 1. rewrite (updateStatus_explicit _ _ _ _ _ _ Hi). cbn [snd].
      apply (Hwrite t); reflexivity.
    + unfold exec. rewrite updateStatus_missing by exact Hi. cbn [snd].
      destruct Hunchanged as [->|Hne]; [reflexivity | congruence].
  - destruct (task_of i st) as [t|] eqn:Hi.
    + destruct (decide (retryCount t < maxRetries t)) as [Hlt|Hge].
      * unfold exec at 1. rewrite (fail_retry _ _ _ _ _ Hi Hlt). cbn [snd].
        apply (Hwrite t); [reflexivity|]. simpl.
        apply Z.ltb_lt in Hlt. rewrite Hlt. reflexivity.
      * unfold exec at 1. rewrite (fail_terminal_explicit _ _ _ _ _ Hi Hge). cbn [snd].
        rewrite task_of_set_kv. apply (Hwrite t); [reflexivity|]. simpl.
        apply Z.ltb_nlt in Hge. rewrite Hge. reflexivity.
    + unfold exec. rewrite fail_missing by exact Hi. cbn [snd].
      destruct Hunchanged as [->|Hne]; [reflexivity | congruence].
Qed.

Lemma select_by_id_app (j : string) (q1 q2 : list Row) (m : gmap string DLQEntry) :
  sql_select_by_id j (mkStorage (q1 ++ q2) m)
  = sql_select_by_id j (mkStorage q1 m) ++ sql_select_by_id j (mkStorage q2 m).
Proof. unfold sql_select_by_id. simpl. apply filter_app. Qed.

Lemma select_unknown (j : string) (st : Storage) :
  j ∉ known_ids st -> sql_select_by_id j st = [].
Proof.
  intros Hj. unfold sql_select_by_id.
  destruct (filter (fun r => has_id j r = true) (cf_agents_queues st)) as [|r rest] eqn:Hf;
    [reflexivity|].
  exfalso. apply Hj.
  assert (Hin : r ∈ filter (fun r => has_id j r = true) (cf_agents_queues st))
    by (rewrite Hf; left).
  apply list_elem_of_filter in Hin as [Hid Hin]. apply has_id_true in Hid. subst j.
  unfold known_ids. apply list_elem_of_In, in_map, list_elem_of_In, Hin.
Qed.

Lemma task_after_enqueue (taskData : TaskData) (nano : string) (now : Z) (j : string)
      (st : Storage) :
  nano ∉ known_ids st ->
  task_of j (exec (enqueue taskData nano now) st)
  = if bool_decide (j = nano) then Some (new_task taskData nano now) else task_of j st.
Proof.
  intros Hfresh. unfold exec. rewrite enqueue_fresh by exact Hfresh. cbn [snd].
  unfold task_of, set_table. destruct st as [q m]. simpl.
  rewrite select_by_id_app.
  destruct (bool_decide (j = nano)) eqn:Hj.
  - apply bool_decide_eq_true in Hj. subst j.
    rewrite (select_unknown nano (mkStorage q m) Hfresh). simpl.
    unfold sql_select_by_id. simpl. rewrite filter_cons.
    destruct (decide (has_id nano (row_of (new_task taskData nano now)) = true)) as [_|Hn];
      [reflexivity|].
    exfalso. apply Hn. apply has_id_true. reflexivity.
  - apply bool_decide_eq_false in Hj.
    assert (Hnil : sql_select_by_id j (mkStorage [row_of (new_task taskData nano now)] m) = []).
    { unfold sql_select_by_id. simpl. rewrite filter_cons.
      destruct (decide (has_id j (row_of (new_task taskData nano now)) = true)) as [Hy|_];
        [|reflexivity].
      apply has_id_true in Hy. simpl in Hy. congruence. }
    rewrite Hnil, app_nil_r. reflexivity.
Qed.

Lemma expired_row (days now : Z) (r : Row) :
  wf_row r ->
  (is_finished r && (row_created_at r <? cleanup_cutoff days now))
  = expired (cleanup_cutoff days now) (row_payload r).
Proof.
  intros (_ & _ & Hs & Hc). unfold is_finished, expired. rewrite Hs, Hc. reflexivity.
Qed.

Lemma cleanup_table (days now : Z) (st : Storage) :
  cf_agents_queues (exec (cleanup days now) st)
  = filter (fun r => (is_finished r && (row_created_at r <? cleanup_cutoff days now)) = false)
           (cf_agents_queues st).
Proof. reflexivity. Qed.

Lemma task_after_cleanup (days now : Z) (j : string) (st : Storage) :
  wf_storage st ->
  task_of j (exec (cleanup days now) st)
  = match task_of j st with
    | Some t => if expired (cleanup_cutoff days now) t then None else Some t
    | None => None
    end.
Proof.
  intros Hwf.
  pose proof (apply_op_shape (Cleanup days now) st Hwf) as [Hwf' _]. simpl in Hwf'.
  destruct (task_of j st) as [t|] eqn:Hj.
  - destruct (task_of_row _ _ _ Hj) as (r & Hin & Hid & Hpay).
    assert (Hwr : wf_row r).
    { destruct Hwf as [Hrows _]. rewrite Forall_forall in Hrows. apply Hrows, Hin. }
    rewrite <- Hpay, <- (expired_row days now r Hwr).
    destruct (is_finished r && (row_created_at r <? cleanup_cutoff days now)) eqn:Hx.
    + destruct (task_of j (exec (cleanup days now) st)) as [t'|] eqn:Hj'; [|reflexivity].
      exfalso. destruct (task_of_row _ _ _ Hj') as (r' & Hin' & Hid' & _).
      rewrite cleanup_table in Hin'. apply list_elem_of_filter in Hin' as [Hkeep Hin'].
      destruct Hwf as [_ Hnd].
      rewrite (unique_by_key row_id _ r' r Hnd Hin' Hin) in Hkeep by congruence.
      congruence.
    + rewrite <- Hid. apply row_task_of; [exact Hwf'|].
      rewrite cleanup_table. apply list_elem_of_filter. split; assumption.
  - destruct (task_of j (exec (cleanup days now) st)) as [t'|] eqn:Hj'; [|reflexivity].
    exfalso. destruct (task_of_row _ _ _ Hj') as (r' & Hin' & Hid' & _).
    rewrite cleanup_table in Hin'. apply list_elem_of_filter in Hin' as [_ Hin'].
    rewrite <- Hid', (row_task_of st r' Hwf Hin') in Hj. discriminate.
Qed.

(** ** Invariants of stored tasks *)

Lemma task_step (op : QueueOp) (i : string) (st : Storage) (t' : Task) :
  wf_storage st ->
  task_of i (apply_op op st) = Some t' ->
  (exists t, task_of i st = Some t /\ (t' = t \/ t' = next_task op t))
  \/ (exists taskData now, op = Enqueue taskData i now /\ t' = new_task taskData i now).
Proof.
  intros Hwf Hafter.
  destruct op as [td nano now|j now|j res now|j err now|days now].
  - simpl in Hafter. destruct (decide (nano ∈ known_ids st)) as [Hin|Hfresh].
    + unfold exec in Hafter. rewrite enqueue_taken in Hafter by exact Hin. simpl in Hafter.
      left. exists t'. split; [exact Hafter | left; reflexivity].
    + rewrite task_after_enqueue in Hafter by exact Hfresh.
      destruct (bool_decide (i = nano)) eqn:Hi.
      * apply bool_decide_eq_true in Hi. subst nano. injection Hafter as <-.
        right. exists td, now. split; reflexivity.
      * left. exists t'. split; [exact Hafter | left; reflexivity].
  - rewrite (task_after_call (Start j now) j i st eq_refl) in Hafter.
    destruct (bool_decide (i = j)); [|left; exists t'; split; [exact Hafter | left; reflexivity]].
    destruct (task_of i st) as [t|]; [|discriminate]. simpl in Hafter. injection Hafter as <-.
    left. exists t. split; [reflexivity | right; reflexivity].
  - rewrite (task_after_call (Complete j res now) j i st eq_refl) in Hafter.
    destruct (bool_decide (i = j)); [|left; exists t'; split; [exact Hafter | left; reflexivity]].
    destruct (task_of i st) as [t|]; [|discriminate]. simpl in Hafter. injection Hafter as <-.
    left. exists t. split; [reflexivity | right; reflexivity].
  - rewrite (task_after_call (Fail j err now) j i st eq_refl) in Hafter.
    destruct (bool_decide (i = j)); [|left; exists t'; split; [exact Hafter | left; reflexivity]].
    destruct (task_of i st) as [t|]; [|discriminate]. simpl in Hafter. injection Hafter as <-.
    left. exists t. split; [reflexivity | right; reflexivity].
  - simpl in Hafter. rewrite task_after_cleanup in Hafter by exact Hwf.
    destruct (task_of i st) as [t|]; [|discriminate].
    destruct (expired (cleanup_cutoff days now) t); [discriminate|]. injection Hafter as <-.
    left. exists t. split; [reflexivity | left; reflexivity].
Qed.

(** A property of one task that every write-back keeps holds for as long
    as the task is stored. *)
Lemma task_invariant (P : Task -> Prop) (i : string) (ops : list QueueOp) (st : Storage) :
  (forall op t, P t -> P (next_task op t)) ->
  wf_storage st -> never_reissues i ops ->
  (forall t, task_of i st = Some t -> P t) ->
  forall t', task_of i (apply_ops ops st) = Some t' -> P t'.
Proof.
  intros Hkeep. revert st. induction ops as [|op ops IH]; intros st Hwf Hops Hnow t' Hafter.
  - apply Hnow, Hafter.
  - inversion Hops as [|? ? Hop Hrest]; subst.
    apply (IH (apply_op op st)); [apply apply_op_shape, Hwf | exact Hrest | | exact Hafter].
    intros t1 Ht1.
    destruct (task_step op i st t1 Hwf Ht1) as [(t & Ht & [->| ->])|(td & now & -> & _)].
    + apply Hnow, Ht.
    + apply Hkeep, Hnow, Ht.
    + exfalso. apply Hop. reflexivity.
Qed.

(** A property that new tasks have and every write-back keeps holds for
    every stored task. *)
Lemma all_tasks_invariant (P : Task -> Prop) (ops : list QueueOp) (st : Storage) :
  (forall taskData nano now, P (new_task taskData nano now)) ->
  (forall op t, P t -> P (next_task op t)) ->
  wf_storage st ->
  (forall i t, task_of i st = Some t -> P t) ->
  forall i t, task_of i (apply_ops ops st) = Some t -> P t.
Proof.
  intros Hnew Hkeep. revert st. induction ops as [|op ops IH]; intros st Hwf Hnow i t' Hafter.
  - apply (Hnow i), Hafter.
  - apply (IH (apply_op op st)) with (i := i); [apply apply_op_shape, Hwf | | exact Hafter].
    intros j t1 Ht1.
    destruct (task_step op j st t1 Hwf Ht1) as [(t & Ht & [->| ->])|(td & now & -> & ->)].
    + apply (Hnow j), Ht.
    + apply Hkeep, (Hnow j), Ht.
    + apply Hnew.
Qed.

Lemma stamp_fields (s : TaskStatus) (now : Z) (t : Task) :
  id (stamp s now t) = id t /\ type (stamp s now t) = type t
  /\ description (stamp s now t) = description t /\ priority (stamp s now t) = priority t
  /\ payload (stamp s now t) = payload t /\ createdAt (stamp s now t) = createdAt t
  /\ retryCount (stamp s now t) = retryCount t /\ maxRetries (stamp s now t) = maxRetries t
  /\ dependencies (stamp s now t) = dependencies t /\ status (stamp s now t) = s
  /\ result (stamp s now t) = result t /\ error (stamp s now t) = error t.
Proof.
  unfold stamp.
  destruct (bool_decide (s = in_progress) && js_not (startedAt (set_status s t)));
    [repeat split|].
  destruct ((bool_decide (s = completed) || bool_decide (s = failed))
            && js_not (completedAt (set_status s t))); repeat split.
Qed.

Lemma stamp_started (s : TaskStatus) (now v : Z) (t : Task) :
  v <> 0 -> startedAt t = Some v -> startedAt (stamp s now t) = Some v.
Proof.
  intros Hv Hs. unfold stamp. simpl. rewrite Hs. simpl.
  apply Z.eqb_neq in Hv. rewrite Hv, andb_false_r.
  destruct ((bool_decide (s = completed) || bool_decide (s = failed)) && js_not (completedAt t));
    exact Hs.
Qed.

Lemma stamp_completed (s : TaskStatus) (now v : Z) (t : Task) :
  v <> 0 -> completedAt t = Some v -> completedAt (stamp s now t) = Some v.
Proof.
  intros Hv Hc. unfold stamp. simpl. rewrite Hc. simpl.
  apply Z.eqb_neq in Hv. rewrite Hv, andb_false_r.
  destruct (bool_decide (s = in_progress) && js_not (startedAt t)); exact Hc.
Qed.

(** X1. After [enqueue] has accepted a specification, the returned task is
    the one [getTask] delivers for the new id, every other lookup answers
    as before, and no dead letter is written. *)
Theorem X1_enqueue_then_getTask
        (taskData : TaskData) (nano : string) (now : Z) (st : Storage)
        (Hfresh : nano ∉ known_ids st) :
  result_of (enqueue taskData nano now) st = Returns (new_task taskData nano now)
  /\ result_of (getTask nano) (exec (enqueue taskData nano now) st)
     = Returns (Some (new_task taskData nano now))
  /\ (forall j, j <> nano ->
                result_of (getTask j) (exec (enqueue taskData nano now) st)
                = result_of (getTask j) st)
  /\ kv (exec (enqueue taskData nano now) st) = kv st.
Proof.
  split; [|split; [|split]].
  - unfold result_of. rewrite enqueue_fresh by exact Hfresh. reflexivity.
  - rewrite result_getTask, task_after_enqueue by exact Hfresh.
    rewrite bool_decide_eq_true_2 by reflexivity. reflexivity.
  - intros j Hj. rewrite !result_getTask, task_after_enqueue by exact Hfresh.
    rewrite bool_decide_eq_false_2 by exact Hj. reflexivity.
  - unfold exec. rewrite enqueue_fresh by exact Hfresh. reflexivity.
Qed.

(** X2. For an id that is not in the table, [updateStatus] and [complete]
    throw "Task not found: <id>", while [fail] returns normally; none of
    the three changes the table or the dead letters. *)
Theorem X2_calls_on_a_missing_task
        (i : string) (st : Storage)
        (Hmissing : result_of (getTask i) st = Returns None) :
  (forall s data now,
      updateStatus i s data now st = (Throws ("Task not found: " +:+ i), st))
  /\ (forall res now, complete i res now st = (Throws ("Task not found: " +:+ i), st))
  /\ (forall err now, fail i err now st = (Returns tt, st)).
Proof.
  rewrite result_getTask in Hmissing. injection Hmissing as Hmissing.
  split; [|split].
  - intros s data now. apply updateStatus_missing, Hmissing.
  - intros res now. apply updateStatus_missing, Hmissing.
  - intros err now. apply fail_missing, Hmissing.
Qed.

(** X3. [startedAt] and [completedAt] are written once: a task whose
    [startedAt] (or [completedAt]) holds a non-zero time keeps that value
    through every later call on the queue, retries and re-runs included,
    for as long as it is stored.  A task without [startedAt] gets the time
    of the [updateStatus(id, "in_progress")] call that starts it. *)
Theorem X3_timestamps_written_once
        (st : Storage) (i : string) (t : Task) (v : Z) (ops : list QueueOp)
        (Hwf : wf_storage st)
        (Hget : task_of i st = Some t)
        (Hv : v <> 0)
        (Hops : never_reissues i ops) :
  (startedAt t = Some v ->
   forall t', task_of i (apply_ops ops st) = Some t' -> startedAt t' = Some v)
  /\ (completedAt t = Some v ->
      forall t', task_of i (apply_ops ops st) = Some t' -> completedAt t' = Some v)
  /\ (startedAt t = None ->
      startedAt <$> task_of i (apply_op (Start i v) st) = Some (Some v)).
Proof.
  split; [|split].
  - intros Hs. apply (task_invariant (fun x => startedAt x = Some v) i ops st); try assumption.
    + intros op x Hx. destruct op as [| | |j err now|]; simpl; try exact Hx.
      * apply stamp_started; assumption.
      * apply (stamp_started completed) with (now := now) in Hx; [|exact Hv].
        simpl. exact Hx.
      * destruct (retryCount x <? maxRetries x); [exact Hx|].
        apply (stamp_started failed) with (now := now) in Hx; [|exact Hv].
        simpl. exact Hx.
    + intros x Hx. congruence.
  - intros Hc. apply (task_invariant (fun x => completedAt x = Some v) i ops st); try assumption.
    + intros op x Hx. destruct op as [| | |j err now|]; simpl; try exact Hx.
      * apply stamp_completed; assumption.
      * apply (stamp_completed completed) with (now := now) in Hx; [|exact Hv].
        simpl. exact Hx.
      * destruct (retryCount x <? maxRetries x); [exact Hx|].
        apply (stamp_completed failed) with (now := now) in Hx; [|exact Hv].
        simpl. exact Hx.
    + intros x Hx. congruence.
  - intros Hnone. rewrite (task_after_call (Start i v) i i st eq_refl), Hget.
    rewrite bool_decide_eq_true_2 by reflexivity. simpl.
    unfold stamp. simpl. rewrite Hnone. reflexivity.
Qed.

(** X4. What a stored task was created with never changes: its id, type,
    description, priority, payload, [createdAt], [maxRetries] and
    dependencies are the same after any later calls on the queue, and its
    [retryCount] never decreases. *)
Theorem X4_creation_fields_are_kept
        (st : Storage) (i : string) (t t' : Task) (ops : list QueueOp)
        (Hwf : wf_storage st)
        (Hget : task_of i st = Some t)
        (Hops : never_reissues i ops)
        (Hafter : task_of i (apply_ops ops st) = Some t') :
  id t' = id t /\ type t' = type t /\ description t' = description t
  /\ priority t' = priority t /\ payload t' = payload t /\ createdAt t' = createdAt t
  /\ maxRetries t' = maxRetries t /\ dependencies t' = dependencies t
  /\ retryCount t <= retryCount t'.
Proof.
  apply (task_invariant
           (fun x => id x = id t /\ type x = type t /\ description x = description t
                     /\ priority x = priority t /\ payload x = payload t
                     /\ createdAt x = createdAt t /\ maxRetries x = maxRetries t
                     /\ dependencies x = dependencies t /\ retryCount t <= retryCount x)
           i ops st); try assumption.
  - intros op x (H1 & H2 & H3 & H4 & H5 & H6 & H7 & H8 & H9).
    destruct op as [| |j res now|j err now|]; simpl; try (repeat split; assumption).
    + destruct (stamp_fields in_progress now x)
        as (S1 & S2 & S3 & S4 & S5 & S6 & S7 & S8 & S9 & _).
      repeat split; congruence.
    + destruct (stamp_fields completed now x)
        as (S1 & S2 & S3 & S4 & S5 & S6 & S7 & S8 & S9 & _).
      repeat split; simpl; congruence.
    + destruct (retryCount x <? maxRetries x).
      * repeat split; simpl; try assumption. lia.
      * destruct (stamp_fields failed now x)
          as (S1 & S2 & S3 & S4 & S5 & S6 & S7 & S8 & S9 & _).
        repeat split; simpl; congruence.
  - intros x Hx. assert (x = t) by congruence. subst x. repeat split. lia.
Qed.

(** X5. In every queue the agent's calls build from the empty table, a
    stored task has [maxRetries <> 0] (an absent or zero value was replaced
    by 3) and [0 <= retryCount <= max 0 maxRetries]: a task is re-queued at
    most [maxRetries] times. *)
Theorem X5_retry_budget_is_bounded (ops : list QueueOp) (i : string) (t : Task) :
  task_of i (apply_ops ops empty_storage) = Some t ->
  maxRetries t <> 0 /\ 0 <= retryCount t /\ retryCount t <= Z.max 0 (maxRetries t).
Proof.
  apply (all_tasks_invariant
           (fun x => maxRetries x <> 0 /\ 0 <= retryCount x
                     /\ retryCount x <= Z.max 0 (maxRetries x))
           ops empty_storage).
  - intros td nano now. simpl. unfold js_or.
    destruct (td_maxRetries td) as [m|]; [|lia].
    destruct (m =? 0) eqn:Hm; [lia|]. apply Z.eqb_neq in Hm. lia.
  - intros op x (Hm & H0 & Hle).
    destruct op as [| |j res now|j err now|]; simpl; try (repeat split; assumption).
    + destruct (stamp_fields in_progress now x) as (_ & _ & _ & _ & _ & _ & S7 & S8 & _).
      rewrite S7, S8. repeat split; assumption.
    + destruct (stamp_fields completed now x) as (_ & _ & _ & _ & _ & _ & S7 & S8 & _).
      simpl. rewrite S7, S8. repeat split; assumption.
    + destruct (retryCount x <? maxRetries x) eqn:Hlt.
      * apply Z.ltb_lt in Hlt. simpl. repeat split; [assumption | lia | lia].
      * destruct (stamp_fields failed now x) as (_ & _ & _ & _ & _ & _ & S7 & S8 & _).
        simpl. rewrite S7, S8. repeat split; assumption.
  - split; [constructor | apply NoDup_nil_2].
  - intros j x Hx. discriminate.
Qed.

(** ** Completeness of [getPending], and [getRecent] *)

Section Sorting.
Context {A : Type} (leb : A -> A -> bool).
Hypothesis leb_total : forall a b, leb a b = false -> leb b a = true.
Hypothesis leb_trans : forall a b c, leb a b = true -> leb b c = true -> leb a c = true.

Lemma insert_by_perm (x : A) (l : list A) : insert_by leb x l ≡ₚ x :: l.
Proof.
  induction l as [|y rest IH]; simpl; [reflexivity|].
  destruct (leb x y); [reflexivity|].
  rewrite IH. apply perm_swap.
Qed.

Lemma sort_by_perm (l : list A) : sort_by leb l ≡ₚ l.
Proof.
  induction l as [|x rest IH]; simpl; [reflexivity|].
  rewrite insert_by_perm, IH. reflexivity.
Qed.

Lemma insert_by_sorted (x : A) (l : list A) :
  StronglySorted (fun a b => leb a b = true) l ->
  StronglySorted (fun a b => leb a b = true) (insert_by leb x l).
Proof.
  induction l as [|y rest IH]; intros Hs; simpl.
  - repeat constructor.
  - inversion Hs as [|? ? Hrest Hall]; subst.
    destruct (leb x y) eqn:Hxy.
    + constructor; [exact Hs|]. constructor; [exact Hxy|].
      eapply List.Forall_impl; [|exact Hall].
      intros z Hz. exact (leb_trans _ _ _ Hxy Hz).
    + constructor; [apply IH; exact Hrest|].
      rewrite insert_by_perm. constructor; [apply leb_total; exact Hxy | exact Hall].
Qed.

Lemma sort_by_sorted (l : list A) : StronglySorted (fun a b => leb a b = true) (sort_by leb l).
Proof.
  induction l as [|x rest IH]; simpl; [constructor|].
  apply insert_by_sorted, IH.
Qed.
End Sorting.

(** X6. In every queue the agent's calls build from the empty table,
    [getPending] with a limit that covers the table returns exactly the
    stored tasks whose own status is [pending]: none is missed, and no task
    with another status is returned. *)
Theorem X6_getPending_returns_all_pending (ops : list QueueOp) (limit : nat) (t : Task) :
  (length (cf_agents_queues (apply_ops ops empty_storage)) <= limit)%nat ->
  exists l,
    result_of (getPending limit) (apply_ops ops empty_storage) = Returns l
    /\ (t ∈ l <-> exists i, result_of (getTask i) (apply_ops ops empty_storage) = Returns (Some t)
                            /\ status t = pending).
Proof.
  intros Hlimit. set (st := apply_ops ops empty_storage) in *.
  assert (Hwf : wf_storage st).
  { apply apply_ops_wf. split; [constructor | apply NoDup_nil_2]. }
  eexists. split; [reflexivity|].
  unfold sql_select_pending.
  rewrite take_ge.
  2:{ rewrite (Permutation_length (order_by_perm _)).
      etransitivity; [apply length_filter | exact Hlimit]. }
  change (t ∈ row_payload <$> order_by_priority_created
                (filter (fun r => is_pending r = true) (cf_agents_queues st))
          <-> exists i, result_of (getTask i) st = Returns (Some t) /\ status t = pending).
  rewrite list_elem_of_fmap. split.
  - intros (r & -> & Hr). rewrite order_by_perm in Hr.
    apply list_elem_of_filter in Hr as [Hp Hin].
    exists (row_id r). rewrite result_getTask, (row_task_of st r Hwf Hin).
    split; [reflexivity|].
    destruct Hwf as [Hrows _]. rewrite Forall_forall in Hrows.
    destruct (Hrows r Hin) as (_ & _ & Hs & _).
    unfold is_pending in Hp. apply bool_decide_eq_true in Hp. congruence.
  - intros (i & Hget & Hs). rewrite result_getTask in Hget. injection Hget as Hget.
    destruct (task_of_row _ _ _ Hget) as (r & Hin & _ & Hpay).
    exists r. split; [symmetry; exact Hpay|].
    rewrite order_by_perm. apply list_elem_of_filter. split; [|exact Hin].
    unfold is_pending. apply bool_decide_eq_true.
    destruct Hwf as [Hrows _]. rewrite Forall_forall in Hrows.
    destruct (Hrows r Hin) as (_ & _ & Hs' & _). congruence.
Qed.

Lemma recent_leb_total (a b : Row) : recent_leb a b = false -> recent_leb b a = true.
Proof. unfold recent_leb. lia. Qed.

Lemma recent_leb_trans (a b c : Row) :
  recent_leb a b = true -> recent_leb b c = true -> recent_leb a c = true.
Proof. unfold recent_leb. lia. Qed.

(** X7. On a well-formed queue, [getRecent(limit)] returns at most [limit]
    tasks, of any status, newest first: together with the tasks [rest] it
    leaves out, the result lists every stored task once, in order of
    [createdAt] descending, and [rest] is empty unless [limit] was reached.
    The store is not changed. *)
Theorem X7_getRecent_newest_first (st : Storage) (limit : nat) (Hwf : wf_storage st) :
  exists l rest,
    getRecent limit st = (Returns l, st)
    /\ (length l <= limit)%nat
    /\ StronglySorted (fun a b => createdAt b <= createdAt a) (l ++ rest)
    /\ l ++ rest ≡ₚ map row_payload (cf_agents_queues st)
    /\ (length l = limit \/ rest = []).
Proof.
  set (sorted := sort_by recent_leb (rev (cf_agents_queues st))).
  assert (Hperm : sorted ≡ₚ cf_agents_queues st).
  { unfold sorted. rewrite (sort_by_perm recent_leb). symmetry. apply Permutation_rev. }
  exists (map row_payload (take limit sorted)), (map row_payload (drop limit sorted)).
  split; [reflexivity|]. split; [|split; [|split]].
  - rewrite length_map. apply firstn_le_length.
  - rewrite <- map_app, take_drop.
    change (StronglySorted (fun a b => createdAt b <= createdAt a) (row_payload <$> sorted)).
    assert (Hall : Forall wf_row sorted).
    { destruct Hwf as [Hrows _]. rewrite Hperm. exact Hrows. }
    pose proof (sort_by_sorted recent_leb recent_leb_total recent_leb_trans
                  (rev (cf_agents_queues st))) as Hs.
    fold sorted in Hs. clear Hperm. clearbody sorted.
    induction Hs as [|a l Hs IH Hle]; simpl; [constructor|].
    inversion Hall as [|? ? Ha Hl]; subst.
    constructor; [apply IH, Hl|].
    rewrite Forall_forall in Hle, Hl. apply Forall_forall. intros x Hx.
    apply list_elem_of_fmap in Hx as (b & -> & Hb).
    specialize (Hle b Hb). unfold recent_leb in Hle.
    destruct Ha as (_ & _ & _ & Hca). destruct (Hl b Hb) as (_ & _ & _ & Hcb).
    rewrite <- Hca, <- Hcb. lia.
  - rewrite <- map_app, take_drop.
    change (row_payload <$> sorted ≡ₚ row_payload <$> cf_agents_queues st).
    apply fmap_Permutation, Hperm.
  - rewrite length_map.
    destruct (decide (limit <= length sorted)%nat) as [Hle|Hgt].
    + left. apply length_take_le, Hle.
    + right. rewrite drop_ge by lia. reflexivity.
Qed.

(** ** [cleanup] and the dead letters *)

Lemma filter_split_length {A : Type} (f : A -> bool) (l : list A) :
  (length (filter (fun x => f x = true) l) + length (filter (fun x => f x = false) l)
   = length l)%nat.
Proof.
  induction l as [|x l IH]; [reflexivity|].
  rewrite !filter_cons. destruct (f x) eqn:Hx; simpl.
  - destruct (decide (true = true)) as [_|Hn]; [|congruence].
    destruct (decide (true = false)) as [Hn|_]; [discriminate|]. simpl. lia.
  - destruct (decide (false = true)) as [Hn|_]; [discriminate|].
    destruct (decide (false = false)) as [_|Hn]; [|congruence]. simpl. lia.
Qed.

(** X8. On a well-formed queue, [cleanup(daysToKeep)] removes exactly the
    tasks that are [completed] or [failed] and were created before
    [now - daysToKeep] days, by [createdAt], not by [completedAt]; it
    returns how many it removed, keeps every other task as it is, keeps the
    pending tasks in their order, and leaves the dead letters alone, also
    the one of a task whose row it removes.  A second [cleanup] at the same
    time removes nothing. *)
Theorem X8_cleanup_removes_old_finished_tasks
        (st : Storage) (daysToKeep now : Z) (Hwf : wf_storage st) :
  (forall j,
      task_of j (exec (cleanup daysToKeep now) st)
      = match task_of j st with
        | Some t => if (bool_decide (status t = completed) || bool_decide (status t = failed))
                       && (createdAt t <? now - daysToKeep * 24 * 60 * 60 * 1000)
                    then None else Some t
        | None => None
        end)
  /\ (exists n,
         result_of (cleanup daysToKeep now) st = Returns n
         /\ (n + length (cf_agents_queues (exec (cleanup daysToKeep now) st))
             = length (cf_agents_queues st))%nat)
  /\ pending_tasks (exec (cleanup daysToKeep now) st) = pending_tasks st
  /\ kv (exec (cleanup daysToKeep now) st) = kv st
  /\ result_of (cleanup daysToKeep now) (exec (cleanup daysToKeep now) st) = Returns 0%nat.
Proof.
  split; [|split; [|split; [|split]]].
  - intros j. apply task_after_cleanup, Hwf.
  - eexists. split; [reflexivity|].
    rewrite cleanup_table. apply filter_split_length.
  - unfold pending_tasks. rewrite cleanup_table. f_equal.
    induction (cf_agents_queues st) as [|r q IH]; [reflexivity|].
    rewrite !filter_cons.
    destruct (decide (is_pending r = true)) as [Hp|Hp].
    + assert (Hkeep : (is_finished r && (row_created_at r <? cleanup_cutoff daysToKeep now))
                      = false).
      { unfold is_pending in Hp. apply bool_decide_eq_true in Hp.
        unfold is_finished. rewrite Hp. reflexivity. }
      destruct (decide ((is_finished r && (row_created_at r <? cleanup_cutoff daysToKeep now))
                        = false)) as [_|Hn]; [|contradiction].
      rewrite filter_cons. destruct (decide (is_pending r = true)); [|contradiction].
      rewrite IH. reflexivity.
    + destruct (decide ((is_finished r && (row_created_at r <? cleanup_cutoff daysToKeep now))
                        = false)) as [_|_]; [|exact IH].
      rewrite filter_cons. destruct (decide (is_pending r = true)); [contradiction | exact IH].
  - reflexivity.
  - unfold result_of, cleanup. run_m. f_equal.
    apply length_zero_iff_nil.
    induction (cf_agents_queues st) as [|r q IH]; [reflexivity|].
    rewrite filter_cons.
    destruct (decide ((is_finished r && (row_created_at r <? now - daysToKeep * 24 * 60 * 60 * 1000))
                      = false)) as [Hk|Hk]; [|exact IH].
    rewrite filter_cons.
    destruct (decide ((is_finished r && (row_created_at r <? now - daysToKeep * 24 * 60 * 60 * 1000))
                      = true)) as [Hd|_]; [congruence | exact IH].
Qed.

Lemma dlq_key_inj (i j : string) : "dlq:" +:+ i = "dlq:" +:+ j -> i = j.
Proof. cbv [String.append]. congruence. Qed.

Lemma kv_after_op (op : QueueOp) (st : Storage) :
  wf_storage st ->
  kv (apply_op op st) = kv st
  \/ exists j err now t,
       op = Fail j err now /\ task_of j st = Some t
       /\ kv (apply_op op st) = <[ "dlq:" +:+ j := mkDLQEntry j t err now ]> (kv st).
Proof.
  intros Hwf. destruct op as [td nano now|j now|j res now|j err now|days now]; simpl.
  - left. destruct (decide (nano ∈ known_ids st)) as [Hin|Hfresh].
    + unfold exec. rewrite enqueue_taken by exact Hin. reflexivity.
    + unfold exec. rewrite enqueue_fresh by exact Hfresh. reflexivity.
  - left. destruct (task_of j st) as [t|] eqn:Hj.
    + unfold exec. rewrite (updateStatus_explicit _ _ _ _ _ _ Hj). reflexivity.
    + unfold exec. rewrite updateStatus_missing by exact Hj. reflexivity.
  - left. unfold complete. destruct (task_of j st) as [t|] eqn:Hj.
    + unfold exec. rewrite (updateStatus_explicit _ _ _ _ _ _ Hj). reflexivity.
    + unfold exec. rewrite updateStatus_missing by exact Hj. reflexivity.
  - destruct (task_of j st) as [t|] eqn:Hj.
    + destruct (decide (retryCount t < maxRetries t)) as [Hlt|Hge].
      * left. unfold exec. rewrite (fail_retry _ _ _ _ _ Hj Hlt). reflexivity.
      * right. exists j, err, now, t. split; [reflexivity|]. split; [exact Hj|].
        assert (Hid : id t = j).
        { destruct (task_of_row _ _ _ Hj) as (r & Hin & Hrid & Hrt).
          destruct Hwf as [Hrows _]. rewrite Forall_forall in Hrows.
          destruct (Hrows r Hin) as (H1 & _). congruence. }
        unfold exec. rewrite (fail_terminal_explicit _ _ _ _ _ Hj Hge). simpl.
        rewrite Hid. reflexivity.
    + left. unfold exec. rewrite fail_missing by exact Hj. reflexivity.
  - left. reflexivity.
Qed.

(** X9. Dead letters are never removed: once a dead-letter entry exists
    for a task id, every later call on the queue leaves an entry for that
    id in place, and the entry itself is unchanged as long as that task is
    not failed again. *)
Theorem X9_dead_letters_are_kept
        (st : Storage) (i : string) (e : DLQEntry) (ops : list QueueOp)
        (Hwf : wf_storage st)
        (Hentry : dead_letter i st = Some e) :
  is_Some (dead_letter i (apply_ops ops st))
  /\ (never_fails i ops -> dead_letter i (apply_ops ops st) = Some e).
Proof.
  revert st e Hwf Hentry. induction ops as [|op ops IH]; intros st e Hwf Hentry.
  - split; [exists e; exact Hentry | intros _; exact Hentry].
  - pose proof (apply_op_shape op st Hwf) as [Hwf' _].
    destruct (kv_after_op op st Hwf) as [Hkv|(j & err & now & t & -> & Hj & Hkv)].
    + assert (Hentry' : dead_letter i (apply_op op st) = Some e).
      { unfold dead_letter. rewrite Hkv. exact Hentry. }
      destruct (IH _ e Hwf' Hentry') as [Hsome Hsame].
      split; [exact Hsome|]. intros Hnf. inversion Hnf; subst. apply Hsame. assumption.
    + destruct (decide (j = i)) as [->|Hne].
      * assert (Hentry' : dead_letter i (apply_op (Fail i err now) st)
                          = Some (mkDLQEntry i t err now)).
        { unfold dead_letter. rewrite Hkv. apply lookup_insert_eq. }
        destruct (IH _ _ Hwf' Hentry') as [Hsome _].
        split; [exact Hsome|]. intros Hnf. inversion Hnf as [|? ? Hop _]; subst.
        exfalso. apply Hop. reflexivity.
      * assert (Hentry' : dead_letter i (apply_op (Fail j err now) st) = Some e).
        { unfold dead_letter. rewrite Hkv.
          rewrite lookup_insert_ne; [exact Hentry|].
          intros Heq. apply Hne, dlq_key_inj, Heq. }
        destruct (IH _ e Hwf' Hentry') as [Hsome Hsame].
        split; [exact Hsome|]. intros Hnf. inversion Hnf; subst. apply Hsame. assumption.
Qed.

(** X10. The dead-letter entry that a terminal [fail] writes holds the task
    as it was loaded before the call, with the failure reason and the time
    of the call beside it: the snapshot shows the earlier status and the
    earlier error, while the task in the table is [failed] with the new
    error.  So unless the task was [failed] already, the snapshot differs
    from the stored task. *)
Theorem X10_dead_letter_holds_the_earlier_task
        (st : Storage) (i : string) (t : Task) (err : string) (now : Z)
        (Hwf : wf_storage st)
        (Hget : task_of i st = Some t)
        (Hspent : ~ retryCount t < maxRetries t) :
  dead_letter i (exec (fail i err now) st)
  = Some {| taskId := i; task := t; dlq_error := err; timestamp := now |}
  /\ exists t',
       task_of i (exec (fail i err now) st) = Some t'
       /\ status t' = failed /\ error t' = Some err
       /\ (status t <> failed -> t' <> t).
Proof.
  destruct (fail_terminal_spec st i t err now Hwf Hget Hspent)
    as (_ & _ & (t' & Ht' & Hs & He & _) & Hdlq & _).
  split; [exact Hdlq|].
  exists t'. repeat split; try assumption. intros Hns Heq. subst t'. contradiction.
Qed.

(** X11. [fail] does not treat [completed] as final: when a task with
    retry budget left is completed and then failed (as [executeCommand]
    does when the notification after [complete] throws), it is [pending]
    again, with [retryCount] increased by 1, and it keeps the result that
    [complete] stored. *)
Theorem X11_fail_requeues_a_completed_task
        (st : Storage) (i : string) (t : Task) (res err : string) (n1 n2 : Z)
        (Hwf : wf_storage st)
        (Hget : task_of i st = Some t)
        (Hbudget : retryCount t < maxRetries t) :
  exists t1 t2,
    task_of i (exec (complete i res n1) st) = Some t1
    /\ status t1 = completed /\ result t1 = Some res
    /\ task_of i (exec (fail i err n2) (exec (complete i res n1) st)) = Some t2
    /\ status t2 = pending /\ result t2 = Some res /\ error t2 = Some err
    /\ retryCount t2 = retryCount t + 1
    /\ t2 ∈ pending_tasks (exec (fail i err n2) (exec (complete i res n1) st)).
Proof.
  pose proof (task_after_call (Complete i res n1) i i st eq_refl) as H1.
  rewrite bool_decide_eq_true_2, Hget in H1 by reflexivity. simpl in H1.
  set (t1 := assign (stamp completed n1 t) (patch_result res)) in *.
  destruct (stamp_fields completed n1 t) as (_ & _ & _ & _ & _ & _ & S7 & S8 & _ & S10 & _).
  pose proof (task_after_call (Fail i err n2) i i (exec (complete i res n1) st) eq_refl) as H2.
  simpl apply_op in H1, H2.
  rewrite bool_decide_eq_true_2, H1 in H2 by reflexivity. simpl in H2.
  assert (Hlt : (retryCount (stamp completed n1 t) <? maxRetries (stamp completed n1 t)) = true)
    by (apply Z.ltb_lt; lia).
  rewrite Hlt in H2.
  exists t1, (requeued err t1).
  split; [exact H1|]. split; [exact S10|]. split; [reflexivity|].
  split; [exact H2|]. split; [reflexivity|]. split; [reflexivity|]. split; [reflexivity|].
  split; [simpl; lia|].
  apply (pending_task_listed i); [|exact H2 | reflexivity].
  apply (apply_ops_wf [Complete i res n1; Fail i err n2] st Hwf).
Qed.

(** * Further properties of the pool *)

Lemma map_get_set (k j : string) (v : SD.SubagentInfo) (m : SD.SubagentMap) :
  SD.map_get j (SD.map_set k v m) = if bool_decide (j = k) then Some v else SD.map_get j m.
Proof.
  induction m as [|[k' v'] m IH]; simpl.
  - destruct (bool_decide (k = j)) eqn:Hkj.
    + apply bool_decide_eq_true in Hkj. subst j.
      rewrite bool_decide_eq_true_2 by reflexivity. reflexivity.
    + apply bool_decide_eq_false in Hkj.
      rewrite bool_decide_eq_false_2 by congruence. reflexivity.
  - destruct (bool_decide (k' = k)) eqn:Hk; simpl.
    + apply bool_decide_eq_true in Hk. subst k'.
      destruct (bool_decide (k = j)) eqn:Hkj.
      * apply bool_decide_eq_true in Hkj. subst j.
        rewrite bool_decide_eq_true_2 by reflexivity. reflexivity.
      * apply bool_decide_eq_false in Hkj.
        rewrite (bool_decide_eq_false_2 (j = k)) by congruence. reflexivity.
    + destruct (bool_decide (k' = j)) eqn:Hkj; [|exact IH].
      apply bool_decide_eq_true in Hkj. subst j.
      apply bool_decide_eq_false in Hk.
      rewrite (bool_decide_eq_false_2 (k' = k)) by congruence. reflexivity.
Qed.

Lemma map_set_length (k : string) (v : SD.SubagentInfo) (m : SD.SubagentMap) :
  (length m <= length (SD.map_set k v m) <= S (length m))%nat.
Proof.
  induction m as [|[k' v'] m IH]; simpl; [lia|].
  destruct (bool_decide (k' = k)); simpl; lia.
Qed.

Lemma map_delete_cons (k k' : string) (v : SD.SubagentInfo) (m : SD.SubagentMap) :
  SD.map_delete k ((k', v) :: m)
  = if decide (k' <> k) then (k', v) :: SD.map_delete k m else SD.map_delete k m.
Proof. reflexivity. Qed.

Lemma map_get_delete (k j : string) (m : SD.SubagentMap) :
  SD.map_get j (SD.map_delete k m) = if bool_decide (j = k) then None else SD.map_get j m.
Proof.
  induction m as [|[k' v] m IH].
  - simpl. destruct (bool_decide (j = k)); reflexivity.
  - rewrite map_delete_cons.
    destruct (decide (k' <> k)) as [Hne|Heq]; simpl.
    + destruct (bool_decide (k' = j)) eqn:Hkj; [|exact IH].
      apply bool_decide_eq_true in Hkj. subst j.
      rewrite bool_decide_eq_false_2 by exact Hne. reflexivity.
    + assert (k' = k) by (destruct (decide (k' = k)); [assumption | contradiction]).
      subst k'. rewrite IH.
      destruct (bool_decide (j = k)) eqn:Hjk; [reflexivity|].
      apply bool_decide_eq_false in Hjk.
      rewrite bool_decide_eq_false_2 by congruence. reflexivity.
Qed.

Lemma map_get_none (k : string) (m : SD.SubagentMap) :
  SD.map_get k m = None <-> k ∉ map fst m.
Proof.
  induction m as [|[k' v] m IH]; simpl.
  - split; [intros _; apply not_elem_of_nil | reflexivity].
  - destruct (bool_decide (k' = k)) eqn:Hk.
    + apply bool_decide_eq_true in Hk. subst k'.
      split; [discriminate|]. intros Hn. exfalso. apply Hn. left.
    + apply bool_decide_eq_false in Hk. rewrite IH. split.
      * intros Hn Hin. apply elem_of_cons in Hin as [Heq|Hin]; [congruence | exact (Hn Hin)].
      * intros Hn Hin. apply Hn. right. exact Hin.
Qed.

Lemma mutate_missing (k : string) (f : SD.SubagentInfo -> SD.SubagentInfo) (m : SD.SubagentMap) :
  SD.map_get k m = None -> SD.map_mutate k f m = m.
Proof.
  induction m as [|[k' v] m IH]; simpl; [reflexivity|].
  destruct (bool_decide (k' = k)); [discriminate|].
  intros Hn. rewrite IH by exact Hn. reflexivity.
Qed.

Lemma mutate_twice (k : string) (f g : SD.SubagentInfo -> SD.SubagentInfo) (m : SD.SubagentMap) :
  SD.map_mutate k f (SD.map_mutate k g m) = SD.map_mutate k (fun s => f (g s)) m.
Proof.
  induction m as [|[k' v] m IH]; simpl; [reflexivity|].
  destruct (bool_decide (k' = k)) eqn:Hk; simpl; rewrite Hk; [reflexivity|].
  rewrite IH. reflexivity.
Qed.

Lemma mutate_ext (k : string) (f g : SD.SubagentInfo -> SD.SubagentInfo) (m : SD.SubagentMap) :
  (forall s, f s = g s) -> SD.map_mutate k f m = SD.map_mutate k g m.
Proof.
  intros Hfg. induction m as [|[k' v] m IH]; simpl; [reflexivity|].
  destruct (bool_decide (k' = k)); [rewrite Hfg | rewrite IH]; reflexivity.
Qed.

Lemma allocate_size (d : SD.Deployer) (t : Task) (uuid : string) (now : Z) :
  SD.map_size (SD.activeSubagents d) <= SD.maxSubagents d ->
  SD.map_size (SD.activeSubagents (exec (SD.allocate t uuid now) d)) <= SD.maxSubagents d.
Proof.
  intros Hle. unfold exec.
  destruct (idle_split (SD.activeSubagents d))
    as [Hnone|(pre & k & s & post & Hm & Hpre & Hs)].
  - destruct (decide (SD.map_size (SD.activeSubagents d) < SD.maxSubagents d)) as [Hroom|Hfull].
    + rewrite allocate_creates by assumption. simpl. unfold SD.map_size in *.
      pose proof (map_set_length uuid (fresh_worker uuid now) (SD.activeSubagents d)). lia.
    + rewrite allocate_at_capacity by (try assumption; lia). exact Hle.
  - rewrite (allocate_claims d t uuid now pre post k s Hm Hpre Hs). simpl.
    rewrite Hm in Hle. unfold SD.map_size in *. rewrite length_app in *. simpl in *. exact Hle.
Qed.

(** X12. [create] has no capacity check: it always returns a new subagent
    (status [active], [deployedAt = lastHeartbeat = now], no current task),
    files it under its uuid and, when the uuid is new, grows the pool by
    one, whatever [maxSubagents] is.  Only [allocate] respects the limit: a
    pool within [maxSubagents] is still within it after [allocate]. *)
Theorem X12_only_allocate_respects_maxSubagents
        (d : SD.Deployer) (config : SD.SubagentConfig) (t : Task) (uuid : string) (now : Z) :
  result_of (SD.create config uuid now) d
  = Returns (SD.mkSubagentInfo uuid (SD.cfg_type config) (SD.cfg_name config)
                               SD.active None now now)
  /\ SD.map_get uuid (SD.activeSubagents (exec (SD.create config uuid now) d))
     = Some (SD.mkSubagentInfo uuid (SD.cfg_type config) (SD.cfg_name config)
                               SD.active None now now)
  /\ (uuid ∉ map fst (SD.activeSubagents d) ->
      SD.map_size (SD.activeSubagents (exec (SD.create config uuid now) d))
      = SD.map_size (SD.activeSubagents d) + 1)
  /\ (SD.map_size (SD.activeSubagents d) <= SD.maxSubagents d ->
      SD.map_size (SD.activeSubagents (exec (SD.allocate t uuid now) d)) <= SD.maxSubagents d).
Proof.
  split; [reflexivity|]. split; [|split].
  - unfold SD.create. run_m. rewrite map_get_set.
    rewrite bool_decide_eq_true_2 by reflexivity. reflexivity.
  - intros Hfresh. unfold SD.create. run_m. rewrite map_set_fresh by exact Hfresh.
    unfold SD.map_size. rewrite length_app. simpl. lia.
  - apply allocate_size.
Qed.

(** X13. [release] of an id that is not in the pool changes nothing, not
    even the persisted copy.  For a subagent in the pool, whatever its
    status ([error] included), [release] makes it [idle] with no current
    task and touches no other subagent.  Releasing twice is the same as
    releasing once. *)
Theorem X13_release_is_idempotent (d : SD.Deployer) (sid : string) :
  (SD.map_get sid (SD.activeSubagents d) = None -> SD.release sid d = (Returns tt, d))
  /\ (forall s,
         SD.map_get sid (SD.activeSubagents d) = Some s ->
         SD.map_get sid (SD.activeSubagents (exec (SD.release sid) d))
         = Some (SD.mkSubagentInfo (SD.id s) (SD.type s) (SD.name s) SD.idle None
                                   (SD.deployedAt s) (SD.lastHeartbeat s)))
  /\ (forall j, j <> sid ->
                SD.map_get j (SD.activeSubagents (exec (SD.release sid) d))
                = SD.map_get j (SD.activeSubagents d))
  /\ exec (SD.release sid) (exec (SD.release sid) d) = exec (SD.release sid) d.
Proof.
  split; [|split; [|split]].
  - intros Hnone. unfold SD.release. run_m. rewrite Hnone. reflexivity.
  - intros s Hs. unfold SD.release. run_m. rewrite Hs. simpl.
    rewrite map_get_mutate, Hs. rewrite bool_decide_eq_true_2 by reflexivity. reflexivity.
  - intros j Hj. unfold SD.release. run_m.
    destruct (SD.map_get sid (SD.activeSubagents d)); simpl; [|reflexivity].
    rewrite map_get_mutate. rewrite bool_decide_eq_false_2 by exact Hj. reflexivity.
  - unfold SD.release. run_m.
    destruct (SD.map_get sid (SD.activeSubagents d)) as [s|] eqn:Hs; simpl.
    + rewrite map_get_mutate, Hs. rewrite bool_decide_eq_true_2 by reflexivity. simpl.
      rewrite mutate_twice. reflexivity.
    + rewrite Hs. reflexivity.
Qed.

(** X14. After [remove(id)] no subagent is filed under that id, whatever
    its status or current task was; every other subagent is found as
    before; and on a pool with unique keys the size drops by one exactly
    when the id was present. *)
Theorem X14_remove_deletes_one_subagent (d : SD.Deployer) (sid : string)
        (Hwf : wf_pool (SD.activeSubagents d)) :
  result_of (SD.remove sid) d = Returns tt
  /\ SD.map_get sid (SD.activeSubagents (exec (SD.remove sid) d)) = None
  /\ (forall j, j <> sid ->
                SD.map_get j (SD.activeSubagents (exec (SD.remove sid) d))
                = SD.map_get j (SD.activeSubagents d))
  /\ SD.map_size (SD.activeSubagents (exec (SD.remove sid) d))
     = SD.map_size (SD.activeSubagents d)
       - match SD.map_get sid (SD.activeSubagents d) with Some _ => 1 | None => 0 end.
Proof.
  split; [reflexivity|]. split; [|split].
  - unfold SD.remove. run_m. rewrite map_get_delete.
    rewrite bool_decide_eq_true_2 by reflexivity. reflexivity.
  - intros j Hj. unfold SD.remove. run_m. rewrite map_get_delete.
    rewrite bool_decide_eq_false_2 by exact Hj. reflexivity.
  - unfold SD.remove. run_m. unfold SD.map_size.
    destruct Hwf as [_ Hnd]. revert Hnd.
    induction (SD.activeSubagents d) as [|[k v] m IH]; intros Hnd; [reflexivity|].
    simpl in Hnd. apply NoDup_cons in Hnd as [Hnotin Hnd].
    rewrite map_delete_cons. specialize (IH Hnd). simpl SD.map_get.
    destruct (decide (k <> sid)) as [Hne|Heq].
    + rewrite bool_decide_eq_false_2 by exact Hne. simpl length. lia.
    + assert (k = sid) by (destruct (decide (k = sid)); [assumption | contradiction]).
      subst k. rewrite bool_decide_eq_true_2 by reflexivity.
      assert (Hm : SD.map_get sid m = None) by (apply map_get_none; exact Hnotin).
      rewrite Hm in IH. simpl length. lia.
Qed.

Lemma apply_dops_wf (ops : list DeployerOp) (d : SD.Deployer) :
  wf_pool (SD.activeSubagents d) -> wf_pool (SD.activeSubagents (apply_dops ops d)).
Proof.
  revert d. induction ops as [|op ops IH]; intros d Hwf; [exact Hwf|].
  apply IH, apply_dop_shape, Hwf.
Qed.

Lemma dop_persists (op : DeployerOp) (d : SD.Deployer) :
  apply_dop op d = d
  \/ SD.stored (apply_dop op d) = Some (SD.map_values (SD.activeSubagents (apply_dop op d))).
Proof.
  destruct op as [config uuid now|t uuid now|j|j|now|j now]; simpl.
  - right. reflexivity.
  - unfold exec.
    destruct (idle_split (SD.activeSubagents d))
      as [Hnone|(pre & k & s & post & Hm & Hpre & Hs)].
    + destruct (decide (SD.map_size (SD.activeSubagents d) < SD.maxSubagents d)) as [Hroom|Hfull].
      * right. rewrite allocate_creates by assumption. reflexivity.
      * left. rewrite allocate_at_capacity by (try assumption; lia). reflexivity.
    + right. rewrite (allocate_claims d t uuid now pre post k s Hm Hpre Hs). reflexivity.
  - unfold SD.release. run_m.
    destruct (SD.map_get j (SD.activeSubagents d)); [right | left]; reflexivity.
  - right. reflexivity.
  - right. reflexivity.
  - unfold SD.heartbeat. run_m.
    destruct (SD.map_get j (SD.activeSubagents d)); [right | left]; reflexivity.
Qed.

Lemma apply_dops_synced (ops : list DeployerOp) (d : SD.Deployer) :
  synced d -> synced (apply_dops ops d).
Proof.
  revert d. induction ops as [|op ops IH]; intros d Hs; [exact Hs|].
  apply IH. destruct (dop_persists op d) as [-> | Hp]; [exact Hs | right; exact Hp].
Qed.

Lemma load_values (acc m : SD.SubagentMap) :
  Forall (fun e => SD.id (snd e) = fst e) m ->
  NoDup (map fst (acc ++ m)) ->
  foldl (fun a s => SD.map_set (SD.id s) s a) acc (SD.map_values m) = acc ++ m.
Proof.
  revert acc. induction m as [|[k v] m IH]; intros acc Hids Hnd.
  - simpl. rewrite app_nil_r. reflexivity.
  - inversion Hids as [|? ? Hk Hrest]; subst. simpl in Hk. simpl.
    rewrite Hk. rewrite map_set_fresh.
    + rewrite IH; [rewrite <- app_assoc; reflexivity | exact Hrest |].
      rewrite <- app_assoc. exact Hnd.
    + rewrite map_app in Hnd. apply NoDup_app in Hnd as (_ & Hdisj & _).
      intros Hin. apply (Hdisj _ Hin). left.
Qed.

(** X15. What the deployer persists is enough to rebuild the pool: after
    any sequence of [create], [allocate], [release], [remove],
    [healthCheck] and [heartbeat] calls on a new deployer, a new instance
    over the same storage holds, once it has run [load], exactly the same
    subagents in the same order. *)
Theorem X15_load_restores_the_persisted_pool (ops : list DeployerOp) (limit : Z) :
  SD.activeSubagents (exec SD.load (restarted (apply_dops ops (SD.new_deployer limit))))
  = SD.activeSubagents (apply_dops ops (SD.new_deployer limit)).
Proof.
  set (d := apply_dops ops (SD.new_deployer limit)).
  assert (Hwf : wf_pool (SD.activeSubagents d)).
  { apply apply_dops_wf. split; [constructor | apply NoDup_nil_2]. }
  assert (Hs : synced d).
  { apply apply_dops_synced. left. split; reflexivity. }
  unfold SD.load, restarted. run_m.
  destruct Hs as [[Hnone Hempty]|Hsome].
  - rewrite Hnone, Hempty. reflexivity.
  - rewrite Hsome. simpl. destruct Hwf as [Hids Hnd].
    apply (load_values [] (SD.activeSubagents d) Hids Hnd).
Qed.

Lemma check_one_twice (now : Z) (s : SD.SubagentInfo) :
  SD.check_one now (SD.check_one now s) = SD.check_one now s.
Proof.
  unfold SD.check_one.
  destruct (SD.timeout <? now - SD.lastHeartbeat s) eqn:Hx; simpl; rewrite Hx; reflexivity.
Qed.

(** X16. A heartbeat protects a subagent for five minutes: after
    [heartbeat(id)] at time [now], a [healthCheck] at any time up to
    [now + 300000] leaves that subagent as the heartbeat left it, with
    [lastHeartbeat = now] and its status unchanged except that [error] has
    become [active].  [healthCheck] itself never clears [error], and
    running it twice at the same time is the same as running it once. *)
Theorem X16_heartbeat_then_healthCheck
        (d : SD.Deployer) (sid : string) (s : SD.SubagentInfo) (now later : Z)
        (Hget : SD.map_get sid (SD.activeSubagents d) = Some s)
        (Hsoon : later - now <= 300000) :
  SD.map_get sid (SD.activeSubagents
                    (exec (SD.healthCheck later) (exec (SD.heartbeat sid now) d)))
  = Some (SD.mkSubagentInfo (SD.id s) (SD.type s) (SD.name s)
                            (match SD.status s with SD.error => SD.active | other => other end)
                            (SD.currentTask s) (SD.deployedAt s) now)
  /\ (SD.status s = SD.error ->
      SD.status <$> SD.map_get sid (SD.activeSubagents (exec (SD.healthCheck later) d))
      = Some SD.error)
  /\ exec (SD.healthCheck later) (exec (SD.healthCheck later) d)
     = exec (SD.healthCheck later) d.
Proof.
  split; [|split].
  - unfold SD.heartbeat, SD.healthCheck. run_m. rewrite Hget. simpl.
    rewrite map_get_map, map_get_mutate, Hget.
    rewrite bool_decide_eq_true_2 by reflexivity. simpl.
    assert (Hb : SD.lastHeartbeat (SD.beat now s) = now).
    { unfold SD.beat. simpl. destruct (bool_decide (SD.status s = SD.error)); reflexivity. }
    unfold SD.check_one. rewrite Hb. change SD.timeout with 300000.
    assert (Hx : (300000 <? later - now) = false) by lia. rewrite Hx.
    unfold SD.beat, SD.set_status, SD.set_lastHeartbeat. simpl.
    destruct (SD.status s); reflexivity.
  - intros Herr. unfold SD.healthCheck. run_m. rewrite map_get_map, Hget. simpl.
    unfold SD.check_one. destruct (SD.timeout <? later - SD.lastHeartbeat s); simpl;
      [reflexivity | rewrite Herr; reflexivity].
  - unfold SD.healthCheck. run_m. rewrite !map_map. simpl.
    assert (Heq : map (fun x : string * SD.SubagentInfo =>
                         (x.1, SD.check_one later (SD.check_one later x.2)))
                      (SD.activeSubagents d)
                  = map (fun e => (e.1, SD.check_one later e.2)) (SD.activeSubagents d)).
    { apply map_ext. intros e. rewrite check_one_twice. reflexivity. }
    rewrite Heq. unfold SD.map_values. rewrite !map_map. simpl. reflexivity.
Qed.

Lemma map_get_member (k : string) (v : SD.SubagentInfo) (m : SD.SubagentMap) :
  NoDup (map fst m) -> (SD.map_get k m = Some v <-> (k, v) ∈ m).
Proof.
  induction m as [|[k' v'] m IH]; simpl; intros Hnd.
  - split; [discriminate | intros Hin; inversion Hin].
  - apply NoDup_cons in Hnd as [Hnotin Hnd].
    destruct (bool_decide (k' = k)) eqn:Hk.
    + apply bool_decide_eq_true in Hk. subst k'. split.
      * intros [= ->]. left.
      * intros Hin. apply elem_of_cons in Hin as [[= ->]|Hin]; [reflexivity|].
        exfalso. apply Hnotin.
        apply list_elem_of_In, in_map_iff. exists (k, v).
        split; [reflexivity | apply list_elem_of_In, Hin].
    + apply bool_decide_eq_false in Hk. rewrite (IH Hnd). split.
      * intros Hin. right. exact Hin.
      * intros Hin. apply elem_of_cons in Hin as [[= -> ->]|Hin]; [congruence | exact Hin].
Qed.

(** X17. After any sequence of calls on a new deployer, [list()] shows no
    id twice, and a subagent is listed exactly when it is the one filed
    under its own id. *)
Theorem X17_list_has_one_entry_per_id (ops : list DeployerOp) (limit : Z) :
  exists l,
    SD.list_subagents (apply_dops ops (SD.new_deployer limit))
    = (Returns l, apply_dops ops (SD.new_deployer limit))
    /\ NoDup (map SD.id l)
    /\ forall s, s ∈ l
                 <-> SD.map_get (SD.id s)
                                (SD.activeSubagents (apply_dops ops (SD.new_deployer limit)))
                     = Some s.
Proof.
  set (d := apply_dops ops (SD.new_deployer limit)).
  assert (Hwf : wf_pool (SD.activeSubagents d)).
  { apply apply_dops_wf. split; [constructor | apply NoDup_nil_2]. }
  destruct Hwf as [Hids Hnd].
  exists (SD.map_values (SD.activeSubagents d)).
  split; [reflexivity|]. split.
  - unfold SD.map_values. rewrite map_map.
    erewrite map_ext_Forall; [exact Hnd|].
    eapply List.Forall_impl; [|exact Hids]. intros e He. exact He.
  - intros s. rewrite (map_get_member _ _ _ Hnd). unfold SD.map_values.
    rewrite Forall_forall in Hids. split.
    + intros Hin. change (s ∈ snd <$> SD.activeSubagents d) in Hin.
      apply list_elem_of_fmap in Hin as ([k v] & -> & Hin).
      pose proof (Hids _ Hin) as Hk. simpl in Hk. simpl. rewrite Hk. exact Hin.
    + intros Hin. change (s ∈ snd <$> SD.activeSubagents d).
      apply list_elem_of_fmap. exists (SD.id s, s). split; [reflexivity | exact Hin].
Qed.

(** * Further properties of the agent *)

Lemma tick_loop_direct (w : MCA.World) (now : Z) (pre rest : list Task) (a : MCA.Agent) :
  at_capacity a = false ->
  Forall (fun x => needs_subagent x = false) pre ->
  for_of (pre ++ rest) (tick_body w now) a
  = for_of rest (tick_body w now)
           (MCA.mkAgent (MCA.config a) (MCA.taskQueue a) (MCA.stateManager a)
                        (MCA.subagentDeployer a)
                        (MCA.events a ++ map (fun x => MCA.ExecuteTask x MCA.direct) pre)).
Proof.
  revert a. induction pre as [|x pre IH]; intros a Hcap Hdirect.
  - simpl. rewrite app_nil_r. destruct a. reflexivity.
  - inversion Hdirect as [|? ? Hx Hpre]; subst.
    simpl. unfold bind at 1. unfold tick_body at 1, MCA.canProcessTask.
    unfold bind at 1 2. unfold get_state at 1.
    fold (at_capacity a). rewrite Hcap. simpl.
    unfold MCA.allocateResources. fold (needs_subagent x). rewrite Hx.
    unfold bind at 1. unfold ret at 1. unfold MCA.executeTask, MCA.emit, modify. simpl.
    rewrite IH; [|exact Hcap | exact Hpre]. simpl. rewrite <- app_assoc. reflexivity.
Qed.

(** X18. A capacity error aborts the tick.  When the agent has room for
    tasks, the tasks before [t] in the pending list need no subagent, [t]
    needs one, and the pool is full with no idle subagent, then the tick
    hands only the tasks before [t] to [executeTask]; the tasks after [t]
    are not looked at and the health check does not run.  The capacity
    error is logged and goes no further; queue, state and pool are as they
    were.  The call then ends as every tick does, with the [TypeError] of
    [span.end()]. *)
Theorem X18_capacity_error_aborts_the_tick
        (w : MCA.World) (now : Z) (a : MCA.Agent) (pre post : list Task) (t : Task)
        (Hroom : at_capacity a = false)
        (Hpending : result_of (MCA.getPending_number (MCA.maxConcurrentTasks (MCA.config a)))
                              (MCA.taskQueue a)
                    = Returns (pre ++ t :: post))
        (Hdirect : Forall (fun x => needs_subagent x = false) pre)
        (Hneeds : needs_subagent t = true)
        (Hnone : none_idle (SD.activeSubagents (MCA.subagentDeployer a)))
        (Hfull : SD.maxSubagents (MCA.subagentDeployer a)
                 <= SD.map_size (SD.activeSubagents (MCA.subagentDeployer a))) :
  MCA.processAutonomousTasks w now a
  = (Throws MCA.span_end_error,
     MCA.mkAgent (MCA.config a) (MCA.taskQueue a) (MCA.stateManager a) (MCA.subagentDeployer a)
                 (MCA.events a ++ map (fun x => MCA.ExecuteTask x MCA.direct) pre
                  ++ [MCA.AuditError "Autonomous loop error"])).
Proof.
  unfold result_of in Hpending. rewrite getPending_number_eq in Hpending.
  cbn [fst] in Hpending. injection Hpending as Hpending.
  unfold MCA.processAutonomousTasks, try_finally, try_catch, bind at 1, get_state at 1.
  unfold bind at 1. unfold MCA.on_queue, zoom. rewrite getPending_number_eq. cbn [fst snd].
  rewrite Hpending.
  assert (Ha : MCA.mkAgent (MCA.config a) (MCA.taskQueue a) (MCA.stateManager a)
                           (MCA.subagentDeployer a) (MCA.events a) = a) by (destruct a; reflexivity).
  rewrite Ha. unfold bind at 1. fold (tick_body w now).
  rewrite (tick_loop_direct w now pre (t :: post) a Hroom Hdirect).
  simpl. unfold bind at 1. unfold tick_body at 1, MCA.canProcessTask.
  unfold bind at 1 2. unfold get_state at 1. simpl.
  change (MCA.maxConcurrentTasks (MCA.config a)
          <=? StateManager.tasksActive (StateManager.metrics (MCA.stateManager a)))
    with (at_capacity a).
  rewrite Hroom. simpl.
  unfold MCA.allocateResources. fold (needs_subagent t). rewrite Hneeds.
  unfold bind at 1 2. unfold MCA.on_deployer, zoom. simpl.
  rewrite allocate_at_capacity by assumption. simpl.
  unfold MCA.emit, modify. simpl. rewrite <- app_assoc. reflexivity.
Qed.


Lemma start_runs (i : string) (now : Z) (st : Storage) (t : Task) :
  task_of i st = Some t ->
  updateStatus i in_progress None now st
  = (Returns tt, exec (updateStatus i in_progress None now) st).
Proof.
  intros Hget. unfold exec. rewrite (updateStatus_explicit _ _ _ _ _ _ Hget). reflexivity.
Qed.

Lemma fail_runs (i err : string) (now : Z) (st : Storage) :
  fail i err now st = (Returns tt, exec (fail i err now) st).
Proof.
  unfold exec. destruct (task_of i st) as [x|] eqn:Hx.
  - destruct (decide (retryCount x < maxRetries x)) as [Hlt|Hge].
    + rewrite (fail_retry _ _ _ _ _ Hx Hlt). reflexivity.
    + rewrite (fail_terminal_explicit _ _ _ _ _ Hx Hge). reflexivity.
  - rewrite fail_missing by exact Hx. reflexivity.
Qed.


(** X20. When the command fails and telling the client about it fails
    too, the rest of the [catch] block is skipped: the knowledge base is
    not told.  The failure of the task is recorded all the same, since
    [fail] ran first.  The error of the notification is not the one the
    caller sees: the [TypeError] of [span.end()] in the [finally] block
    takes its place. *)
Theorem X20_failed_notification_skips_learning
        (w : MCA.World) (a : MCA.Agent) (t t0 : Task) (now : Z) (msg msg' : string)
        (Hstored : task_of (id t) (MCA.taskQueue a) = Some t0)
        (Hanalyze : MCA.analyze w (payload t) = Throws msg)
        (Hsend : MCA.send w "task_failed" = Throws msg') :
  result_of (MCA.executeCommand w t now) a = Throws MCA.span_end_error
  /\ MCA.taskQueue (exec (MCA.executeCommand w t now) a)
     = exec (fail (id t) msg now)
            (exec (updateStatus (id t) in_progress None now) (MCA.taskQueue a))
  /\ MCA.events (exec (MCA.executeCommand w t now) a)
     = MCA.events a ++ [MCA.AuditError "Command execution failed"].
Proof.
  pose proof (start_runs (id t) now _ _ Hstored) as Hstart.
  assert (Hrun : MCA.executeCommand w t now a
                 = (Throws MCA.span_end_error,
                    MCA.mkAgent (MCA.config a)
                                (exec (fail (id t) msg now)
                                      (exec (updateStatus (id t) in_progress None now)
                                            (MCA.taskQueue a)))
                                (MCA.stateManager a) (MCA.subagentDeployer a)
                                (MCA.events a ++ [MCA.AuditError "Command execution failed"]))).
  { unfold MCA.executeCommand, MCA.executeCommand_start, MCA.executeCommand_rest,
      MCA.on_queue, MCA.connection_send, MCA.knowledge_learn, MCA.emit, MCA.external,
      MCA.span_end.
    unfold bind, ret, throw, get_state, modify, try_catch, try_finally, zoom. simpl.
    rewrite Hstart. simpl. rewrite Hanalyze. simpl.
    rewrite fail_runs. simpl. rewrite Hsend. reflexivity. }
  unfold result_of. split; [rewrite Hrun; reflexivity|].
  split; unfold exec at 1; rewrite Hrun; reflexivity.
Qed.

(** X21. For a task that is not in the queue, [executeCommand] never
    consults the decision engine or a handler: [updateStatus] throws, the
    [catch] block runs, [fail] finds nothing to do, and the queue is left
    as it was, whatever the collaborators would have answered.  The client
    is told "task_failed", and the call ends with the [TypeError] of
    [span.end()]. *)
Theorem X21_executeCommand_on_a_missing_task
        (w : MCA.World) (a : MCA.Agent) (t : Task) (now : Z)
        (Hmissing : task_of (id t) (MCA.taskQueue a) = None)
        (Hsend : MCA.send w "task_failed" = Returns tt)
        (Hlearn : MCA.learn w false = Returns tt) :
  result_of (MCA.executeCommand w t now) a = Throws MCA.span_end_error
  /\ MCA.taskQueue (exec (MCA.executeCommand w t now) a) = MCA.taskQueue a
  /\ MCA.events (exec (MCA.executeCommand w t now) a)
     = MCA.events a ++ [MCA.AuditError "Command execution failed";
                        MCA.Sent "task_failed" (id t);
                        MCA.Learned false].
Proof.
  assert (Hrun : MCA.executeCommand w t now a
                 = (Throws MCA.span_end_error,
                    MCA.mkAgent (MCA.config a) (MCA.taskQueue a)
                                (MCA.stateManager a) (MCA.subagentDeployer a)
                                (MCA.events a ++ [MCA.AuditError "Command execution failed";
                                                  MCA.Sent "task_failed" (id t);
                                                  MCA.Learned false]))).
  { unfold MCA.executeCommand, MCA.executeCommand_start, MCA.executeCommand_rest,
      MCA.on_queue, MCA.connection_send, MCA.knowledge_learn, MCA.emit, MCA.external,
      MCA.span_end.
    unfold bind, ret, throw, get_state, modify, try_catch, try_finally, zoom. simpl.
    rewrite updateStatus_missing by exact Hmissing. simpl.
    rewrite fail_missing by exact Hmissing. simpl.
    rewrite Hsend. simpl. rewrite Hlearn. simpl. rewrite <- !app_assoc. reflexivity. }
  unfold result_of, exec. rewrite Hrun. repeat split.
Qed.

(** * Properties of request security and of the decision engine *)

Lemma checkRateLimit_eq (c : string) (store : RS.Store) :
  RS.checkRateLimit c store
  = if 100 <? stored_count c store
    then (Returns false, store)
    else (Returns true, <[rate_key c := stored_count c store + 1]> store).
Proof.
  unfold RS.checkRateLimit, stored_count, rate_key, bind, get_state.
  destruct (100 <? _); reflexivity.
Qed.

Lemma stored_count_counts (c : string) (k : nat) (store : RS.Store) :
  counts c k store -> stored_count c store = Z.of_nat k.
Proof.
  intros [[-> Hnone]|[Hsome Hk]]; unfold stored_count, RS.storage_get.
  - unfold RS.Store in *. rewrite Hnone. reflexivity.
  - unfold RS.Store in *. rewrite Hsome. simpl.
    destruct (Z.of_nat k =? 0) eqn:Hz; [apply Z.eqb_eq in Hz; lia | reflexivity].
Qed.

Lemma rate_answers_from (c : string) (n : nat) :
  forall (k : nat) (store : RS.Store),
    (k <= 101)%nat -> counts c k store ->
    rate_answers c n store
    = replicate (Nat.min n (101 - k)) true ++ replicate (n - (101 - k)) false.
Proof.
  induction n as [|n IH]; intros k store Hk Hc; [reflexivity|].
  simpl rate_answers. rewrite checkRateLimit_eq.
  rewrite (stored_count_counts c k store Hc).
  destruct (100 <? Z.of_nat k) eqn:Hfull.
  - apply Z.ltb_lt in Hfull. assert (k = 101%nat) as -> by lia.
    rewrite (IH 101%nat store) by (lia || exact Hc). simpl.
    replace (n - 0)%nat with n by lia.
    rewrite Nat.min_0_r. reflexivity.
  - apply Z.ltb_ge in Hfull.
    rewrite (IH (S k)).
    + destruct (101 - k)%nat as [|m] eqn:Hm; [lia|].
      replace (101 - S k)%nat with m by lia. reflexivity.
    + lia.
    + right. unfold RS.Store in *. rewrite lookup_insert_eq.
      split; [f_equal; lia | lia].
Qed.

(** X22. The rate limiter admits 101 requests, not 100.  For a connection
    with no counter yet, the first 101 calls are answered [true] and every
    call from the 102nd on [false]: the test is [count > 100] on the count
    before the call.  Nothing resets the counter, so this holds however
    far apart the calls are, those within one minute included. *)
Theorem X22_rate_limit_admits_101
        (c : string) (n : nat) (store : RS.Store)
        (Hfresh : store !! rate_key c = None) :
  rate_answers c n store
  = replicate (Nat.min n 101) true ++ replicate (n - 101) false.
Proof.
  apply (rate_answers_from c n 0%nat store); [lia|].
  left. split; [reflexivity | exact Hfresh].
Qed.

(** X23. [validateSecurity] never throws, and it admits a request exactly
    when authentication is off or succeeded and the count stored for the
    connection is at most 100.  The count goes up by one for an admitted
    request and the store is untouched for a refused one, so that requests
    which fail authentication do not use up the connection's allowance.
    The time of the request plays no part. *)
Theorem X23_validateSecurity
        (zeroTrustEnabled authResult : bool) (c : string) (store : RS.Store) :
  let admitted := (negb zeroTrustEnabled || authResult) && (stored_count c store <=? 100) in
  exists check,
    result_of (RS.validateSecurity zeroTrustEnabled authResult c) store = Returns check
    /\ RS.valid check = admitted
    /\ (admitted = true ->
        RS.reason check = None
        /\ stored_count c (exec (RS.validateSecurity zeroTrustEnabled authResult c) store)
           = stored_count c store + 1)
    /\ (admitted = false ->
        exec (RS.validateSecurity zeroTrustEnabled authResult c) store = store
        /\ RS.reason check
           = Some (if zeroTrustEnabled && negb authResult
                   then "Zero Trust authentication failed"
                   else "Rate limit exceeded")).
Proof.
  unfold RS.validateSecurity, result_of, exec.
  destruct (zeroTrustEnabled && negb authResult) eqn:Hauth.
  - assert ((negb zeroTrustEnabled || authResult) = false) as ->
      by (destruct zeroTrustEnabled, authResult; simpl in *; congruence).
    simpl. eexists. split; [reflexivity|]. split; [reflexivity|].
    split; [discriminate|]. intros _. split; reflexivity.
  - assert ((negb zeroTrustEnabled || authResult) = true) as ->
      by (destruct zeroTrustEnabled, authResult; simpl in *; congruence).
    unfold bind. rewrite checkRateLimit_eq. simpl.
    destruct (100 <? stored_count c store) eqn:Hover.
    + apply Z.ltb_lt in Hover.
      assert ((stored_count c store <=? 100) = false) as -> by (apply Z.leb_gt; lia).
      simpl. eexists. split; [reflexivity|]. split; [reflexivity|].
      split; [discriminate|]. intros _. split; reflexivity.
    + apply Z.ltb_ge in Hover.
      assert ((stored_count c store <=? 100) = true) as -> by (apply Z.leb_le; lia).
      simpl. eexists. split; [reflexivity|]. split; [reflexivity|].
      split; [|discriminate]. intros _. split; [reflexivity|].
      unfold stored_count at 1, RS.storage_get. unfold RS.Store in *.
      rewrite lookup_insert_eq. simpl.
      unfold js_or. destruct (stored_count c store + 1 =? 0) eqn:Hz;
        [apply Z.eqb_eq in Hz; lia | reflexivity].
Qed.

(** X24. [validate], given the capabilities that the agent lists, rejects
    every decision: the capability it asks for is the category followed by
    "_operations", and no capability of [listCapabilities] has that form.
    The risks and the approval flag are never looked at. *)
Theorem X24_validate_rejects_every_decision
        (decision : MCA.Decision) (risks : option (list string)) :
  DecisionEngine.validate decision risks listCapabilities
  = DecisionEngine.mkValidation false
      (Some ["Capability not available: "
             +:+ DecisionEngine.category_name (MCA.category decision)]).
Proof.
  unfold DecisionEngine.validate.
  destruct (MCA.category decision); reflexivity.
Qed.

(** * Properties of the audit logger *)

Lemma log_eq (c : LogCall) (l : AL.Logger) :
  AL.log (lc_level c) (lc_message c) (lc_data c) (lc_uuid c) (lc_now c) l
  = (Returns tt,
     if (99 <=? Z.of_nat (length (AL.logBuffer l))) || bool_decide (lc_level c = AL.critical)
     then AL.mkLogger [] (AL.flushed l ++ [AL.logBuffer l ++ [entry_of c]])
     else AL.mkLogger (AL.logBuffer l ++ [entry_of c]) (AL.flushed l)).
Proof.
  unfold AL.log, AL.flush, AL.getTraceId, bind, modify, get_state, ret. simpl.
  fold (entry_of c).
  assert (Hn : Z.of_nat (length (AL.logBuffer l ++ [entry_of c]))
               = Z.of_nat (length (AL.logBuffer l)) + 1) by (rewrite length_app; simpl; lia).
  rewrite Hn.
  assert (Hnz : (Z.of_nat (length (AL.logBuffer l)) + 1 =? 0) = false) by (apply Z.eqb_neq; lia).
  destruct (99 <=? Z.of_nat (length (AL.logBuffer l))) eqn:Hfull.
  - assert ((100 <=? Z.of_nat (length (AL.logBuffer l)) + 1) = true) as ->
      by (apply Z.leb_le; apply Z.leb_le in Hfull; lia).
    simpl. rewrite ?Hn, ?Hnz. simpl.
    destruct (bool_decide (lc_level c = AL.critical)); reflexivity.
  - assert ((100 <=? Z.of_nat (length (AL.logBuffer l)) + 1) = false) as ->
      by (apply Z.leb_gt; apply Z.leb_gt in Hfull; lia).
    simpl. destruct (bool_decide (lc_level c = AL.critical)); [|reflexivity].
    simpl. rewrite ?Hn, ?Hnz. reflexivity.
Qed.

Lemma log_keeps (c : LogCall) (l : AL.Logger) :
  buffer_ok l ->
  let l' := exec (AL.log (lc_level c) (lc_message c) (lc_data c) (lc_uuid c) (lc_now c)) l in
  buffer_ok l'
  /\ concat (AL.flushed l') ++ AL.logBuffer l'
     = (concat (AL.flushed l) ++ AL.logBuffer l) ++ [entry_of c].
Proof.
  intros (Hlen & Hcrit & Hbatches). unfold exec. rewrite log_eq. cbn [snd].
  destruct (99 <=? Z.of_nat (length (AL.logBuffer l))) eqn:Hfull; simpl orb.
  - apply Z.leb_le in Hfull. split.
    + split; [simpl; lia|]. split; [constructor|].
      simpl. apply Forall_app. split; [exact Hbatches|].
      constructor; [|constructor]. left. rewrite length_app. simpl. lia.
    + simpl. rewrite concat_app. simpl. rewrite !app_nil_r, app_assoc. reflexivity.
  - apply Z.leb_gt in Hfull.
    destruct (bool_decide (lc_level c = AL.critical)) eqn:Hc.
    + apply bool_decide_eq_true in Hc. split.
      * split; [simpl; lia|]. split; [constructor|].
        simpl. apply Forall_app. split; [exact Hbatches|].
        constructor; [|constructor]. right. split.
        -- rewrite length_app. simpl. lia.
        -- exists (AL.logBuffer l), (entry_of c). split; [reflexivity | exact Hc].
      * simpl. rewrite concat_app. simpl. rewrite !app_nil_r, app_assoc. reflexivity.
    + apply bool_decide_eq_false in Hc. split.
      * split; [simpl; rewrite length_app; simpl; lia|]. split; [|exact Hbatches].
        simpl. apply Forall_app. split; [exact Hcrit|]. constructor; [exact Hc | constructor].
      * simpl. rewrite app_assoc. reflexivity.
Qed.

Lemma log_all_from (calls : list LogCall) :
  forall l : AL.Logger,
    buffer_ok l ->
    result_of (log_all calls) l = Returns tt
    /\ buffer_ok (exec (log_all calls) l)
    /\ concat (AL.flushed (exec (log_all calls) l)) ++ AL.logBuffer (exec (log_all calls) l)
       = (concat (AL.flushed l) ++ AL.logBuffer l) ++ map entry_of calls.
Proof.
  induction calls as [|c calls IH]; intros l Hok.
  - simpl. rewrite app_nil_r. repeat split; apply Hok.
  - destruct (log_keeps c l Hok) as [Hok' Hall]. cbv zeta in Hok', Hall.
    destruct (IH _ Hok') as (Hres & Hok'' & Hall').
    assert (Hcons : log_all (c :: calls) l
                    = log_all calls
                        (exec (AL.log (lc_level c) (lc_message c) (lc_data c)
                                      (lc_uuid c) (lc_now c)) l)).
    { unfold log_all. simpl for_of. unfold bind at 1, exec. rewrite log_eq. reflexivity. }
    unfold result_of, exec in *. rewrite Hcons.
    split; [exact Hres|]. split; [exact Hok''|].
    rewrite Hall', Hall. simpl. rewrite <- app_assoc. reflexivity.
Qed.

(** X25. Buffering loses and repeats nothing.  After any sequence of
    [log] calls on a new logger, the flushed batches followed by the buffer
    are the logged entries, in the order of the calls.  The buffer holds
    fewer than 100 entries and no critical one, and every batch either has
    100 entries or has fewer and ends with a critical entry. *)
Theorem X25_log_buffering (calls : list LogCall) :
  result_of (log_all calls) AL.new_logger = Returns tt
  /\ concat (AL.flushed (exec (log_all calls) AL.new_logger))
     ++ AL.logBuffer (exec (log_all calls) AL.new_logger)
     = map entry_of calls
  /\ (length (AL.logBuffer (exec (log_all calls) AL.new_logger)) < 100)%nat
  /\ Forall (fun e => AL.level e <> AL.critical)
            (AL.logBuffer (exec (log_all calls) AL.new_logger))
  /\ Forall batch_ok (AL.flushed (exec (log_all calls) AL.new_logger)).
Proof.
  assert (Hnew : buffer_ok AL.new_logger).
  { split; [simpl; lia|]. split; constructor. }
  destruct (log_all_from calls AL.new_logger Hnew) as (Hres & (Hlen & Hcrit & Hbatches) & Hall).
  split; [exact Hres|]. split; [exact Hall|]. repeat split; assumption.
Qed.

(** * Properties of the state manager *)

Lemma findIndex_first (i : string) (pre post : list SD.SubagentInfo) (x : SD.SubagentInfo) :
  SD.id x = i -> Forall (fun y => SD.id y <> i) pre ->
  SS.findIndex i (pre ++ x :: post) = Some (length pre).
Proof.
  intros Hx Hpre. induction Hpre as [|y pre Hy Hpre IH]; simpl.
  - rewrite bool_decide_eq_true_2 by exact Hx. reflexivity.
  - rewrite bool_decide_eq_false_2 by exact Hy. rewrite IH. reflexivity.
Qed.

Lemma findIndex_none (i : string) (subs : list SD.SubagentInfo) :
  Forall (fun y => SD.id y <> i) subs -> SS.findIndex i subs = None.
Proof.
  induction 1 as [|y subs Hy Hsubs IH]; simpl; [reflexivity|].
  rewrite bool_decide_eq_false_2 by exact Hy. rewrite IH. reflexivity.
Qed.

(** X26. Every call that changes the subagent list and returns leaves the
    manager loaded, the storage holding the very state the manager holds,
    and [subagentsActive] equal to the number of active subagents in the
    list, whatever the manager was before.  A manager created anew over
    that storage therefore reads the same state back. *)
Theorem X26_subagent_calls_write_through
        (op : StoreOp) (m : SS.Manager) (later : Z)
        (Hreturns : result_of (run_store_op op) m = Returns tt) :
  mirrored (exec (run_store_op op) m)
  /\ exists s,
       SS.state (exec (run_store_op op) m) = Some s
       /\ result_of (SS.getState later) (reopened (exec (run_store_op op) m)) = Returns s.
Proof.
  unfold mirrored, reopened. revert Hreturns.
  destruct op as [x now|i updates now|i now]; destruct m as [[s|] [st|]];
    unfold run_store_op; run_store;
    try (destruct (SS.findIndex i _)); simpl; intros Hreturns; try discriminate;
    (split; [eexists; repeat split | eexists; split; reflexivity]).
Qed.

Lemma alter_at {A} (f : A -> A) (pre post : list A) (x : A) :
  alter f (length pre) (pre ++ x :: post) = pre ++ f x :: post.
Proof.
  induction pre as [|y pre IH]; simpl; [reflexivity|].
  f_equal. exact IH.
Qed.

(** X27. [updateSubagent] changes the first subagent of the list that has
    the given id and no other: the subagents before it and after it are
    kept as they are, also those after it that carry the same id. *)
Theorem X27_updateSubagent_changes_the_first_match
        (m : SS.Manager) (s : SS.State) (pre post : list SD.SubagentInfo)
        (x : SD.SubagentInfo) (i : string) (updates : SS.SubagentPatch) (now : Z)
        (Hstate : SS.state m = Some s)
        (Hsubs : SS.subagents s = pre ++ x :: post)
        (Hx : SD.id x = i)
        (Hpre : Forall (fun y => SD.id y <> i) pre) :
  result_of (SS.updateSubagent i updates now) m = Returns tt
  /\ SS.subagents <$> SS.state (exec (SS.updateSubagent i updates now) m)
     = Some (pre ++ SS.spread x updates :: post).
Proof.
  destruct m as [st sto]. simpl in Hstate. subst st.
  run_store. rewrite Hsubs. rewrite (findIndex_first i pre post x Hx Hpre). simpl.
  rewrite (alter_at (fun old => SS.spread old updates) pre post x).
  split; reflexivity.
Qed.

(** X28. [updateSubagent] for an id that no subagent has throws
    "Subagent not found" and changes nothing in a loaded manager.  On a
    manager that has not loaded yet and finds the storage empty, the call
    throws as well, but only after it has created the default state and
    written it to the storage. *)
Theorem X28_updateSubagent_unknown_id
        (m : SS.Manager) (s : SS.State) (i : string) (updates : SS.SubagentPatch) (now : Z)
        (Hstate : SS.state m = Some s)
        (Hnone : Forall (fun y => SD.id y <> i) (SS.subagents s)) :
  SS.updateSubagent i updates now m = (Throws ("Subagent not found: " +:+ i), m)
  /\ SS.updateSubagent i updates now unloaded
     = (Throws ("Subagent not found: " +:+ i),
        SS.mkManager (Some (SS.defaultState now)) (Some (SS.defaultState now))).
Proof.
  destruct m as [st sto]. simpl in Hstate. subst st. split.
  - unfold SS.updateSubagent, SS.ensure_loaded, SS.the_state, bind, get_state, ret, throw.
    simpl. rewrite (findIndex_none i _ Hnone). reflexivity.
  - reflexivity.
Qed.

(** * The further properties at concrete inputs *)

(** X1 on the empty queue. *)
Lemma X1_enqueue_then_getTask_witness :
  ("n1" ∉ known_ids empty_storage)
  /\ result_of (getTask "n1") (exec (enqueue urgent_spec "n1" 7) empty_storage)
     = Returns (Some (new_task urgent_spec "n1" 7)).
Proof.
  split; [apply not_elem_of_nil|].
  exact (proj1 (proj2 (X1_enqueue_then_getTask urgent_spec "n1" 7 empty_storage
                                               (not_elem_of_nil _)))).
Defined.

(** X2 for an id that [retry_queue] does not hold. *)
Lemma X2_calls_on_a_missing_task_witness :
  result_of (getTask "ghost") retry_queue = Returns None
  /\ complete "ghost" "ok" 9 retry_queue = (Throws "Task not found: ghost", retry_queue)
  /\ fail "ghost" "boom" 9 retry_queue = (Returns tt, retry_queue).
Proof.
  split; [reflexivity|].
  destruct (X2_calls_on_a_missing_task "ghost" retry_queue eq_refl) as (_ & Hcomplete & Hfail).
  split; [apply Hcomplete | apply Hfail].
Defined.

Lemma wf_started_queue : wf_storage started_queue.
Proof. unfold wf_storage, wf_row. by_computation. Defined.

(** X3 at [started_queue]: the task was started at 5; completing it and
    starting it again at 12 leaves [startedAt] at 5. *)
Lemma X3_timestamps_written_once_witness :
  wf_storage started_queue
  /\ startedAt <$> task_of "r1" started_queue = Some (Some 5)
  /\ never_reissues "r1" [Complete "r1" "ok" 9; Start "r1" 12]
  /\ startedAt <$> task_of "r1" (apply_ops [Complete "r1" "ok" 9; Start "r1" 12] started_queue)
     = Some (Some 5).
Proof.
  split; [exact wf_started_queue|]. split; [reflexivity|].
  assert (Hops : never_reissues "r1" [Complete "r1" "ok" 9; Start "r1" 12])
    by (repeat constructor).
  split; [exact Hops|].
  destruct (task_of "r1" (apply_ops [Complete "r1" "ok" 9; Start "r1" 12] started_queue))
    as [t'|] eqn:Hafter; [|discriminate Hafter].
  destruct (X3_timestamps_written_once started_queue "r1" (stamp in_progress 5 retry_task) 5
              [Complete "r1" "ok" 9; Start "r1" 12] wf_started_queue eq_refl
              ltac:(discriminate) Hops) as (Hstarted & _ & _).
  simpl. f_equal. exact (Hstarted eq_refl t' Hafter).
Defined.

(** X4 at [retry_queue]: a failure and a restart keep the creation
    fields of the task. *)
Lemma X4_creation_fields_are_kept_witness :
  wf_storage retry_queue
  /\ task_of "r1" retry_queue = Some retry_task
  /\ never_reissues "r1" [Fail "r1" "boom" 2; Start "r1" 3]
  /\ exists t',
       task_of "r1" (apply_ops [Fail "r1" "boom" 2; Start "r1" 3] retry_queue) = Some t'
       /\ createdAt t' = 1 /\ maxRetries t' = 2 /\ priority t' = 5.
Proof.
  split; [exact wf_retry_queue|]. split; [reflexivity|].
  assert (Hops : never_reissues "r1" [Fail "r1" "boom" 2; Start "r1" 3])
    by (repeat constructor).
  split; [exact Hops|].
  eexists. split; [reflexivity|].
  destruct (X4_creation_fields_are_kept retry_queue "r1" retry_task _
              [Fail "r1" "boom" 2; Start "r1" 3] wf_retry_queue eq_refl Hops eq_refl)
    as (_ & _ & _ & Hp & _ & Hc & Hm & _).
  split; [exact Hc|]. split; [exact Hm | exact Hp].
Defined.

(** X5 for a task enqueued with [maxRetries: 0] and failed once. *)
Lemma X5_retry_budget_is_bounded_witness :
  exists t,
    task_of "z1" (apply_ops [Enqueue zero_retries_spec "z1" 1; Fail "z1" "boom" 2] empty_storage)
    = Some t
    /\ maxRetries t <> 0 /\ 0 <= retryCount t /\ retryCount t <= Z.max 0 (maxRetries t).
Proof.
  eexists. split; [reflexivity|].
  exact (X5_retry_budget_is_bounded
           [Enqueue zero_retries_spec "z1" 1; Fail "z1" "boom" 2] "z1" _ eq_refl).
Defined.

(** X6 for two tasks, one of them started, and a limit of two. *)
Lemma X6_getPending_returns_all_pending_witness :
  (length (cf_agents_queues
             (apply_ops [Enqueue routine_spec "X" 1; Enqueue urgent_spec "A" 2; Start "X" 3]
                        empty_storage)) <= 2)%nat
  /\ exists l,
       result_of (getPending 2)
                 (apply_ops [Enqueue routine_spec "X" 1; Enqueue urgent_spec "A" 2; Start "X" 3]
                            empty_storage) = Returns l
       /\ (new_task urgent_spec "A" 2 ∈ l
           <-> exists i,
                 result_of (getTask i)
                           (apply_ops [Enqueue routine_spec "X" 1; Enqueue urgent_spec "A" 2;
                                       Start "X" 3] empty_storage)
                 = Returns (Some (new_task urgent_spec "A" 2))
                 /\ status (new_task urgent_spec "A" 2) = pending).
Proof.
  assert (Hlen : (length (cf_agents_queues
                            (apply_ops [Enqueue routine_spec "X" 1; Enqueue urgent_spec "A" 2;
                                        Start "X" 3] empty_storage)) <= 2)%nat)
    by (simpl; lia).
  split; [exact Hlen|].
  exact (X6_getPending_returns_all_pending
           [Enqueue routine_spec "X" 1; Enqueue urgent_spec "A" 2; Start "X" 3] 2
           (new_task urgent_spec "A" 2) Hlen).
Defined.

Lemma wf_recent_queue : wf_storage recent_queue.
Proof. unfold wf_storage, wf_row. by_computation. Defined.

(** X7 at [recent_queue] with a limit of two: the two newest tasks are
    returned, the newest first, and the oldest is left out. *)
Lemma X7_getRecent_newest_first_witness :
  wf_storage recent_queue
  /\ getRecent 2 recent_queue
     = (Returns [new_task routine_spec "o3" 3; new_task urgent_spec "o2" 2], recent_queue)
  /\ exists l rest,
       getRecent 2 recent_queue = (Returns l, recent_queue)
       /\ (length l <= 2)%nat
       /\ StronglySorted (fun a b => createdAt b <= createdAt a) (l ++ rest)
       /\ l ++ rest ≡ₚ map row_payload (cf_agents_queues recent_queue)
       /\ (length l = 2%nat \/ rest = []).
Proof.
  split; [exact wf_recent_queue|]. split; [reflexivity|].
  exact (X7_getRecent_newest_first recent_queue 2 wf_recent_queue).
Defined.

Lemma wf_dead_queue : wf_storage dead_queue.
Proof. unfold wf_storage, wf_row. by_computation. Defined.

(** X8 at [dead_queue], eight days after the task was created: the failed
    task is deleted. *)
Lemma X8_cleanup_removes_old_finished_tasks_witness :
  wf_storage dead_queue
  /\ task_of "r1" (exec (cleanup 7 700000000) dead_queue) = None
  /\ kv (exec (cleanup 7 700000000) dead_queue) = kv dead_queue.
Proof.
  split; [exact wf_dead_queue|].
  destruct (X8_cleanup_removes_old_finished_tasks dead_queue 7 700000000 wf_dead_queue)
    as (Htask & _ & _ & Hkv & _).
  split; [rewrite Htask; reflexivity | exact Hkv].
Defined.

(** X9 at [dead_queue]: restarting the task and cleaning the table up
    leave the dead letter where it is. *)
Lemma X9_dead_letters_are_kept_witness :
  wf_storage dead_queue
  /\ is_Some (dead_letter "r1" dead_queue)
  /\ never_fails "r1" [Start "r1" 9; Cleanup 7 700000000]
  /\ dead_letter "r1" (apply_ops [Start "r1" 9; Cleanup 7 700000000] dead_queue)
     = dead_letter "r1" dead_queue.
Proof.
  split; [exact wf_dead_queue|].
  destruct (dead_letter "r1" dead_queue) as [e|] eqn:Hentry; [|discriminate Hentry].
  split; [eexists; reflexivity|].
  assert (Hops : never_fails "r1" [Start "r1" 9; Cleanup 7 700000000]) by (repeat constructor).
  split; [exact Hops|].
  exact (proj2 (X9_dead_letters_are_kept dead_queue "r1" e [Start "r1" 9; Cleanup 7 700000000]
                                          wf_dead_queue Hentry) Hops).
Defined.

Lemma wf_spent_queue : wf_storage spent_queue.
Proof. unfold wf_storage, wf_row. by_computation. Defined.

(** X10 at [spent_queue]: the dead letter of the third failure holds the
    task as it was before that failure, still pending. *)
Lemma X10_dead_letter_holds_the_earlier_task_witness :
  wf_storage spent_queue
  /\ exists t,
       task_of "r1" spent_queue = Some t
       /\ ~ retryCount t < maxRetries t
       /\ status t = pending
       /\ dead_letter "r1" (exec (fail "r1" "third" 4) spent_queue)
          = Some {| taskId := "r1"; task := t; dlq_error := "third"; timestamp := 4 |}.
Proof.
  split; [exact wf_spent_queue|].
  eexists. split; [reflexivity|].
  assert (Hspent : ~ 2 < 2) by lia.
  split; [exact Hspent|]. split; [reflexivity|].
  exact (proj1 (X10_dead_letter_holds_the_earlier_task spent_queue "r1" _ "third" 4
                  wf_spent_queue eq_refl Hspent)).
Defined.

(** X11 at [retry_queue]: the completed task is pending again after
    [fail]. *)
Lemma X11_fail_requeues_a_completed_task_witness :
  wf_storage retry_queue
  /\ task_of "r1" retry_queue = Some retry_task
  /\ retryCount retry_task < maxRetries retry_task
  /\ exists t2,
       task_of "r1" (exec (fail "r1" "late" 7) (exec (complete "r1" "ok" 6) retry_queue))
       = Some t2
       /\ status t2 = pending /\ result t2 = Some "ok".
Proof.
  split; [exact wf_retry_queue|]. split; [reflexivity|].
  assert (Hbudget : retryCount retry_task < maxRetries retry_task) by (simpl; lia).
  split; [exact Hbudget|].
  destruct (X11_fail_requeues_a_completed_task retry_queue "r1" retry_task "ok" "late" 6 7
              wf_retry_queue eq_refl Hbudget)
    as (t1 & t2 & _ & _ & _ & Hget & Hstatus & Hresult & _).
  exists t2. split; [exact Hget|]. split; [exact Hstatus | exact Hresult].
Defined.

(** X14 at [idle_pool]. *)
Lemma X14_remove_deletes_one_subagent_witness :
  wf_pool (SD.activeSubagents idle_pool)
  /\ SD.map_get "a1" (SD.activeSubagents (exec (SD.remove "a1") idle_pool)) = None
  /\ SD.map_size (SD.activeSubagents (exec (SD.remove "a1") idle_pool)) = 0.
Proof.
  split; [exact wf_idle_pool|].
  destruct (X14_remove_deletes_one_subagent idle_pool "a1" wf_idle_pool)
    as (_ & Hgone & _ & Hsize).
  split; [exact Hgone|]. rewrite Hsize. reflexivity.
Defined.

(** X16 at [idle_pool]: a heartbeat at 100 keeps the subagent through the
    health check at 300100. *)
Lemma X16_heartbeat_then_healthCheck_witness :
  SD.map_get "a1" (SD.activeSubagents idle_pool) = Some idle_worker
  /\ 300100 - 100 <= 300000
  /\ SD.map_get "a1" (SD.activeSubagents
                        (exec (SD.healthCheck 300100) (exec (SD.heartbeat "a1" 100) idle_pool)))
     = Some (SD.mkSubagentInfo "a1" SD.worker "w" SD.idle None 0 100).
Proof.
  split; [reflexivity|].
  assert (Hsoon : 300100 - 100 <= 300000) by lia.
  split; [exact Hsoon|].
  exact (proj1 (X16_heartbeat_then_healthCheck idle_pool "a1" idle_worker 100 300100
                  eq_refl Hsoon)).
Defined.

(** X18 at [crowded_agent]: task "k1" is run, the complex task "k2" finds
    no subagent, and "k3" is never looked at. *)
Lemma X18_capacity_error_aborts_the_tick_witness :
  at_capacity crowded_agent = false
  /\ (exists pre t post,
         result_of (MCA.getPending_number (MCA.maxConcurrentTasks (MCA.config crowded_agent)))
                   (MCA.taskQueue crowded_agent)
         = Returns (pre ++ t :: post)
         /\ map id pre = ["k1"] /\ id t = "k2" /\ map id post = ["k3"])
  /\ map id (MCA.dispatched (MCA.events (exec (MCA.processAutonomousTasks calm_world 30)
                                              crowded_agent)))
     = ["k1"].
Proof.
  split; [reflexivity|].
  split.
  { exists [new_task (mkTaskData "command" "a" 5 "a" None None None None None None) "k1" 1],
           (new_task (mkTaskData "complex" "b" 3 "b" None None None None None None) "k2" 2),
           [new_task (mkTaskData "command" "c" 1 "c" None None None None None None) "k3" 3].
    repeat split. }
  assert (Hdirect : Forall (fun x => needs_subagent x = false)
                           [new_task (mkTaskData "command" "a" 5 "a" None None None None None None)
                                     "k1" 1])
    by (repeat constructor).
  assert (Hfull : SD.maxSubagents (MCA.subagentDeployer crowded_agent)
                  <= SD.map_size (SD.activeSubagents (MCA.subagentDeployer crowded_agent)))
    by (cbv; discriminate).
  unfold exec.
  rewrite (X18_capacity_error_aborts_the_tick
             calm_world 30 crowded_agent
             [new_task (mkTaskData "command" "a" 5 "a" None None None None None None) "k1" 1]
             [new_task (mkTaskData "command" "c" 1 "c" None None None None None None) "k3" 3]
             (new_task (mkTaskData "complex" "b" 3 "b" None None None None None None) "k2" 2)
             eq_refl eq_refl Hdirect eq_refl (Forall_nil_2 _) Hfull).
  reflexivity.
Defined.


(** X20 at [waiting_agent] in [silent_world]. *)
Lemma X20_failed_notification_skips_learning_witness :
  task_of "t1" (MCA.taskQueue waiting_agent) = Some (command_task "deploy worker" "t1" 10)
  /\ result_of (MCA.executeCommand silent_world (command_task "deploy worker" "t1" 10) 20)
               waiting_agent
     = Throws "span.end is not a function"
  /\ MCA.events (exec (MCA.executeCommand silent_world
                                          (command_task "deploy worker" "t1" 10) 20)
                      waiting_agent)
     = [MCA.AuditError "Command execution failed"].
Proof.
  split; [reflexivity|].
  destruct (X20_failed_notification_skips_learning
              silent_world waiting_agent
              (command_task "deploy worker" "t1" 10) (command_task "deploy worker" "t1" 10)
              20 "OracleUnavailable" "ConnectionClosed" eq_refl eq_refl eq_refl)
    as (Hres & _ & Hevents).
  split; [exact Hres | exact Hevents].
Defined.

(** X21 at [waiting_agent], for a task the queue never held. *)
Lemma X21_executeCommand_on_a_missing_task_witness :
  task_of "ghost" (MCA.taskQueue waiting_agent) = None
  /\ MCA.taskQueue (exec (MCA.executeCommand calm_world (command_task "x" "ghost" 1) 20)
                         waiting_agent)
     = MCA.taskQueue waiting_agent.
Proof.
  split; [reflexivity|].
  exact (proj1 (proj2 (X21_executeCommand_on_a_missing_task
                         calm_world waiting_agent (command_task "x" "ghost" 1) 20
                         eq_refl eq_refl eq_refl))).
Defined.

(** X22 for 102 calls: the last one is the first to be refused. *)
Lemma X22_rate_limit_admits_101_witness :
  (∅ : RS.Store) !! rate_key "c1" = None
  /\ rate_answers "c1" 102 ∅ = replicate 101 true ++ [false].
Proof.
  split; [reflexivity|].
  exact (X22_rate_limit_admits_101 "c1" 102 ∅ eq_refl).
Defined.

(** X26 for the first subagent added to a manager that has not loaded. *)
Lemma X26_subagent_calls_write_through_witness :
  result_of (run_store_op (SAdd idle_worker 0)) unloaded = Returns tt
  /\ mirrored (exec (run_store_op (SAdd idle_worker 0)) unloaded).
Proof.
  split; [reflexivity|].
  exact (proj1 (X26_subagent_calls_write_through (SAdd idle_worker 0) unloaded 1 eq_refl)).
Defined.

(** X27 at [twin_manager]: only the first of the two subagents "a1"
    becomes active. *)
Lemma X27_updateSubagent_changes_the_first_match_witness :
  SS.subagents <$> SS.state twin_manager = Some ([] ++ idle_worker :: [idle_worker])
  /\ SS.subagents <$> SS.state (exec (SS.updateSubagent "a1" activate 9) twin_manager)
     = Some [SD.set_status SD.active idle_worker; idle_worker].
Proof.
  split; [reflexivity|].
  exact (proj2 (X27_updateSubagent_changes_the_first_match
                  twin_manager
                  (SS.mkState [idle_worker; idle_worker] (StateManager.mkMetrics 0 0 0 0 0))
                  [] [idle_worker] idle_worker "a1" activate 9
                  eq_refl eq_refl eq_refl (Forall_nil_2 _))).
Defined.

(** X28 at [twin_manager], for an id it does not hold. *)
Lemma X28_updateSubagent_unknown_id_witness :
  Forall (fun y => SD.id y <> "ghost") [idle_worker; idle_worker]
  /\ SS.updateSubagent "ghost" no_patch 9 twin_manager
     = (Throws "Subagent not found: ghost", twin_manager).
Proof.
  assert (Hnone : Forall (fun y => SD.id y <> "ghost") [idle_worker; idle_worker])
    by (repeat constructor; discriminate).
  split; [exact Hnone|].
  exact (proj1 (X28_updateSubagent_unknown_id
                  twin_manager
                  (SS.mkState [idle_worker; idle_worker] (StateManager.mkMetrics 0 0 0 0 0))
                  "ghost" no_patch 9 eq_refl Hnone)).
Defined.
